(** * wave-buoy-stats: the station data pipeline

    A shallow embedding of [wave-buoy-stats.py].  The script fetches one
    CDIP realtime dataset per roster entry, three times over (time-series
    figure, station map, density figure), slices and rescales the wave
    heights and reindexes every later station onto the time index of the
    first one.

    What is modelled: the remote archive (an oracle answering the k-th
    request), the wall clock (an oracle answering the k-th reading),
    Python exceptions, the xarray selections the script uses, numpy's
    [max], and pandas' [reindex(method='nearest', limit=3)] down to the
    pad/backfill indexers it is built from.  Of the drawing calls, the
    ones that can stop the script are modelled as well: the shape of what
    [plt.subplots] returns, and [joypy.joyplot] refusing a frame without a
    single number.  Everything else drawn (matplotlib, cartopy, seaborn) and
    the scp publication only consume data; a figure is represented by the
    data handed to it.

    Wave heights are exact rationals, so nothing here speaks about the
    rounding of the script's float arithmetic; instants are integers
    (seconds), without the bounds of [datetime64]. *)

From Stdlib Require Import List ZArith QArith Bool String Lia Arith.
Import ListNotations.
Open Scope Z_scope.

(** ** Python outcomes: values or exceptions, threaded through a world *)

Inductive exn : Type :=
| TypeError
| ValueError
| IndexError
| UnboundLocalError
| OSError
| TimeoutError
| KeyboardInterrupt.

Inductive result (A : Type) : Type :=
| Ok (a : A)
| Raise (e : exn).
Arguments Ok {A} a.
Arguments Raise {A} e.

(** ** Data model *)

(** One row of the [waveTime] dimension (seconds since the epoch, metres). *)
Record WaveSample : Type := mkWave { waveTime : Z; waveHs : Q }.

(** One row of the [gpsTime] dimension. *)
Record GpsFix : Type := mkGps { gpsTime : Z; gpsLatitude : Q; gpsLongitude : Q }.

(** The xarray dataset of one station. *)
Record RawDataset : Type := mkDs { wave : list WaveSample; gps : list GpsFix }.

(** [buoy_lookup.items()]: display name and CDIP id, in insertion order. *)
Definition buoy_lookup : Type := list (string * string).

Inductive zone : Type := UTC | US_Pacific.

(** A pandas Series of instants: its index, the time zone of the index
    ([None] while it is naive) and its values, which are naive
    [datetime64] whatever the index is. *)
Record TimeSeries : Type :=
  mkTimeSeries { series_index : list Z; index_tz : option zone;
                 series_values : list Z }.

(** A line drawn by [ax.plot]: its x values and its y values. *)
Record WindowedSeries : Type :=
  mkSeries { timestamps : list Z; values : list Q }.

Definition Axes : Type := list WindowedSeries.

(** The world outside the interpreter: what the archive answers to the k-th
    request and what the clock shows at the k-th reading. *)
Record Env : Type :=
  mkEnv { open_dataset : nat -> string -> result RawDataset;
          datetime_now : nat -> Z }.

(** What a run has consumed of it so far: the urls requested, oldest first,
    and the number of clock readings. *)
Record World : Type := mkWorld { requests : list string; ticks : nat }.

Definition Py (A : Type) : Type := World -> result A * World.

Definition ret {A} (a : A) : Py A := fun w => (Ok a, w).
Definition raise {A} (e : exn) : Py A := fun w => (Raise e, w).
Definition bind {A B} (c : Py A) (k : A -> Py B) : Py B :=
  fun w => match c w with
           | (Ok a, w') => k a w'
           | (Raise e, w') => (Raise e, w')
           end.
(** [try: c  except: h] with a bare except clause. *)
Definition try_except {A} (c : Py A) (h : Py A) : Py A :=
  fun w => match c w with
           | (Ok a, w') => (Ok a, w')
           | (Raise _, w') => h w'
           end.
Definition lift {A} (r : result A) : Py A := fun w => (r, w).

Notation "x <- c1 ;; c2" := (bind c1 (fun x => c2))
  (at level 61, c1 at next level, right associativity).
Notation "' pat <- c1 ;; c2" := (bind c1 (fun x => match x with pat => c2 end))
  (at level 61, pat pattern, c1 at next level, right associativity).

(** [datetime.now()] *)
Definition now (env : Env) : Py Z :=
  fun w => (Ok (datetime_now env (ticks w)),
            {| requests := requests w; ticks := S (ticks w) |}).

(** [timedelta(days=n)] *)
Definition days (n : Z) : Z := n * 86400.

(** ** Station fetcher *)

Definition base_str : string :=
  "https://thredds.cdip.ucsd.edu/thredds/dodsC/cdip/realtime/".

Definition request_url (buoy_id : string) : string :=
  (base_str ++ buoy_id ++ "p1_rt.nc")%string.

(** [xr.open_dataset(url)]: one request to the archive. *)
Definition xr_open_dataset (env : Env) (url : string) : Py RawDataset :=
  fun w => (open_dataset env (List.length (requests w)) url,
            {| requests := requests w ++ [url]; ticks := ticks w |}).

Definition get_buoy_data (env : Env) (buoy_id : string) : Py (option RawDataset) :=
  let request_url := request_url buoy_id in
  try_except (ds <- xr_open_dataset env request_url ;; ret (Some ds))
             (ret None).

(** ** xarray and numpy operations used by the script *)

(** [ds.sel(waveTime=slice(start, stop))]: label slice, both ends included,
    on a [waveTime] axis in increasing order (as CDIP's is), where the slice
    is the set of samples inside the interval. *)
Definition sel_waveTime (ds : RawDataset) (start stop : Z) : RawDataset :=
  {| wave := filter (fun s => (start <=? waveTime s) && (waveTime s <=? stop)) (wave ds);
     gps := gps ds |}.

(** [ds.isel(gpsTime=-1)]: the last row, IndexError on an empty dimension. *)
Fixpoint isel_last (fixes : list GpsFix) : result GpsFix :=
  match fixes with
  | [] => Raise IndexError
  | [g] => Ok g
  | _ :: rest => isel_last rest
  end.

Definition Qmaxb (a b : Q) : Q := if Qle_bool a b then b else a.

(** [a.max()]: ValueError on a zero-size array. *)
Definition np_max (a : list Q) : result Q :=
  match a with
  | [] => Raise ValueError
  | x :: rest => Ok (fold_left Qmaxb rest x)
  end.

Definition feet_per_metre_inv : Q := 3048 # 10000.
Definition feet_per_metre : Q := 328084 # 100000.

(** A Python variable that holds a flag first and a float later. *)
Inductive PyVal : Type := PyBool (b : bool) | PyFloat (q : Q).

Definition truthy (v : PyVal) : bool :=
  match v with
  | PyBool b => b
  | PyFloat q => negb (Qeq_bool q 0)
  end.

(** ** plot_buoy

    The [param] argument is never read (the body selects ['waveHs']
    literally) and every caller passes [ax], so neither default is
    modelled. *)

(** The two shapes of tuple [plot_buoy] returns. *)
Inductive plot_ret : Type :=
| Ret2 (ax : Axes) (last_month : RawDataset)
| Ret3 (ax : Axes) (last_month : RawDataset) (max_hs : PyVal).

(** [last_month['waveTime'].to_pandas()]: the coordinate indexed by itself. *)
Definition to_pandas_waveTime (last_month : RawDataset) : TimeSeries :=
  {| series_index := map waveTime (wave last_month);
     index_tz := None;
     series_values := map waveTime (wave last_month) |}.

(** [Series.tz_localize(z)]: gives a naive index its zone; TypeError on an
    index that has one. *)
Definition tz_localize (s : TimeSeries) (z : zone) : result TimeSeries :=
  match index_tz s with
  | None => Ok {| series_index := series_index s; index_tz := Some z;
                  series_values := series_values s |}
  | Some _ => Raise TypeError
  end.

(** [Series.tz_convert(z)]: moves an aware index to another zone, the
    instants unchanged; TypeError on a naive index. *)
Definition tz_convert (s : TimeSeries) (z : zone) : result TimeSeries :=
  match index_tz s with
  | Some _ => Ok {| series_index := series_index s; index_tz := Some z;
                    series_values := series_values s |}
  | None => Raise TypeError
  end.

(** [ax.plot(x, y, lw=3)] with a Series as [x]: the line is drawn at the
    values of the Series; its index is not read. *)
Definition ax_plot (ax : Axes) (x : TimeSeries) (y : list Q) : Axes :=
  ax ++ [{| timestamps := series_values x; values := y |}].

Definition plot_buoy (env : Env) (ds : RawDataset) (ax : Axes) (max_hs : PyVal)
  : Py plot_ret :=
  t1 <- now env ;;
  t2 <- now env ;;
  let last_month := sel_waveTime ds (t1 - days 10) t2 in
  let sig_wave := map waveHs (wave last_month) in
  time_utc <- lift (tz_localize (to_pandas_waveTime last_month) UTC) ;;
  time_pst <- lift (tz_convert time_utc US_Pacific) ;;
  let ax := ax_plot ax time_pst (map (fun v => v / feet_per_metre_inv)%Q sig_wave) in
  max_hs <- (if truthy max_hs
             then m <- lift (np_max sig_wave) ;;
                  ret (PyFloat (m / feet_per_metre_inv)%Q)
             else ret max_hs) ;;
  t3 <- now env ;;
  t4 <- now env ;;
  let last_month := sel_waveTime ds (t3 - days 1) t4 in
  let sig_wave := map waveHs (wave last_month) in
  time_utc <- lift (tz_localize (to_pandas_waveTime last_month) UTC) ;;
  time_pst <- lift (tz_convert time_utc US_Pacific) ;;
  let ax := ax_plot ax time_pst (map (fun v => v / feet_per_metre_inv)%Q sig_wave) in
  if truthy max_hs
  then ret (Ret3 ax last_month max_hs)
  else ret (Ret2 ax last_month).

(** ** get_station_locations and make_buoy_map *)

Definition Locations : Type :=
  (list string * list (option Q) * list (option Q))%type.

Fixpoint get_station_locations_loop (env : Env) (items : buoy_lookup)
    (station_name : list string) (lats lons : list (option Q)) : Py Locations :=
  match items with
  | [] => ret (station_name, lats, lons)
  | (key, value) :: items' =>
      ds <- get_buoy_data env value ;;
      let station_name := station_name ++ [key] in
      match ds with
      | None =>
          get_station_locations_loop env items' station_name
            (lats ++ [None]) (lons ++ [None])
      | Some ds =>
          lat <- lift (isel_last (gps ds)) ;;
          lon <- lift (isel_last (gps ds)) ;;
          get_station_locations_loop env items' station_name
            (lats ++ [Some (gpsLatitude lat)]) (lons ++ [Some (gpsLongitude lon)])
      end
  end.

Definition get_station_locations (env : Env) (buoy_lookup : buoy_lookup)
  : Py Locations :=
  get_station_locations_loop env buoy_lookup [] [] [].

(** The [coords] frame the map is drawn from. *)
Definition make_buoy_map (env : Env) (buoy_lookup : buoy_lookup) : Py Locations :=
  get_station_locations env buoy_lookup.

(** ** make_timeseries_plots *)

(** What is drawn on [ax[i]]: the placeholder of an offline station, or the
    lines of [plot_buoy] labelled in colour [cmap(i)]. *)
Inductive Panel : Type :=
| StationOffline (key value : string)
| StationOnline (i : nat) (key value : string) (ax : Axes) (max_hs : PyVal).

(** What [plt.subplots(nrows, ...)] hands back as its second component
    with the default [squeeze=True]: one Axes for one row, an array of Axes
    for more. *)
Inductive Subplots : Type := OneAxes | AxesArray (nrows : nat).

(** [plt.subplots(nrows, ...)]: ValueError unless [nrows] is positive. *)
Definition plt_subplots (nrows : nat) : result Subplots :=
  match nrows with
  | 0%nat => Raise ValueError
  | 1%nat => Ok OneAxes
  | _ => Ok (AxesArray nrows)
  end.

(** [ax[i]]: an Axes object is not subscriptable. *)
Definition subscript (ax : Subplots) (i : nat) : result unit :=
  match ax with
  | OneAxes => Raise TypeError
  | AxesArray nrows => if (i <? nrows)%nat then Ok tt else Raise IndexError
  end.

(** The loop over [enumerate(buoy_lookup.items())]: [axs] is what
    [plt.subplots] returned, [ax] collects what has been drawn. *)
Fixpoint make_timeseries_plots_loop (env : Env) (axs : Subplots) (i : nat)
    (items : buoy_lookup) (ax : list Panel) : Py (list Panel) :=
  match items with
  | [] => ret ax
  | (key, value) :: items' =>
      ds <- get_buoy_data env value ;;
      _ <- lift (subscript axs i) ;;
      match ds with
      | None =>
          make_timeseries_plots_loop env axs (S i) items'
            (ax ++ [StationOffline key value])
      | Some ds =>
          r <- plot_buoy env ds [] (PyBool true) ;;
          match r with
          | Ret3 ax_current _ max_hs =>
              make_timeseries_plots_loop env axs (S i) items'
                (ax ++ [StationOnline i key value ax_current max_hs])
          | Ret2 _ _ => raise ValueError
          end
      end
  end.

Definition make_timeseries_plots (env : Env) (buoy_lookup : buoy_lookup)
  : Py (list Panel) :=
  axs <- lift (plt_subplots (List.length buoy_lookup)) ;;
  make_timeseries_plots_loop env axs 0%nat buoy_lookup [].

(** ** pandas: the pad and backfill indexers

    [libalgos.pad] and [libalgos.backfill] are the same walk in opposite
    directions.  [before a b] says that label [a] is met before label [b]
    in the direction of the walk, [step] is what the source position moves
    by, and [lim] is the validated [limit].  Both lists are given in
    walking order. *)

Section Fill.
Variable before : Z -> Z -> bool.
Variable step : Z.
Variable lim : nat.

(** The leading targets met before the first source label keep -1. *)
Fixpoint fill_skip (cur : Z) (new : list Z) : list Z * list Z :=
  match new with
  | [] => ([], [])
  | x :: new' =>
      if before x cur
      then let (out, rest) := fill_skip cur new' in (-1 :: out, rest)
      else ([], new)
  end.

(** Inner loop for the last source label ([i == nleft - 1]). *)
Fixpoint fill_last (i cur : Z) (fill_count : nat) (new : list Z) : list Z :=
  match new with
  | [] => []
  | x :: new' =>
      if x =? cur then i :: fill_last i cur fill_count new'
      else if before cur x && (fill_count <? lim)%nat
           then i :: fill_last i cur (S fill_count) new'
           else -1 :: fill_last i cur fill_count new'
  end.

(** Inner loop while the target lies between [cur] and [next]; returns
    the positions written and the targets left. *)
Fixpoint fill_run (i cur next : Z) (fill_count : nat) (new : list Z)
  : list Z * list Z :=
  match new with
  | [] => ([], [])
  | x :: new' =>
      if ((x =? cur) || before cur x) && before x next
      then if x =? cur
           then let (out, rest) := fill_run i cur next fill_count new' in
                (i :: out, rest)
           else if (fill_count <? lim)%nat
                then let (out, rest) := fill_run i cur next (S fill_count) new' in
                     (i :: out, rest)
                else let (out, rest) := fill_run i cur next fill_count new' in
                     (-1 :: out, rest)
      else ([], new)
  end.

(** The outer [while True]: [old'] are the source labels after [cur]. *)
Fixpoint fill_walk (i cur : Z) (old' : list Z) (new : list Z) {struct old'}
  : list Z :=
  match new with
  | [] => []
  | _ :: _ =>
      match old' with
      | [] => fill_last i cur 0 new
      | next :: old'' =>
          let (out, rest) := fill_run i cur next 0 new in
          out ++ fill_walk (i + step) next old'' rest
      end
  end.

Definition fill_indexer (start : Z) (old new : list Z) : list Z :=
  match old with
  | [] => repeat (-1) (List.length new)
  | cur :: old' =>
      match new with
      | [] => []
      | _ :: _ =>
          if before (last new 0) cur
          then repeat (-1) (List.length new)
          else let (out, rest) := fill_skip cur new in
               out ++ fill_walk start cur old' rest
      end
  end.
End Fill.

Definition pad (old new : list Z) (limit : nat) : list Z :=
  fill_indexer Z.ltb 1 limit 0 old new.

Definition backfill (old new : list Z) (limit : nat) : list Z :=
  rev (fill_indexer Z.gtb (-1) limit (Z.of_nat (List.length old) - 1)
         (rev old) (rev new)).

(** ** pandas: Index.get_indexer(method='nearest', limit=...) *)

(** [values[i]] with Python's negative positions. *)
Definition py_getitem (values : list Z) (i : Z) : Z :=
  nth (Z.to_nat (if i <? 0 then Z.of_nat (List.length values) + i else i)) values 0.

Fixpoint is_monotonic_increasing (l : list Z) : bool :=
  match l with
  | [] => true
  | x :: rest =>
      match rest with
      | [] => true
      | y :: _ => (x <=? y) && is_monotonic_increasing rest
      end
  end.

Fixpoint is_unique (l : list Z) : bool :=
  match l with
  | [] => true
  | x :: rest => negb (existsb (Z.eqb x) rest) && is_unique rest
  end.

Definition nearest_choice (old : list Z) (x left right : Z) : Z :=
  let left_distance := Z.abs (py_getitem old left - x) in
  let right_distance := Z.abs (py_getitem old right - x) in
  if (left_distance <? right_distance) || (right =? -1) then left else right.

Fixpoint np_where_nearest (old new left_indexer right_indexer : list Z) : list Z :=
  match new, left_indexer, right_indexer with
  | x :: new', l :: ls, r :: rs =>
      nearest_choice old x l r :: np_where_nearest old new' ls rs
  | _, _, _ => []
  end.

Definition get_nearest_indexer (old new : list Z) (limit : nat) : list Z :=
  let left_indexer := pad old new limit in
  let right_indexer := backfill old new limit in
  np_where_nearest old new left_indexer right_indexer.

(** The indexer of [Index.reindex(target, method='nearest', limit=limit)] for
    an index that differs from the target: a non-unique index is refused, an
    empty one matches nothing, and a limit is refused unless both are
    monotonic increasing. *)
Definition get_indexer (old new : list Z) (limit : nat) : result (list Z) :=
  if negb (is_unique old) then Raise ValueError
  else match new, old with
       | [], _ => Ok []
       | _, [] => Ok (repeat (-1) (List.length new))
       | _, _ =>
           if is_monotonic_increasing old && is_monotonic_increasing new
           then Ok (get_nearest_indexer old new limit)
           else Raise ValueError
       end.

(** ** pandas: the frames of make_density_plots *)

(** A frame: its time index and its named float columns; [None] is NaN. *)
Record DataFrame : Type :=
  mkDf { index : list Z; columns : list (string * list (option Q)) }.

Fixpoint index_equals (a b : list Z) : bool :=
  match a, b with
  | [], [] => true
  | x :: a', y :: b' => (x =? y) && index_equals a' b'
  | _, _ => false
  end.

Definition take (values : list (option Q)) (indexer : list Z) : list (option Q) :=
  map (fun i => if i =? -1 then None else nth (Z.to_nat i) values None) indexer.

Definition reindex (df : DataFrame) (df_index : list Z) (limit : nat)
  : result DataFrame :=
  if index_equals (index df) df_index then Ok df
  else match get_indexer (index df) df_index limit with
       | Ok indexer =>
           Ok {| index := df_index;
                 columns := map (fun c => (fst c, take (snd c) indexer)) (columns df) |}
       | Raise e => Raise e
       end.

(** [pd.DataFrame(ds['waveHs'].to_pandas()*3.28084, columns=[key])] *)
Definition waveHs_frame (ds : RawDataset) (key : string) : DataFrame :=
  {| index := map waveTime (wave ds);
     columns := [(key, map (fun s => Some (waveHs s * feet_per_metre)%Q) (wave ds))] |}.

Fixpoint set_column (key : string) (arr : list (option Q))
    (cols : list (string * list (option Q))) : list (string * list (option Q)) :=
  match cols with
  | [] => [(key, arr)]
  | (k, v) :: cols' =>
      if String.eqb k key then (k, arr) :: cols'
      else (k, v) :: set_column key arr cols'
  end.

(** [df[key] = value] for a one-column frame on the same index. *)
Definition setitem (df : DataFrame) (key : string) (value : DataFrame) : DataFrame :=
  let arr := match columns value with
             | (_, v) :: _ => v
             | [] => repeat None (List.length (index df))
             end in
  {| index := index df; columns := set_column key arr (columns df) |}.

Fixpoint boolean_mask {A} (mask : list bool) (xs : list A) : list A :=
  match mask, xs with
  | b :: mask', x :: xs' =>
      if b then x :: boolean_mask mask' xs' else boolean_mask mask' xs'
  | _, _ => []
  end.

(** [df[df.index > t]] *)
Definition rows_after (df : DataFrame) (t : Z) : DataFrame :=
  let mask := map (fun x => x >? t) (index df) in
  {| index := boolean_mask mask (index df);
     columns := map (fun c => (fst c, boolean_mask mask (snd c))) (columns df) |}.

(** ** make_density_plots *)

(** The loop's variables [df] and [df_index]; [None] while unbound. *)
Fixpoint make_density_plots_loop (env : Env) (i : nat) (items : buoy_lookup)
    (vars : option (DataFrame * list Z)) : Py (option (DataFrame * list Z)) :=
  match items with
  | [] => ret vars
  | (key, value) :: items' =>
      ds <- get_buoy_data env value ;;
      if (i =? 0)%nat then
        match ds with
        | None => raise TypeError
        | Some ds =>
            let df := waveHs_frame ds key in
            make_density_plots_loop env (S i) items' (Some (df, index df))
        end
      else
        match ds with
        | None => raise TypeError
        | Some ds =>
            let raw_df := waveHs_frame ds key in
            match vars with
            | None => raise UnboundLocalError
            | Some (df, df_index) =>
                aligned <- lift (reindex raw_df df_index 3) ;;
                make_density_plots_loop env (S i) items'
                  (Some (setitem df key aligned, df_index))
            end
        end
  end.

(** The numbers of a column: its values without the missing ones. *)
Fixpoint remove_na (v : list (option Q)) : list Q :=
  match v with
  | [] => []
  | Some q :: v' => q :: remove_na v'
  | None :: v' => remove_na v'
  end.

Definition no_numbers (c : string * list (option Q)) : bool :=
  match remove_na (snd c) with
  | [] => true
  | _ :: _ => false
  end.

(** [joypy.joyplot(data, ...)]: ValueError when no column holds a number,
    which is the case of every frame without rows. *)
Definition joyplot (data : DataFrame) : result unit :=
  if forallb no_numbers (columns data) then Raise ValueError else Ok tt.

(** Returns [df_recent], the frame drawn by [joypy.joyplot]. *)
Definition make_density_plots (env : Env) (buoy_lookup : buoy_lookup)
  : Py DataFrame :=
  vars <- make_density_plots_loop env 0%nat buoy_lookup None ;;
  match vars with
  | None => raise UnboundLocalError
  | Some (df, _) =>
      today <- now env ;;
      let df_recent := rows_after df (today - days 30) in
      _ <- lift (joyplot df_recent) ;;
      ret df_recent
  end.

(** ** The script's entry point *)

Definition the_buoy_lookup : buoy_lookup :=
  [ ("Humboldt Bay", "168"); ("Cape Mendocino", "094"); ("Point Reyes", "029");
    ("SF Bar", "142"); ("Monterey Bay", "185"); ("Cabrillo Point", "158");
    ("Point Sur", "157"); ("Diablo Canyon", "076") ]%string.

Definition main (env : Env) (buoy_lookup : buoy_lookup)
  : Py (list Panel * Locations * DataFrame) :=
  panels <- make_timeseries_plots env buoy_lookup ;;
  coords <- make_buoy_map env buoy_lookup ;;
  df_recent <- make_density_plots env buoy_lookup ;;
  ret (panels, coords, df_recent).

(** ** Vocabulary of the statements *)

Inductive StationStatus : Type := Online | Offline.

(** What a fetch hands to its caller for a given answer of the archive. *)
Definition fetched (answer : result RawDataset) : option RawDataset :=
  match answer with
  | Ok ds => Some ds
  | Raise _ => None
  end.

Definition status_of (answer : result RawDataset) : StationStatus :=
  match answer with
  | Ok _ => Online
  | Raise _ => Offline
  end.

(** The urls one builder requests for a roster, in order. *)
Definition roster_urls (items : buoy_lookup) : list string :=
  map (fun item => request_url (snd item)) items.

(** The archive's answers to the requests of one pass over the roster that
    starts at request number [n]. *)
Fixpoint answers (env : Env) (n : nat) (items : buoy_lookup)
  : list (result RawDataset) :=
  match items with
  | [] => []
  | (_, value) :: items' =>
      open_dataset env n (request_url value) :: answers env (S n) items'
  end.

Definition panel_key (p : Panel) : string :=
  match p with
  | StationOffline key _ => key
  | StationOnline _ key _ _ _ => key
  end.

Definition panel_cdip (p : Panel) : string :=
  match p with
  | StationOffline _ value => value
  | StationOnline _ _ value _ _ => value
  end.

Definition panel_status (p : Panel) : StationStatus :=
  match p with
  | StationOffline _ _ => Offline
  | StationOnline _ _ _ _ _ => Online
  end.

(** The coordinate a station contributes to [lats] or [lons]. *)
Definition coordinate (field : GpsFix -> Q) (answer : result RawDataset) : option Q :=
  match answer with
  | Ok ds => match isel_last (gps ds) with
             | Ok g => Some (field g)
             | Raise _ => None
             end
  | Raise _ => None
  end.

(** Every dataset the archive can deliver carries at least one GPS fix. *)
Definition every_dataset_has_fix (env : Env) : Prop :=
  forall k url ds, open_dataset env k url = Ok ds -> gps ds <> [].

(** The 10-day window [plot_buoy] cuts when its first clock reading is the
    [c]-th one, and the maximum it then takes. *)
Definition trend_window (env : Env) (c : nat) (ds : RawDataset) : RawDataset :=
  sel_waveTime ds (datetime_now env c - days 10) (datetime_now env (S c)).

Definition period_maximum (env : Env) (c : nat) (ds : RawDataset) : result Q :=
  match np_max (map waveHs (wave (trend_window env c ds))) with
  | Ok m => Ok (m / feet_per_metre_inv)%Q
  | Raise e => Raise e
  end.

Definition column_lengths_agree (df : DataFrame) : Prop :=
  Forall (fun c => List.length (snd c) = List.length (index df)) (columns df).



Definition panel_station (p : Panel) : string * string :=
  (panel_key p, panel_cdip p).

(** The 1-day window of [plot_buoy], cut at its third and fourth readings. *)
Definition recent_window (env : Env) (c : nat) (ds : RawDataset) : RawDataset :=
  sel_waveTime ds (datetime_now env (S (S c)) - days 1) (datetime_now env (S (S (S c)))).

(** The line of a window: the instants of its samples against their
    heights divided by 0.3048. *)
Definition line_of (window : RawDataset) : WindowedSeries :=
  {| timestamps := map waveTime (wave window);
     values := map (fun s => waveHs s / feet_per_metre_inv)%Q (wave window) |}.

(** How a map coordinate classifies its station. *)
Definition coordinate_status (c : option Q) : StationStatus :=
  match c with
  | Some _ => Online
  | None => Offline
  end.

(** An indexer entry [o] written for target [x] by the walk that starts at
    source position [i] with label [cur] and later labels [old']: either
    nothing was matched, or [o] is the position of a source label that is
    met no later than [x], and [x] is met before the label that follows. *)
Definition reaches (before : Z -> Z -> bool) (step : Z) (i cur : Z)
    (old' : list Z) (x o : Z) : Prop :=
  o = -1 \/
  exists m : nat,
    (m <= List.length old')%nat /\
    o = i + step * Z.of_nat m /\
    (x = nth m (cur :: old') 0 \/ before (nth m (cur :: old') 0) x = true) /\
    (forall nx, nth_error old' m = Some nx -> before x nx = true).

(** The same for one run of the walk, which only ever writes [i]. *)
Definition run_entry (before : Z -> Z -> bool) (i cur next : Z) (x o : Z) : Prop :=
  o = -1 \/
  (o = i /\ (x = cur \/ before cur x = true) /\ before x next = true).

(** What [pad] may write for target [x]: nothing, or the position of a
    source label at or before [x] whose successor, if any, is after [x]. *)
Definition pad_entry (old : list Z) (x o : Z) : Prop :=
  o = -1 \/
  (0 <= o < Z.of_nat (List.length old) /\
   nth (Z.to_nat o) old 0 <= x /\
   forall nx, nth_error old (S (Z.to_nat o)) = Some nx -> x < nx).

(** What [backfill] may write for target [x]: nothing, or the position of a
    source label at or after [x] whose predecessor, if any, is before [x]. *)
Definition backfill_entry (old : list Z) (x o : Z) : Prop :=
  o = -1 \/
  (0 <= o < Z.of_nat (List.length old) /\
   x <= nth (Z.to_nat o) old 0 /\
   forall px, 0 < o -> nth_error old (Z.to_nat o - 1) = Some px -> px < x).

(** The nearer of the two proposals, a tie going to the later label. *)
Definition nearer (old : list Z) (x l r : Z) : Z :=
  if l =? -1 then r
  else if r =? -1 then l
  else if Z.abs (nth (Z.to_nat l) old 0 - x) <? Z.abs (nth (Z.to_nat r) old 0 - x)
       then l else r.

(** What the walk writes for a target [x] met after the targets [pre], when
    [x] lies in the gap of the label [cur] at position [i] and [f] fills of
    that label are already spent: [i] when [x] carries the label or the
    limit is not yet reached, -1 otherwise. *)
Definition fill_offer (before : Z -> Z -> bool) (lim : nat) (i cur : Z)
    (f : nat) (pre : list Z) (x : Z) : Z :=
  if (x =? cur) || (f + List.length (filter (before cur) pre) <? lim)%nat
  then i else -1.

(** The forward-fill candidate for an axis instant [x] that comes after the
    axis instants [pre]: the last source sample at or before [x], offered
    when [x] is the sample's own instant or fewer than [limit] earlier axis
    instants lie after the sample; -1 when that sample is withheld or there
    is no sample at or before [x]. *)
Definition forward_candidate (old pre : list Z) (limit : nat) (x l : Z) : Prop :=
  (l = -1 /\ forall t, In t old -> x < t) \/
  exists k t,
    nth_error old k = Some t /\ t <= x /\
    (forall nx, nth_error old (S k) = Some nx -> x < nx) /\
    l = if (x =? t) || (List.length (filter (fun y => (t <? y)%Z) pre) <? limit)%nat
        then Z.of_nat k else -1.

(** The backward-fill candidate for an axis instant [x] that comes before
    the axis instants [post]: the first source sample at or after [x],
    offered when [x] is the sample's own instant or fewer than [limit] later
    axis instants lie before the sample. *)
Definition backward_candidate (old post : list Z) (limit : nat) (x r : Z) : Prop :=
  (r = -1 /\ forall t, In t old -> t < x) \/
  exists k t,
    nth_error old k = Some t /\ x <= t /\
    (forall j px, k = S j -> nth_error old j = Some px -> px < x) /\
    r = if (x =? t) || (List.length (filter (fun y => (y <? t)%Z) post) <? limit)%nat
        then Z.of_nat k else -1.

(** A fill has not withheld its candidate: it offers one, or there is no
    source sample on its side of the instant. *)
Definition forward_open (old : list Z) (x l : Z) : Prop :=
  l <> -1 \/ forall t, In t old -> x < t.
Definition backward_open (old : list Z) (x r : Z) : Prop :=
  r <> -1 \/ forall t, In t old -> t < x.

(** The value an indexer entry selects from a station's wave heights. *)
Definition sample_at (ds : RawDataset) (o : Z) : option Q :=
  if o =? -1 then None
  else nth (Z.to_nat o)
         (map (fun s => Some (waveHs s * feet_per_metre)%Q) (wave ds)) None.

(** The spec's tolerance rule, read on the code's aligner: a position whose
    distance to every source timestamp exceeds the tolerance is missing. *)
Definition missing_beyond_tolerance : Prop :=
  forall ds key axis tolerance aligned j x col,
    0 <= tolerance ->
    reindex (waveHs_frame ds key) axis 3 = Ok aligned ->
    nth_error axis j = Some x ->
    (forall s, In s (wave ds) -> tolerance < Z.abs (waveTime s - x)) ->
    In col (columns aligned) ->
    nth_error (snd col) j = Some None.

(** The spec's length rule, read on the code's aligner: whatever the series
    and the axis, a frame comes back whose columns have the axis's length. *)
Definition align_always_keeps_axis_length : Prop :=
  forall ds key axis, exists aligned,
    reindex (waveHs_frame ds key) axis 3 = Ok aligned /\
    Forall (fun c => List.length (snd c) = List.length axis) (columns aligned).


(** The loop variables of [make_density_plots] describe a frame on the
    reference index whose columns all have the index's length. *)
Definition vars_ok (vars : option (DataFrame * list Z)) : Prop :=
  match vars with
  | None => True
  | Some (df, df_index) => index df = df_index /\ column_lengths_agree df
  end.

(** ** A two-station scenario *)

Definition roster_AB : buoy_lookup := [("A", "001"); ("B", "002")]%string.

Definition dataset_A : RawDataset :=
  {| wave := [mkWave 1000 (1 # 1); mkWave 2000 (2 # 1)];
     gps := [mkGps 900 (40 # 1) (-124 # 1); mkGps 1900 (41 # 1) (-125 # 1)] |}.

Definition dataset_B : RawDataset :=
  {| wave := [mkWave 1500 (3 # 1); mkWave 2500 (1 # 2)];
     gps := [mkGps 1800 (37 # 1) (-122 # 1)] |}.

Definition dataset_for (url : string) : RawDataset :=
  if String.eqb url (request_url "002") then dataset_B else dataset_A.

(** An archive on which every request succeeds except request number [k]. *)
Definition archive_failing_at (k : nat) : Env :=
  {| open_dataset := fun n url =>
       if (n =? k)%nat then Raise TimeoutError else Ok (dataset_for url);
     datetime_now := fun _ => 3000 |}.

(** An archive on which station B's file cannot be opened. *)
Definition archive_without_B : Env :=
  {| open_dataset := fun _ url =>
       if String.eqb url (request_url "002") then Raise OSError
       else Ok dataset_A;
     datetime_now := fun _ => 3000 |}.

(** An archive on which every request succeeds. *)
Definition archive_all_online : Env :=
  {| open_dataset := fun _ url => Ok (dataset_for url);
     datetime_now := fun _ => 3000 |}.

Definition fresh_world : World := {| requests := []; ticks := 0 |}.

(** ** Vocabulary of the further properties *)

(** Labels in walking order, each met strictly before all later ones. *)
Fixpoint walk_ordered (before : Z -> Z -> bool) (l : list Z) : Prop :=
  match l with
  | [] => True
  | a :: rest => Forall (fun b => before a b = true) rest /\ walk_ordered before rest
  end.

(** Targets in walking order, none met before an earlier one. *)
Fixpoint walk_monotone (before : Z -> Z -> bool) (l : list Z) : Prop :=
  match l with
  | [] => True
  | a :: rest => Forall (fun b => before b a = false) rest /\ walk_monotone before rest
  end.

(** An indexer entry [o] written for target [x] is exact: whenever [x] is
    the label at position [m] of the walk, [o] is that position's index. *)
Definition exact_entry (step start : Z) (labels : list Z) (x o : Z) : Prop :=
  forall m, nth_error labels m = Some x -> o = start + step * Z.of_nat m.

(** The same for an index in storage order. *)
Definition carries_own_label (old : list Z) (x o : Z) : Prop :=
  forall k, nth_error old k = Some x -> o = Z.of_nat k.


(** Every dataset the archive can deliver has strictly increasing wave
    times. *)
Definition every_dataset_time_ordered (env : Env) : Prop :=
  forall k url ds, open_dataset env k url = Ok ds ->
    is_unique (map waveTime (wave ds)) = true /\
    is_monotonic_increasing (map waveTime (wave ds)) = true.

(** The instants a [datetime64[ns]] can hold, in whole seconds. *)
Definition datetime64_min : Z := -9223372036.
Definition datetime64_max : Z := 9223372036.

(** Clock readings the script can set against the data: each of them, and
    the instant thirty days before it, is an instant of [datetime64[ns]]. *)
Definition clock_in_range (env : Env) : Prop :=
  forall c, datetime64_min + days 30 <= datetime_now env c <= datetime64_max.

(** The wave samples of a dataset later than a cutoff. *)
Definition samples_after (ds : RawDataset) (cutoff : Z) : list WaveSample :=
  filter (fun s => waveTime s >? cutoff) (wave ds).

(** A dataset opened but without a single GPS fix. *)
Definition lacks_gps_fix (answer : result RawDataset) : Prop :=
  exists ds, answer = Ok ds /\ gps ds = [].

(** The archive fails every request. *)
Definition archive_down (env : Env) : Prop :=
  forall k url, exists e, open_dataset env k url = Raise e.

(** The placeholder panel of a roster entry. *)
Definition placeholder (item : string * string) : Panel :=
  StationOffline (fst item) (snd item).

(** ** The drawing half of make_buoy_map *)

(** [coords.query("station_names == @key")]: the rows of the coordinate
    table whose name is [key], as (latitude, longitude). *)
Fixpoint coords_query (station_name : list string) (lats lons : list (option Q))
    (key : string) : list (option Q * option Q) :=
  match station_name, lats, lons with
  | name :: names', lat :: lats', lon :: lons' =>
      if String.eqb name key
      then (lat, lon) :: coords_query names' lats' lons' key
      else coords_query names' lats' lons' key
  | _, _, _ => []
  end.

(** One [ax.scatter] call: the points drawn and the index given to [cmap]. *)
Record Scatter : Type :=
  mkScatter { scatter_points : list (option Q * option Q); scatter_cmap : nat }.

(** The loop over [enumerate(buoy_lookup.items())] of [make_buoy_map]. *)
Fixpoint make_buoy_map_loop (coords : Locations) (i : nat) (items : buoy_lookup)
  : list Scatter :=
  match items with
  | [] => []
  | (key, _) :: items' =>
      let '(station_name, lats, lons) := coords in
      let station := coords_query station_name lats lons key in
      {| scatter_points := station; scatter_cmap := i |}
        :: make_buoy_map_loop coords (S i) items'
  end.

(** [make_buoy_map] down to its scatter calls. *)
Definition make_buoy_map_scatter (env : Env) (buoy_lookup : buoy_lookup)
  : Py (list Scatter) :=
  coords <- get_station_locations env buoy_lookup ;;
  ret (make_buoy_map_loop coords 0%nat buoy_lookup).

(** The colour index a panel's station label is drawn with, if it is drawn
    with one of the colour map. *)
Definition panel_cmap (p : Panel) : option nat :=
  match p with
  | StationOffline _ _ => None
  | StationOnline i _ _ _ _ => Some i
  end.

(** ** format_axis and the decoration of one panel *)

Inductive Colour : Type := Hex (code : string) | Dark2 (i : nat).

(** One [ax.text] call. *)
Record Text : Type :=
  mkText { text_x : Q; text_y : Q; text_s : string; text_size : Z;
           text_color : Colour; text_bold : bool; text_alpha : option Q;
           text_ha : string }.

(** What the script sets on a matplotlib axes; [None] is matplotlib's
    default. *)
Record AxesState : Type :=
  mkAxes { spine_top : bool; spine_bottom : bool; spine_left : bool;
           spine_right : bool;
           xtick_width : option Z; ytick_width : option Z;
           ytick_length : option Z;
           xtick_labelsize : option Z; ytick_labelsize : option Z;
           xtick_colors : option string; ytick_colors : option string;
           yticks : option (list Z);
           ylim : option (Z * Z);
           texts : list Text;
           lines : Axes }.

(** A new axes ([plt.subplots], [twinx]). *)
Definition new_axes : AxesState :=
  {| spine_top := true; spine_bottom := true; spine_left := true;
     spine_right := true;
     xtick_width := None; ytick_width := None; ytick_length := None;
     xtick_labelsize := None; ytick_labelsize := None;
     xtick_colors := None; ytick_colors := None;
     yticks := None; ylim := None; texts := []; lines := [] |}.

Definition format_axis (ax : AxesState) (right : bool) : AxesState :=
  let ax :=
    {| spine_top := false; spine_bottom := false; spine_left := false;
       spine_right := spine_right ax;
       xtick_width := Some 0; ytick_width := Some 0;
       ytick_length := ytick_length ax;
       xtick_labelsize := Some 16; ytick_labelsize := Some 16;
       xtick_colors := Some "#2F5596"%string;
       ytick_colors := Some "#2F5596"%string;
       yticks := yticks ax; ylim := ylim ax; texts := texts ax;
       lines := lines ax |} in
  if right
  then {| spine_top := spine_top ax; spine_bottom := spine_bottom ax;
          spine_left := spine_left ax; spine_right := false;
          xtick_width := xtick_width ax; ytick_width := Some 3;
          ytick_length := Some 7;
          xtick_labelsize := xtick_labelsize ax;
          ytick_labelsize := ytick_labelsize ax;
          xtick_colors := xtick_colors ax;
          ytick_colors := Some "#2F5596"%string;
          yticks := Some [5; 10; 15]; ylim := ylim ax; texts := texts ax;
          lines := lines ax |}
  else {| spine_top := spine_top ax; spine_bottom := spine_bottom ax;
          spine_left := spine_left ax; spine_right := false;
          xtick_width := xtick_width ax; ytick_width := ytick_width ax;
          ytick_length := ytick_length ax;
          xtick_labelsize := xtick_labelsize ax;
          ytick_labelsize := ytick_labelsize ax;
          xtick_colors := xtick_colors ax; ytick_colors := ytick_colors ax;
          yticks := Some []; ylim := ylim ax; texts := texts ax;
          lines := lines ax |}.

Definition ax_text (ax : AxesState) (t : Text) : AxesState :=
  {| spine_top := spine_top ax; spine_bottom := spine_bottom ax;
     spine_left := spine_left ax; spine_right := spine_right ax;
     xtick_width := xtick_width ax; ytick_width := ytick_width ax;
     ytick_length := ytick_length ax;
     xtick_labelsize := xtick_labelsize ax; ytick_labelsize := ytick_labelsize ax;
     xtick_colors := xtick_colors ax; ytick_colors := ytick_colors ax;
     yticks := yticks ax; ylim := ylim ax; texts := texts ax ++ [t];
     lines := lines ax |}.

Definition set_yticks (ax : AxesState) (ticks : list Z) : AxesState :=
  {| spine_top := spine_top ax; spine_bottom := spine_bottom ax;
     spine_left := spine_left ax; spine_right := spine_right ax;
     xtick_width := xtick_width ax; ytick_width := ytick_width ax;
     ytick_length := ytick_length ax;
     xtick_labelsize := xtick_labelsize ax; ytick_labelsize := ytick_labelsize ax;
     xtick_colors := xtick_colors ax; ytick_colors := ytick_colors ax;
     yticks := Some ticks; ylim := ylim ax; texts := texts ax;
     lines := lines ax |}.

Definition set_ylim (ax : AxesState) (lo hi : Z) : AxesState :=
  {| spine_top := spine_top ax; spine_bottom := spine_bottom ax;
     spine_left := spine_left ax; spine_right := spine_right ax;
     xtick_width := xtick_width ax; ytick_width := ytick_width ax;
     ytick_length := ytick_length ax;
     xtick_labelsize := xtick_labelsize ax; ytick_labelsize := ytick_labelsize ax;
     xtick_colors := xtick_colors ax; ytick_colors := ytick_colors ax;
     yticks := yticks ax; ylim := Some (lo, hi); texts := texts ax;
     lines := lines ax |}.

Definition with_lines (ax : AxesState) (drawn : Axes) : AxesState :=
  {| spine_top := spine_top ax; spine_bottom := spine_bottom ax;
     spine_left := spine_left ax; spine_right := spine_right ax;
     xtick_width := xtick_width ax; ytick_width := ytick_width ax;
     ytick_length := ytick_length ax;
     xtick_labelsize := xtick_labelsize ax; ytick_labelsize := ytick_labelsize ax;
     xtick_colors := xtick_colors ax; ytick_colors := ytick_colors ax;
     yticks := yticks ax; ylim := ylim ax; texts := texts ax;
     lines := drawn |}.

Definition name_label (key : string) (c : Colour) : Text :=
  {| text_x := 3 # 100; text_y := 4 # 10; text_s := key; text_size := 16;
     text_color := c; text_bold := true; text_alpha := None;
     text_ha := "right" |}.

Definition cdip_label (value : string) : Text :=
  {| text_x := 3 # 100; text_y := 2 # 10; text_s := ("cdip " ++ value)%string;
     text_size := 12; text_color := Hex "#203864"; text_bold := false;
     text_alpha := None; text_ha := "right" |}.

Definition offline_label : Text :=
  {| text_x := 5 # 10; text_y := 2 # 10; text_s := "Station Offline";
     text_size := 25; text_color := Hex "#203864"; text_bold := false;
     text_alpha := Some (5 # 10); text_ha := "center" |}.

(** The body of the loop of [make_timeseries_plots] on the axes: [host] is
    [ax[i]], [drawn] the lines of [plot_buoy] or [None] when the station is
    offline; the result is [(ax_current, ax[i])]. *)
Definition draw_panel (i : nat) (key value : string) (host : AxesState)
    (drawn : option Axes) : AxesState * AxesState :=
  let '(ax_current, host) :=
    match drawn with
    | None =>
        let ax_current := new_axes in
        let ax_current := ax_text ax_current (name_label key (Hex "#2F5596")) in
        let ax_current := ax_text ax_current (cdip_label value) in
        let ax_current := ax_text ax_current offline_label in
        let ax_current := format_axis ax_current true in
        let host := format_axis host false in
        let ax_current := set_yticks ax_current [] in
        (ax_current, host)
    | Some drawn =>
        let ax_current := new_axes in
        let ax_current := with_lines ax_current drawn in
        let ax_current := set_ylim ax_current 0 20 in
        let ax_current := ax_text ax_current (name_label key (Dark2 i)) in
        (ax_current, host)
    end in
  let ax_current := ax_text ax_current (cdip_label value) in
  let ax_current := format_axis ax_current true in
  let host := format_axis host false in
  (ax_current, host).

(** * Verification *)

(** ** The fetcher *)

Arguments request_url : simpl never.

Lemma bind_get_buoy_data {B} (env : Env) (buoy_id : string)
    (k : option RawDataset -> Py B) (w : World) :
  bind (get_buoy_data env buoy_id) k w =
  k (fetched (open_dataset env (List.length (requests w)) (request_url buoy_id)))
    {| requests := requests w ++ [request_url buoy_id]; ticks := ticks w |}.
Proof.
  unfold bind, get_buoy_data, try_except, xr_open_dataset, ret, fetched; cbn.
  destruct (open_dataset env (List.length (requests w)) (request_url buoy_id));
    reflexivity.
Qed.

Lemma length_snoc {A} (l : list A) (x : A) :
  List.length (l ++ [x]) = S (List.length l).
Proof. rewrite length_app; cbn; lia. Qed.

Lemma app_snoc_assoc {A} (l : list A) (x : A) (r : list A) :
  (l ++ [x]) ++ r = l ++ x :: r.
Proof. rewrite <- app_assoc; reflexivity. Qed.

Lemma answers_length (env : Env) (items : buoy_lookup) :
  forall n, List.length (answers env n items) = List.length items.
Proof.
  induction items as [|[key value] items IH]; intro n; cbn; [reflexivity|].
  now rewrite IH.
Qed.

Lemma answers_nth (env : Env) (items : buoy_lookup) :
  forall n i key value,
    nth_error items i = Some (key, value) ->
    nth_error (answers env n items) i =
    Some (open_dataset env (n + i) (request_url value)).
Proof.
  induction items as [|[k v] items IH]; intros n i key value H.
  - destruct i; discriminate.
  - destruct i as [|i]; cbn in *.
    + injection H as -> ->. now rewrite Nat.add_0_r.
    + rewrite (IH (S n) i key value H). f_equal. f_equal. lia.
Qed.

(** C9: one call of [get_buoy_data] never raises, sends exactly one request
    (the url built from the station id is appended to the request log and
    nothing else changes), and hands back the dataset when the archive
    answers with one and the single value [None] whatever the failure was. *)
Theorem get_buoy_data_one_request (env : Env) (buoy_id : string) (w : World) :
  get_buoy_data env buoy_id w =
  (Ok (fetched (open_dataset env (List.length (requests w)) (request_url buoy_id))),
   {| requests := requests w ++ [request_url buoy_id]; ticks := ticks w |}).
Proof.
  unfold get_buoy_data, try_except, bind, xr_open_dataset, ret, fetched; cbn.
  destruct (open_dataset env (List.length (requests w)) (request_url buoy_id));
    reflexivity.
Qed.

(** ** Station positions *)

Lemma isel_last_snoc (fixes : list GpsFix) (g : GpsFix) :
  isel_last (fixes ++ [g]) = Ok g.
Proof.
  induction fixes as [|a fixes IH]; [reflexivity|].
  cbn [app isel_last]. rewrite IH.
  destruct (fixes ++ [g]) eqn:E; [|reflexivity].
  destruct fixes; discriminate.
Qed.

Lemma isel_last_some (fixes : list GpsFix) :
  fixes <> [] ->
  exists earlier g, fixes = earlier ++ [g] /\ isel_last fixes = Ok g.
Proof.
  intro H. destruct (exists_last H) as [earlier [g ->]].
  exists earlier, g. split; [reflexivity | apply isel_last_snoc].
Qed.

Lemma monotonic_tail (x : Z) (l : list Z) :
  is_monotonic_increasing (x :: l) = true -> is_monotonic_increasing l = true.
Proof.
  cbn. destruct l; [reflexivity|].
  intro H. apply andb_true_iff in H. apply H.
Qed.

Lemma monotonic_last_is_max (l : list Z) (z : Z) :
  is_monotonic_increasing (l ++ [z]) = true ->
  forall y, In y (l ++ [z]) -> y <= z.
Proof.
  induction l as [|a l IH]; intros H y Hy.
  - destruct Hy as [<-|[]]. lia.
  - assert (Ht : is_monotonic_increasing (l ++ [z]) = true)
      by (apply (monotonic_tail a); exact H).
    destruct Hy as [<-|Hy]; [|now apply IH].
    cbn [app is_monotonic_increasing] in H.
    destruct (l ++ [z]) as [|b r] eqn:E; [destruct l; discriminate|].
    apply andb_true_iff in H. destruct H as [Hab _].
    apply Z.leb_le in Hab.
    specialize (IH Ht b (or_introl eq_refl)). lia.
Qed.

Lemma get_station_locations_loop_total (env : Env) (Hfix : every_dataset_has_fix env)
    (items : buoy_lookup) :
  forall station_name lats lons w,
    get_station_locations_loop env items station_name lats lons w =
    (Ok (station_name ++ map fst items,
         lats ++ map (coordinate gpsLatitude) (answers env (List.length (requests w)) items),
         lons ++ map (coordinate gpsLongitude) (answers env (List.length (requests w)) items)),
     {| requests := requests w ++ roster_urls items; ticks := ticks w |}).
Proof.
  induction items as [|[key value] items IH]; intros names lats lons w.
  - cbn. unfold ret. rewrite !app_nil_r. destruct w; reflexivity.
  - cbn [get_station_locations_loop]. rewrite bind_get_buoy_data.
    cbn [answers map roster_urls snd fst].
    destruct (open_dataset env (List.length (requests w)) (request_url value))
      as [ds|e] eqn:E; cbn [fetched].
    + destruct (isel_last_some (gps ds) (Hfix _ _ _ E)) as [earlier [g [_ Hg]]].
      unfold bind at 1, lift. rewrite Hg. unfold bind at 1.
      rewrite IH. cbn [requests ticks coordinate]. rewrite Hg, length_snoc.
      rewrite !app_snoc_assoc. reflexivity.
    + rewrite IH. cbn [requests ticks coordinate]. rewrite length_snoc.
      rewrite !app_snoc_assoc. reflexivity.
Qed.

(** C8: when every dataset of the archive has a GPS fix,
    [get_station_locations] returns, and for every roster entry the name at
    its position is the entry's, the coordinates are both missing when the
    entry's fetch failed, and otherwise they are the latitude and longitude
    of the last row of the dataset's GPS axis, which is the most recent fix
    whenever that axis is in time order. *)
Theorem station_position_from_last_fix (env : Env) (buoy_lookup : buoy_lookup)
    (w : World) (Hfix : every_dataset_has_fix env) :
  exists station_name lats lons w',
    get_station_locations env buoy_lookup w = (Ok (station_name, lats, lons), w') /\
    forall i key value,
      nth_error buoy_lookup i = Some (key, value) ->
      nth_error station_name i = Some key /\
      match open_dataset env (List.length (requests w) + i) (request_url value) with
      | Raise _ =>
          nth_error lats i = Some None /\ nth_error lons i = Some None
      | Ok ds =>
          exists earlier g,
            gps ds = earlier ++ [g] /\
            nth_error lats i = Some (Some (gpsLatitude g)) /\
            nth_error lons i = Some (Some (gpsLongitude g)) /\
            (is_monotonic_increasing (map gpsTime (gps ds)) = true ->
             forall g', In g' (gps ds) -> gpsTime g' <= gpsTime g)
      end.
Proof.
  unfold get_station_locations.
  rewrite (get_station_locations_loop_total env Hfix). cbn [app].
  do 4 eexists. split; [reflexivity|].
  intros i key value Hi. split.
  - rewrite nth_error_map, Hi. reflexivity.
  - rewrite !nth_error_map, (answers_nth env _ _ _ _ _ Hi). cbn [option_map].
    destruct (open_dataset env (List.length (requests w) + i) (request_url value))
      as [ds|e] eqn:E; cbn [coordinate]; [|split; reflexivity].
    destruct (isel_last_some (gps ds) (Hfix _ _ _ E)) as [earlier [g [Hsplit Hg]]].
    exists earlier, g. rewrite Hg. repeat split; try assumption.
    intros Hmono g' Hin.
    apply (in_map gpsTime) in Hin.
    rewrite Hsplit, map_app in Hmono, Hin.
    exact (monotonic_last_is_max _ _ Hmono _ Hin).
Qed.

(** ** plot_buoy and the time-series panels *)

Lemma plot_buoy_requests (env : Env) (ds : RawDataset) (ax : Axes) (v : PyVal)
    (w : World) :
  requests (snd (plot_buoy env ds ax v w)) = requests w.
Proof.
  unfold plot_buoy, bind, now, lift, ret. cbn.
  destruct (truthy v); cbn.
  - destruct (np_max _); cbn; [|reflexivity].
    destruct (negb _); reflexivity.
  - destruct (truthy v); reflexivity.
Qed.

Lemma line_of_drawn (window : RawDataset) (ax : Axes) (time_pst : TimeSeries) :
  series_values time_pst = map waveTime (wave window) ->
  ax_plot ax time_pst
    (map (fun v => v / feet_per_metre_inv)%Q (map waveHs (wave window))) =
  ax ++ [line_of window].
Proof.
  intro H. unfold ax_plot, line_of. now rewrite H, map_map.
Qed.

Lemma plot_buoy_run (env : Env) (ds : RawDataset) (ax : Axes) (w : World) :
  plot_buoy env ds ax (PyBool true) w =
  match period_maximum env (ticks w) ds with
  | Raise e =>
      (Raise e, {| requests := requests w; ticks := S (S (ticks w)) |})
  | Ok m =>
      let ax' := (ax ++ [line_of (trend_window env (ticks w) ds)])
                 ++ [line_of (recent_window env (ticks w) ds)] in
      (Ok (if Qeq_bool m 0
           then Ret2 ax' (recent_window env (ticks w) ds)
           else Ret3 ax' (recent_window env (ticks w) ds) (PyFloat m)),
       {| requests := requests w; ticks := S (S (S (S (ticks w)))) |})
  end.
Proof.
  unfold plot_buoy, period_maximum, trend_window, recent_window,
    bind, now, lift, ret.
  cbn [truthy requests ticks tz_localize tz_convert to_pandas_waveTime index_tz].
  destruct (np_max _) as [m|e]; [|reflexivity].
  cbn [truthy]. destruct (Qeq_bool _ 0); cbn [negb];
    rewrite !line_of_drawn by reflexivity; reflexivity.
Qed.

Lemma filter_none {A} (f : A -> bool) (l : list A) :
  (forall x, In x l -> f x = false) -> filter f l = [].
Proof.
  induction l as [|a l IH]; intro H; [reflexivity|].
  cbn. rewrite (H a (or_introl eq_refl)). apply IH.
  intros x Hx. apply H. now right.
Qed.

(** C3: when no wave sample of the dataset lies in the 10-day interval cut
    by the clock readings, the selection is empty (no exception), and
    [plot_buoy] called with [max_hs=True], as the time-series builder calls
    it, then raises ValueError from the maximum of the empty array instead
    of reporting that there is no maximum. *)
Theorem plot_buoy_empty_window_raises (env : Env) (ds : RawDataset) (ax : Axes)
    (w : World)
    (Hout : forall s, In s (wave ds) ->
              waveTime s < datetime_now env (ticks w) - days 10 \/
              datetime_now env (S (ticks w)) < waveTime s) :
  wave (trend_window env (ticks w) ds) = [] /\
  plot_buoy env ds ax (PyBool true) w =
  (Raise ValueError, {| requests := requests w; ticks := S (S (ticks w)) |}).
Proof.
  assert (Hempty : wave (trend_window env (ticks w) ds) = []).
  { unfold trend_window, sel_waveTime. cbn [wave].
    apply filter_none. intros s Hs.
    apply andb_false_iff. destruct (Hout s Hs) as [H|H]; [left|right];
      apply Z.leb_gt; exact H. }
  split; [exact Hempty|].
  rewrite plot_buoy_run. unfold period_maximum. rewrite Hempty. reflexivity.
Qed.

Lemma plot_buoy_empty_window_raises_witness :
  let env := {| open_dataset := fun _ _ => Raise OSError;
                datetime_now := fun _ => 2000000 |} in
  let ds := {| wave := [mkWave (2000000 - days 15) (2 # 1);
                        mkWave (2000000 - days 12) (3 # 1)];
               gps := [] |} in
  let w := {| requests := []; ticks := 0 |} in
  wave (trend_window env (ticks w) ds) = [] /\
  plot_buoy env ds [] (PyBool true) w =
  (Raise ValueError, {| requests := []; ticks := 2 |}).
Proof.
  intros env ds w.
  apply (plot_buoy_empty_window_raises env ds [] w).
  intros s [<-|[<-|[]]]; left; vm_compute; reflexivity.
Defined.

Lemma make_timeseries_plots_loop_ok (env : Env) (axs : Subplots)
    (items : buoy_lookup) :
  forall i ax w panels w',
    make_timeseries_plots_loop env axs i items ax w = (Ok panels, w') ->
    requests w' = requests w ++ roster_urls items /\
    exists drawn,
      panels = ax ++ drawn /\
      map panel_station drawn = items /\
      map panel_status drawn =
      map status_of (answers env (List.length (requests w)) items).
Proof.
  induction items as [|[key value] items IH]; intros i ax w panels w' H.
  - cbn in H. injection H as <- <-. split; [now rewrite app_nil_r|].
    exists []. now rewrite app_nil_r.
  - cbn [make_timeseries_plots_loop] in H. rewrite bind_get_buoy_data in H.
    unfold bind at 1, lift in H.
    destruct (subscript axs i) as [[]|e0]; [|discriminate].
    cbn [answers map roster_urls snd].
    destruct (open_dataset env (List.length (requests w)) (request_url value))
      as [ds|e]; cbn [fetched] in H.
    + unfold bind at 1 in H.
      pose proof (plot_buoy_requests env ds [] (PyBool true)
                    {| requests := requests w ++ [request_url value];
                       ticks := ticks w |}) as Hreq.
      destruct (plot_buoy env ds [] (PyBool true) _) as [[r|e] w1];
        [|discriminate].
      cbn [snd requests] in Hreq.
      destruct r as [? ?|ax_current lm max_hs]; [discriminate|].
      apply IH in H. destruct H as [Hw [drawn [-> [Hst Hs]]]].
      rewrite Hreq, length_snoc in *. split.
      * rewrite Hw. apply app_snoc_assoc.
      * exists (StationOnline i key value ax_current max_hs :: drawn).
        rewrite app_snoc_assoc. cbn [map panel_station panel_key panel_cdip
          panel_status status_of]. rewrite Hst, Hs. auto.
    + apply IH in H. destruct H as [Hw [drawn [-> [Hst Hs]]]].
      cbn [requests] in *. rewrite length_snoc in Hs. split.
      * rewrite Hw. apply app_snoc_assoc.
      * exists (StationOffline key value :: drawn).
        rewrite app_snoc_assoc. cbn [map panel_station panel_key panel_cdip
          panel_status status_of]. rewrite Hst, Hs. auto.
Qed.

(** A one-station roster gets a single Axes from [plt.subplots], and the
    loop's [ax[i]] raises right after the station's fetch. *)
Lemma make_timeseries_plots_one_station (env : Env) (key value : string)
    (w : World) :
  make_timeseries_plots env [(key, value)] w =
  (Raise TypeError,
   {| requests := requests w ++ [request_url value]; ticks := ticks w |}).
Proof.
  unfold make_timeseries_plots. unfold bind at 1, lift.
  cbn [List.length plt_subplots make_timeseries_plots_loop].
  rewrite bind_get_buoy_data. reflexivity.
Qed.

(** A run of the time-series builder that returns had at least two stations
    to draw, and its loop ran on an array of that many Axes. *)
Lemma make_timeseries_plots_ok (env : Env) (buoy_lookup : buoy_lookup)
    (w : World) (panels : list Panel) (w' : World) :
  make_timeseries_plots env buoy_lookup w = (Ok panels, w') ->
  (2 <= List.length buoy_lookup)%nat /\
  make_timeseries_plots_loop env (AxesArray (List.length buoy_lookup)) 0%nat
    buoy_lookup [] w = (Ok panels, w').
Proof.
  destruct buoy_lookup as [|[key value] [|item rest]].
  - discriminate.
  - rewrite make_timeseries_plots_one_station. discriminate.
  - intro H. split; [cbn; lia | exact H].
Qed.

(** C7: the time-series builder does not cover every roster.  For the
    empty roster [plt.subplots(0)] raises ValueError before anything is
    fetched; for a roster of one station [plt.subplots(1)] hands back a
    single Axes, so [ax[i]] raises TypeError right after the station's
    fetch, whatever the archive answered; and for a longer roster whose
    first station is fetched, with wave times in order, but has no sample
    in the 10-day window, the maximum of the empty window raises ValueError
    after that one request.  In each case the builder stops without a panel or a status for any
    roster entry, where the spec has every entry covered. *)
Theorem panels_abort_instead_of_covering :
  (forall env w,
     make_timeseries_plots env [] w = (Raise ValueError, w)) /\
  (forall env key value w,
     make_timeseries_plots env [(key, value)] w =
     (Raise TypeError,
      {| requests := requests w ++ [request_url value]; ticks := ticks w |})) /\
  (forall env key value rest w ds,
     rest <> [] ->
     clock_in_range env ->
     open_dataset env (List.length (requests w)) (request_url value) = Ok ds ->
     is_monotonic_increasing (map waveTime (wave ds)) = true ->
     wave (trend_window env (ticks w) ds) = [] ->
     make_timeseries_plots env ((key, value) :: rest) w =
     (Raise ValueError,
      {| requests := requests w ++ [request_url value];
         ticks := S (S (ticks w)) |})).
Proof.
  split; [reflexivity|]. split; [apply make_timeseries_plots_one_station|].
  intros env key value rest w ds Hrest _ Hfirst _ Hempty.
  destruct rest as [|item rest]; [contradiction|].
  unfold make_timeseries_plots. unfold bind at 1, lift.
  cbn [List.length plt_subplots make_timeseries_plots_loop].
  rewrite bind_get_buoy_data, Hfirst. cbn [fetched].
  unfold bind at 1, lift. cbn [subscript Nat.ltb Nat.leb].
  unfold bind at 1. rewrite plot_buoy_run. cbn [ticks requests].
  unfold period_maximum. rewrite Hempty. reflexivity.
Qed.

Lemma panels_abort_instead_of_covering_witness :
  let stale := {| wave := [mkWave (2000000 - days 15) (2 # 1);
                           mkWave (2000000 - days 12) (3 # 1)];
                  gps := [mkGps 0 (40 # 1) (-124 # 1)] |} in
  let env := {| open_dataset := fun _ _ => Ok stale;
                datetime_now := fun _ => 2000000 |} in
  make_timeseries_plots env [("A", "001")]%string fresh_world =
  (Raise TypeError, {| requests := [request_url "001"]; ticks := 0 |}) /\
  make_timeseries_plots env roster_AB fresh_world =
  (Raise ValueError, {| requests := [request_url "001"]; ticks := 2 |}).
Proof.
  intros stale env.
  destruct panels_abort_instead_of_covering as [_ [Hone Hstale]].
  split.
  - exact (Hone env "A"%string "001"%string fresh_world).
  - apply (Hstale env "A"%string "001"%string [("B", "002")%string]
             fresh_world stale).
    + discriminate.
    + intro c. cbn. unfold datetime64_min, datetime64_max, days. lia.
    + reflexivity.
    + reflexivity.
    + vm_compute. reflexivity.
Defined.

(** ** The fill walk: what an entry of the indexer means *)

Lemma Forall2_repeat_minus_one (R : Z -> Z -> Prop) (new : list Z) :
  (forall x, R x (-1)) -> Forall2 R new (repeat (-1) (List.length new)).
Proof.
  intro H. induction new; cbn; constructor; auto.
Qed.




Section FillFacts.
Variable before : Z -> Z -> bool.
Variable step : Z.
Variable lim : nat.
Hypothesis step_nonzero : step <> 0.

Lemma fill_skip_spec (cur : Z) (new : list Z) :
  forall out rest,
    fill_skip before cur new = (out, rest) ->
    exists skipped,
      new = skipped ++ rest /\ out = repeat (-1) (List.length skipped).
Proof.
  induction new as [|x new IH]; intros out rest H; cbn [fill_skip] in H.
  - injection H as <- <-. now exists [].
  - destruct (before x cur).
    + destruct (fill_skip before cur new) as [o r] eqn:E.
      injection H as <- <-.
      destruct (IH _ _ eq_refl) as [skipped [-> ->]].
      now exists (x :: skipped).
    + injection H as <- <-. now exists [].
Qed.

Lemma fill_last_sound (i cur : Z) (new : list Z) :
  forall f, Forall2 (reaches before step i cur []) new
              (fill_last before lim i cur f new).
Proof.
  induction new as [|x new IH]; intro f; cbn [fill_last]; [constructor|].
  assert (Hhit : (x = cur \/ before cur x = true) ->
                 reaches before step i cur [] x i).
  { intro H. right. exists 0%nat. cbn. repeat split; try lia; try assumption.
    intros nx Hnx. discriminate. }
  destruct (Z.eqb_spec x cur) as [Heq|Hne].
  - constructor; [apply Hhit; now left | apply IH].
  - destruct (before cur x) eqn:Hb; cbn [andb].
    + destruct (f <? lim)%nat.
      * constructor; [apply Hhit; right; reflexivity | apply IH].
      * constructor; [now left | apply IH].
    + constructor; [now left | apply IH].
Qed.

Lemma fill_run_spec (i cur next : Z) (new : list Z) :
  forall f out rest,
    fill_run before lim i cur next f new = (out, rest) ->
    exists consumed,
      new = consumed ++ rest /\
      Forall2 (run_entry before i cur next) consumed out.
Proof.
  induction new as [|x new IH]; intros f out rest H; cbn [fill_run] in H.
  - injection H as <- <-. exists []. split; [reflexivity | constructor].
  - destruct (((x =? cur) || before cur x) && before x next) eqn:Hc.
    + apply andb_true_iff in Hc. destruct Hc as [Hc Hn].
      assert (Hhit : run_entry before i cur next x i).
      { right. split; [reflexivity|]. split; [|exact Hn].
        apply orb_true_iff in Hc. destruct Hc as [Hc|Hc];
          [left; now apply Z.eqb_eq | now right]. }
      destruct (x =? cur).
      * destruct (fill_run before lim i cur next f new) as [o r] eqn:E.
        injection H as <- <-.
        destruct (IH _ _ _ E) as [consumed [-> HF]].
        exists (x :: consumed). split; [reflexivity | now constructor].
      * destruct (f <? lim)%nat.
        -- destruct (fill_run before lim i cur next (S f) new) as [o r] eqn:E.
           injection H as <- <-.
           destruct (IH _ _ _ E) as [consumed [-> HF]].
           exists (x :: consumed). split; [reflexivity | now constructor].
        -- destruct (fill_run before lim i cur next f new) as [o r] eqn:E.
           injection H as <- <-.
           destruct (IH _ _ _ E) as [consumed [-> HF]].
           exists (x :: consumed). split; [reflexivity|].
           constructor; [now left | exact HF].
    + injection H as <- <-. exists []. split; [reflexivity | constructor].
Qed.

Lemma reaches_first (i cur next : Z) (old'' : list Z) (x o : Z) :
  run_entry before i cur next x o ->
  reaches before step i cur (next :: old'') x o.
Proof.
  intros [->|[-> [Hc Hn]]]; [now left|].
  right. exists 0%nat. cbn. repeat split; try lia; try assumption.
  intros nx Hnx. now injection Hnx as <-.
Qed.

Lemma reaches_later (i cur next : Z) (old'' : list Z) (x o : Z) :
  reaches before step (i + step) next old'' x o ->
  reaches before step i cur (next :: old'') x o.
Proof.
  intros [->|[m [Hm [-> [Hc Hn]]]]]; [now left|].
  right. exists (S m). cbn [List.length nth nth_error].
  repeat split; try lia; try assumption.
Qed.

Lemma fill_walk_sound (old' : list Z) :
  forall i cur new,
    Forall2 (reaches before step i cur old') new
      (fill_walk before step lim i cur old' new).
Proof.
  induction old' as [|next old'' IH]; intros i cur new.
  - destruct new; cbn [fill_walk]; [constructor | apply fill_last_sound].
  - destruct new as [|x new]; cbn [fill_walk]; [constructor|].
    destruct (fill_run before lim i cur next 0 (x :: new)) as [out rest] eqn:E.
    destruct (fill_run_spec _ _ _ _ _ _ _ E) as [consumed [-> HF]].
    apply Forall2_app.
    + eapply Forall2_impl; [|exact HF]. intros. now apply reaches_first.
    + eapply Forall2_impl; [|apply IH]. intros. now apply reaches_later.
Qed.

(** *** How often the walk reuses one source label *)




Lemma fill_indexer_sound (start : Z) (old new : list Z) :
  Forall2 (fun x o => o = -1 \/
                      exists cur old', old = cur :: old' /\
                                       reaches before step start cur old' x o)
    new (fill_indexer before step lim start old new).
Proof.
  unfold fill_indexer. destruct old as [|cur old'].
  - apply Forall2_repeat_minus_one. now left.
  - destruct new as [|x new]; [constructor|].
    destruct (before (last (x :: new) 0) cur).
    + apply Forall2_repeat_minus_one. now left.
    + destruct (fill_skip before cur (x :: new)) as [out rest] eqn:E.
      destruct (fill_skip_spec _ _ _ _ E) as [skipped [-> ->]].
      apply Forall2_app.
      * apply Forall2_repeat_minus_one. now left.
      * eapply Forall2_impl; [|apply fill_walk_sound].
        intros a b H. right. now exists cur, old'.
Qed.

End FillFacts.

(** ** pad and backfill *)

Lemma Forall2_rev {A B} (R : A -> B -> Prop) (a : list A) (b : list B) :
  Forall2 R a b -> Forall2 R (rev a) (rev b).
Proof.
  induction 1 as [|x y a b Hxy _ IH]; [constructor|].
  cbn. apply Forall2_app; [exact IH | now repeat constructor].
Qed.


Lemma pad_sound (old new : list Z) (limit : nat) :
  Forall2 (pad_entry old) new (pad old new limit).
Proof.
  unfold pad. eapply Forall2_impl; [|apply fill_indexer_sound].
  intros x o [->|[cur [old' [-> [->|[m [Hm [-> [Hc Hn]]]]]]]]];
    [now left | now left |].
  right. cbn [List.length].
  replace (Z.to_nat (0 + 1 * Z.of_nat m)) with m by lia.
  split; [lia|]. split.
  - destruct Hc as [->|Hc]; [lia | apply Z.ltb_lt in Hc; lia].
  - intros nx Hnx. cbn [nth_error] in Hnx. apply Z.ltb_lt. now apply Hn.
Qed.

Lemma backfill_sound (old new : list Z) (limit : nat) :
  Forall2 (backfill_entry old) new (backfill old new limit).
Proof.
  unfold backfill. rewrite <- (rev_involutive new) at 1.
  apply Forall2_rev.
  eapply Forall2_impl; [|apply fill_indexer_sound].
  intros x o [->|[cur [old' [Hrev [->|[m [Hm [-> [Hc Hn]]]]]]]]];
    [now left | now left |].
  right.
  assert (Hlen : List.length old = S (List.length old'))
    by (rewrite <- (length_rev old), Hrev; reflexivity).
  assert (Hlabel : forall j, (j < List.length old)%nat ->
                    nth j (rev old) 0 = nth (List.length old - S j) old 0)
    by (intros j Hj; now apply rev_nth).
  rewrite <- Hrev in Hc. rewrite Hlabel in Hc by lia.
  replace (Z.to_nat (Z.of_nat (List.length old) - 1 + -1 * Z.of_nat m))
    with (List.length old - S m)%nat by lia.
  split; [lia|]. split.
  - destruct Hc as [->|Hc]; [lia | apply Z.gtb_lt in Hc; lia].
  - intros px Hpos Hpx.
    assert (Hnx : nth_error old' m = Some px).
    { change (nth_error old' m) with (nth_error (cur :: old') (S m)).
      rewrite <- Hrev, nth_error_rev.
      destruct (Nat.ltb_spec (S m) (List.length old)); [|lia].
      rewrite <- Hpx. f_equal. lia. }
    specialize (Hn _ Hnx). apply Z.gtb_lt in Hn. lia.
Qed.

Lemma pad_length (old new : list Z) (limit : nat) :
  List.length (pad old new limit) = List.length new.
Proof. symmetry. exact (Forall2_length (pad_sound old new limit)). Qed.

Lemma backfill_length (old new : list Z) (limit : nat) :
  List.length (backfill old new limit) = List.length new.
Proof. symmetry. exact (Forall2_length (backfill_sound old new limit)). Qed.



(** ** The nearest indexer *)

Lemma monotonic_nth_le (l : list Z) :
  is_monotonic_increasing l = true ->
  forall i j, (i <= j < List.length l)%nat -> nth i l 0 <= nth j l 0.
Proof.
  induction l as [|a l IH]; intros H i j Hij; [cbn in Hij; lia|].
  pose proof (monotonic_tail _ _ H) as Ht.
  assert (Hhead : forall n, (n < List.length l)%nat -> a <= nth n l 0).
  { intros n Hn. destruct l as [|b l]; [cbn in Hn; lia|].
    cbn [is_monotonic_increasing] in H. apply andb_true_iff in H.
    destruct H as [Hab _]. apply Z.leb_le in Hab.
    specialize (IH Ht 0%nat n ltac:(cbn [List.length] in *; lia)).
    change (nth 0 (b :: l) 0) with b in IH. lia. }
  destruct i as [|i], j as [|j]; cbn [nth]; cbn in Hij; try lia.
  - apply Hhead. lia.
  - apply IH; [exact Ht | lia].
Qed.

Lemma nearest_choice_nearer (old : list Z) (x l r : Z) :
  is_monotonic_increasing old = true ->
  pad_entry old x l -> backfill_entry old x r ->
  nearest_choice old x l r = nearer old x l r.
Proof.
  intros Hmono Hl Hr. unfold nearest_choice, nearer, py_getitem.
  destruct (Z.eqb_spec r (-1)) as [->|Hr1].
  - rewrite orb_true_r. destruct (Z.eqb_spec l (-1)); congruence.
  - rewrite orb_false_r.
    destruct Hr as [->|[Hr0 [Hrx _]]]; [congruence|].
    destruct (Z.ltb_spec r 0); [lia|].
    destruct (Z.eqb_spec l (-1)) as [->|Hl1].
    + cbn [Z.ltb Z.compare].
      replace (Z.to_nat (Z.of_nat (List.length old) + -1))
        with (List.length old - 1)%nat by lia.
      pose proof (monotonic_nth_le old Hmono (Z.to_nat r)
                    (List.length old - 1)%nat ltac:(lia)).
      destruct (Z.ltb_spec (Z.abs (nth (List.length old - 1) old 0 - x))
                  (Z.abs (nth (Z.to_nat r) old 0 - x))); [lia | reflexivity].
    + destruct Hl as [->|[Hl0 _]]; [congruence|].
      destruct (Z.ltb_spec l 0); [lia | reflexivity].
Qed.

Lemma nearest_choice_cases (old : list Z) (x l r : Z) :
  nearest_choice old x l r = l \/ nearest_choice old x l r = r.
Proof. unfold nearest_choice. destruct (_ || _); auto. Qed.



Lemma get_nearest_indexer_length (old new : list Z) (limit : nat) :
  List.length (get_nearest_indexer old new limit) = List.length new.
Proof.
  unfold get_nearest_indexer.
  pose proof (pad_length old new limit) as Hl.
  pose proof (backfill_length old new limit) as Hr.
  revert Hl Hr. generalize (pad old new limit) (backfill old new limit).
  induction new as [|x new IH]; intros [|l ls] [|r rs] Hl Hr; try discriminate;
    [reflexivity|].
  cbn in *. f_equal. apply IH; lia.
Qed.

Lemma get_indexer_length (old new indexer : list Z) (limit : nat) :
  get_indexer old new limit = Ok indexer ->
  List.length indexer = List.length new.
Proof.
  unfold get_indexer. destruct (negb (is_unique old)); [discriminate|].
  destruct new as [|x new].
  - intro H. now injection H as <-.
  - destruct old as [|a old].
    + intro H. injection H as <-. cbn. now rewrite repeat_length.
    + destruct (_ && _); [|discriminate].
      intro H. injection H as <-. apply get_nearest_indexer_length.
Qed.

(** ** reindex *)

Lemma index_equals_eq (a b : list Z) : index_equals a b = true <-> a = b.
Proof.
  revert b. induction a as [|x a IH]; intros [|y b]; cbn; split; intro H;
    try discriminate; try reflexivity.
  - apply andb_true_iff in H. destruct H as [Hxy H].
    apply Z.eqb_eq in Hxy. apply IH in H. now subst.
  - injection H as -> ->. rewrite Z.eqb_refl. now apply IH.
Qed.

Lemma reindex_waveHs_frame (ds : RawDataset) (key : string) (axis : list Z)
    (limit : nat) (aligned : DataFrame) :
  reindex (waveHs_frame ds key) axis limit = Ok aligned ->
  (map waveTime (wave ds) = axis /\ aligned = waveHs_frame ds key) \/
  (map waveTime (wave ds) <> axis /\
   exists indexer,
     get_indexer (map waveTime (wave ds)) axis limit = Ok indexer /\
     aligned = {| index := axis; columns := [(key, map (sample_at ds) indexer)] |}).
Proof.
  unfold reindex. cbn [index waveHs_frame columns map fst snd].
  destruct (index_equals (map waveTime (wave ds)) axis) eqn:E.
  - intro H. injection H as <-. left. split; [now apply index_equals_eq | reflexivity].
  - intro H. right. split.
    + intro Heq. apply index_equals_eq in Heq. congruence.
    + destruct (get_indexer _ axis limit) as [indexer|e]; [|discriminate].
      injection H as <-. exists indexer. split; reflexivity.
Qed.

Lemma take_length (values : list (option Q)) (indexer : list Z) :
  List.length (take values indexer) = List.length indexer.
Proof. unfold take. apply length_map. Qed.

Lemma reindex_lengths (df : DataFrame) (axis : list Z) (limit : nat)
    (aligned : DataFrame) :
  reindex df axis limit = Ok aligned ->
  column_lengths_agree df ->
  index aligned = axis /\ column_lengths_agree aligned.
Proof.
  unfold reindex. destruct (index_equals (index df) axis) eqn:E.
  - intros H Hdf. injection H as <-. split; [now apply index_equals_eq | exact Hdf].
  - destruct (get_indexer (index df) axis limit) as [indexer|e] eqn:G;
      [|discriminate].
    intros H _. injection H as <-. split; [reflexivity|].
    unfold column_lengths_agree. cbn [index columns].
    apply Forall_map. apply Forall_forall. intros c _. cbn [snd].
    rewrite take_length. exact (get_indexer_length _ _ _ _ G).
Qed.

Lemma reindex_total (df : DataFrame) (axis : list Z) (limit : nat) :
  is_unique (index df) = true ->
  is_monotonic_increasing (index df) = true ->
  is_monotonic_increasing axis = true ->
  exists aligned, reindex df axis limit = Ok aligned.
Proof.
  intros Hu Hm Ha. unfold reindex, get_indexer.
  destruct (index_equals (index df) axis); [now eexists|].
  rewrite Hu, Hm, Ha. cbn [negb andb].
  destruct axis, (index df); now eexists.
Qed.

Lemma waveHs_frame_lengths (ds : RawDataset) (key : string) :
  column_lengths_agree (waveHs_frame ds key).
Proof.
  unfold column_lengths_agree, waveHs_frame. cbn.
  constructor; [|constructor]. cbn. now rewrite !length_map.
Qed.

Lemma nearest_choice_single (t x : Z) :
  nearest_choice [t] x (-1) 0 = 0 /\ nearest_choice [t] x 0 (-1) = 0.
Proof.
  unfold nearest_choice, py_getitem. cbn. rewrite Z.ltb_irrefl. split; [reflexivity|].
  now rewrite orb_true_r.
Qed.

Lemma get_indexer_single (t x : Z) :
  t <> x -> get_indexer [t] [x] 3 = Ok [0].
Proof.
  intro Hne.
  assert (E3 : (x =? t) = false) by (apply Z.eqb_neq; lia).
  unfold get_indexer, get_nearest_indexer, pad, backfill, fill_indexer.
  cbn [is_unique existsb negb andb is_monotonic_increasing List.length rev app
       last Z.of_nat Pos.of_succ_nat Z.sub Z.add Z.opp Z.pos_sub].
  destruct (Z.ltb_spec x t) as [Hlt|Hge].
  - assert (E1 : (t <? x) = false) by (apply Z.ltb_ge; lia).
    assert (E2 : (x <? t) = true) by (apply Z.ltb_lt; lia).
    repeat first
      [ progress rewrite ?Z.gtb_ltb, ?E1, ?E2, ?E3
      | progress cbn [fill_skip fill_walk fill_last repeat List.length
                        app rev andb orb Nat.ltb Nat.leb np_where_nearest] ].
    now rewrite (proj1 (nearest_choice_single t x)).
  - assert (E1 : (t <? x) = true) by (apply Z.ltb_lt; lia).
    assert (E2 : (x <? t) = false) by (apply Z.ltb_ge; lia).
    repeat first
      [ progress rewrite ?Z.gtb_ltb, ?E1, ?E2, ?E3
      | progress cbn [fill_skip fill_walk fill_last repeat List.length
                        app rev andb orb Nat.ltb Nat.leb np_where_nearest] ].
    now rewrite (proj2 (nearest_choice_single t x)).
Qed.

Lemma single_sample_any_distance (t x : Z) (v : Q) (key : string) :
  reindex (waveHs_frame {| wave := [mkWave t v]; gps := [] |} key) [x] 3 =
  Ok {| index := [x]; columns := [(key, [Some (v * feet_per_metre)%Q])] |}.
Proof.
  unfold reindex, waveHs_frame.
  cbn [index columns wave map waveTime waveHs index_equals fst snd].
  destruct (Z.eqb_spec t x) as [->|Hne]; [reflexivity|].
  cbn [andb]. rewrite (get_indexer_single t x Hne). reflexivity.
Qed.

(** ** Targets that carry a source label *)

Lemma Forall2_impl_left {A B} (P : A -> Prop) (R R' : A -> B -> Prop)
    (l1 : list A) (l2 : list B) :
  Forall P l1 -> Forall2 R l1 l2 ->
  (forall a b, P a -> R a b -> R' a b) ->
  Forall2 R' l1 l2.
Proof.
  intros HP HR Himp. induction HR as [|a b l1 l2 Hab _ IH]; [constructor|].
  inversion HP; subst. constructor; auto.
Qed.

Section FillExact.
Variable before : Z -> Z -> bool.
Variable step : Z.
Variable lim : nat.
Hypothesis before_irrefl : forall a, before a a = false.
Hypothesis before_trans :
  forall a b c, before a b = true -> before b c = true -> before a c = true.
Hypothesis before_total :
  forall a b, a <> b -> before a b = false -> before b a = true.

Lemma not_before_trans (x y c : Z) :
  before x c = false -> before y x = false -> before y c = false.
Proof.
  intros Hxc Hyx. destruct (before y c) eqn:Hyc; [|reflexivity].
  destruct (Z.eq_dec x c) as [->|Hne]; [congruence|].
  pose proof (before_total _ _ Hne Hxc) as Hcx.
  rewrite (before_trans _ _ _ Hyc Hcx) in Hyx. discriminate.
Qed.

Lemma label_not_before_first (cur : Z) (old' : list Z) (x : Z) (m : nat) :
  walk_ordered before (cur :: old') ->
  nth_error (cur :: old') m = Some x ->
  before x cur = false.
Proof.
  intros [Hall _] Hm. destruct m as [|m]; cbn in Hm.
  - injection Hm as <-. apply before_irrefl.
  - apply nth_error_In in Hm. rewrite Forall_forall in Hall.
    specialize (Hall _ Hm).
    destruct (before x cur) eqn:E; [|reflexivity].
    pose proof (before_trans _ _ _ Hall E) as Hcc.
    rewrite before_irrefl in Hcc. discriminate.
Qed.

Lemma monotone_tail_not_before (c x : Z) (rest : list Z) :
  walk_monotone before (x :: rest) ->
  before x c = false ->
  Forall (fun y => before y c = false) (x :: rest).
Proof.
  intros [Hall _] Hx. constructor; [exact Hx|].
  eapply Forall_impl; [|exact Hall]. intros y Hy. cbn in Hy.
  now apply (not_before_trans x).
Qed.

Lemma walk_monotone_app_r (l1 l2 : list Z) :
  walk_monotone before (l1 ++ l2) -> walk_monotone before l2.
Proof.
  induction l1 as [|a l1 IH]; [trivial|]. intros [_ H]. now apply IH.
Qed.

Lemma fill_last_exact (i cur : Z) (new : list Z) :
  forall f, Forall2 (fun x o => x = cur -> o = i) new
              (fill_last before lim i cur f new).
Proof.
  induction new as [|x new IH]; intro f; cbn [fill_last]; [constructor|].
  destruct (Z.eqb_spec x cur) as [Heq|Hne].
  - constructor; [reflexivity | apply IH].
  - destruct (before cur x && (f <? lim)%nat);
      (constructor; [intro; contradiction | apply IH]).
Qed.

(** One run consumes exactly the targets met before [next]: those it keeps
    carry [i] when they equal [cur], and the first target it leaves is not
    met before [next]. *)
Lemma fill_run_exact (i cur next : Z) (new : list Z) :
  Forall (fun x => before x cur = false) new ->
  forall f out rest,
    fill_run before lim i cur next f new = (out, rest) ->
    exists consumed,
      new = consumed ++ rest /\
      Forall2 (fun x o => before x next = true /\ (x = cur -> o = i)) consumed out /\
      match rest with
      | [] => True
      | y :: _ => before y next = false
      end.
Proof.
  induction new as [|x new IH]; intros Hge f out rest H; cbn [fill_run] in H.
  - injection H as <- <-. exists []. repeat split. constructor.
  - inversion Hge as [|? ? Hx Hge']; subst.
    assert (Hcond : (x =? cur) || before cur x = true).
    { destruct (Z.eqb_spec x cur) as [|Hne]; [reflexivity|].
      cbn. now apply before_total. }
    rewrite Hcond in H. cbn [andb] in H.
    destruct (before x next) eqn:Hn.
    + assert (Hstep : forall f' o,
                 (x = cur -> o = i) ->
                 (let (out0, rest0) := fill_run before lim i cur next f' new in
                  (o :: out0, rest0)) = (out, rest) ->
                 exists consumed,
                   x :: new = consumed ++ rest /\
                   Forall2 (fun x o => before x next = true /\ (x = cur -> o = i))
                     consumed out /\
                   match rest with
                   | [] => True
                   | y :: _ => before y next = false
                   end).
      { intros f' o Ho H'.
        destruct (fill_run before lim i cur next f' new) as [out0 rest0] eqn:E.
        injection H' as <- <-.
        destruct (IH Hge' _ _ _ E) as [consumed [-> [HF Hr]]].
        exists (x :: consumed). repeat split; try assumption.
        constructor; [split; assumption | exact HF]. }
      destruct (Z.eqb_spec x cur) as [Heq|Hne].
      * apply (Hstep f i); [reflexivity | exact H].
      * destruct (f <? lim)%nat.
        -- apply (Hstep (S f) i); [reflexivity | exact H].
        -- apply (Hstep f (-1)); [intro; contradiction | exact H].
    + injection H as <- <-. exists []. repeat split; [constructor | exact Hn].
Qed.

Lemma fill_walk_exact (old' : list Z) :
  forall i cur new,
    walk_ordered before (cur :: old') ->
    walk_monotone before new ->
    Forall (fun x => before x cur = false) new ->
    Forall2 (exact_entry step i (cur :: old')) new
      (fill_walk before step lim i cur old' new).
Proof.
  induction old' as [|next old'' IH]; intros i cur new Hord Hmon Hge.
  - destruct new as [|x new]; cbn [fill_walk]; [constructor|].
    eapply Forall2_impl; [|apply fill_last_exact].
    intros a b Hab m Hm. destruct m as [|[|m]]; cbn in Hm; try discriminate.
    injection Hm as <-. rewrite (Hab eq_refl). lia.
  - destruct new as [|x new]; cbn [fill_walk]; [constructor|].
    destruct (fill_run before lim i cur next 0 (x :: new)) as [out rest] eqn:E.
    destruct (fill_run_exact _ _ _ _ Hge _ _ _ E) as [consumed [Hsplit [HF Hrest]]].
    destruct Hord as [Hcur Hord'].
    assert (Hcn : before cur next = true)
      by (inversion Hcur; assumption).
    rewrite Hsplit. apply Forall2_app.
    + eapply Forall2_impl; [|exact HF].
      intros a b [Han Hab] m Hm. destruct m as [|m]; cbn in Hm.
      * injection Hm as <-. rewrite (Hab eq_refl). lia.
      * exfalso.
        pose proof (label_not_before_first next old'' a m Hord' Hm) as Hna.
        congruence.
    + assert (Hmon' : walk_monotone before rest)
        by (rewrite Hsplit in Hmon; now apply walk_monotone_app_r in Hmon).
      assert (Hge' : Forall (fun y => before y next = false) rest).
      { destruct rest as [|y rest']; [constructor|].
        now apply monotone_tail_not_before. }
      apply (Forall2_impl_left _ _ _ _ _ Hge'
               (IH (i + step) next rest Hord' Hmon' Hge')).
      intros a b Ha Hab m Hm. destruct m as [|m]; cbn in Hm.
      * injection Hm as <-. congruence.
      * rewrite (Hab m Hm). lia.
Qed.
End FillExact.

Section FillIndexerExact.
Variable before : Z -> Z -> bool.
Variable step : Z.
Variable lim : nat.
Hypothesis before_irrefl : forall a, before a a = false.
Hypothesis before_trans :
  forall a b c, before a b = true -> before b c = true -> before a c = true.
Hypothesis before_total :
  forall a b, a <> b -> before a b = false -> before b a = true.

Lemma fill_skip_exact (cur : Z) (new : list Z) :
  forall out rest,
    fill_skip before cur new = (out, rest) ->
    exists skipped,
      new = skipped ++ rest /\
      out = repeat (-1) (List.length skipped) /\
      Forall (fun x => before x cur = true) skipped /\
      match rest with
      | [] => True
      | y :: _ => before y cur = false
      end.
Proof.
  induction new as [|x new IH]; intros out rest H; cbn [fill_skip] in H.
  - injection H as <- <-. exists []. repeat split. constructor.
  - destruct (before x cur) eqn:Hx.
    + destruct (fill_skip before cur new) as [o r] eqn:E.
      injection H as <- <-.
      destruct (IH _ _ eq_refl) as [skipped [-> [-> [Hs Hr]]]].
      exists (x :: skipped). repeat split; try assumption. now constructor.
    + injection H as <- <-. exists []. repeat split; [constructor | exact Hx].
Qed.

Lemma last_not_before (new : list Z) (d y : Z) :
  walk_monotone before new -> In y new -> before (last new d) y = false.
Proof.
  induction new as [|x new IH]; intros Hmon Hin; [destruct Hin|].
  destruct Hmon as [Hall Hmon].
  destruct new as [|x' new'].
  - destruct Hin as [<-|[]]. apply before_irrefl.
  - change (last (x :: x' :: new') d) with (last (x' :: new') d).
    destruct Hin as [<-|Hin]; [|now apply IH].
    rewrite Forall_forall in Hall. apply Hall.
    destruct (exists_last (l := x' :: new') ltac:(discriminate)) as [l' [z E]].
    rewrite E, last_last, <- E. rewrite E. apply in_or_app. right. now left.
Qed.

Lemma Forall2_minus_one_where (R : Z -> Z -> Prop) (new : list Z) :
  (forall x, In x new -> R x (-1)) ->
  Forall2 R new (repeat (-1) (List.length new)).
Proof.
  induction new as [|x new IH]; intro H; cbn; constructor.
  - apply H. now left.
  - apply IH. intros y Hy. apply H. now right.
Qed.

Lemma met_before_first_is_no_label (cur : Z) (old' : list Z) (x : Z) :
  walk_ordered before (cur :: old') ->
  before x cur = true ->
  forall start, exact_entry step start (cur :: old') x (-1).
Proof.
  intros Hord Hx start m Hm.
  rewrite (label_not_before_first before before_irrefl before_trans
             cur old' x m Hord Hm) in Hx.
  discriminate.
Qed.

Lemma fill_indexer_exact (start : Z) (old new : list Z) :
  walk_ordered before old ->
  walk_monotone before new ->
  Forall2 (exact_entry step start old) new
    (fill_indexer before step lim start old new).
Proof.
  intros Hord Hmon. unfold fill_indexer. destruct old as [|cur old'].
  - apply Forall2_minus_one_where. intros x _ m Hm. destruct m; discriminate.
  - destruct new as [|x new]; [constructor|].
    destruct (before (last (x :: new) 0) cur) eqn:Hlast.
    + apply Forall2_minus_one_where. intros y Hy m Hm.
      pose proof (label_not_before_first before before_irrefl before_trans
                    cur old' y m Hord Hm) as Hyc.
      pose proof (last_not_before (x :: new) 0 y Hmon Hy) as Hly.
      rewrite (not_before_trans before before_trans before_total _ _ _ Hyc Hly)
        in Hlast.
      discriminate.
    + destruct (fill_skip before cur (x :: new)) as [out rest] eqn:E.
      destruct (fill_skip_exact _ _ _ _ E) as [skipped [Hsplit [-> [Hs Hr]]]].
      rewrite Hsplit. apply Forall2_app.
      * apply Forall2_minus_one_where. intros y Hy.
        rewrite Forall_forall in Hs.
        now apply met_before_first_is_no_label; [|apply Hs].
      * assert (Hmon' : walk_monotone before rest)
          by (rewrite Hsplit in Hmon;
              now apply (walk_monotone_app_r before) in Hmon).
        apply (fill_walk_exact before step lim before_irrefl before_trans
                 before_total); try assumption.
        destruct rest as [|y rest']; [constructor|].
        now apply (monotone_tail_not_before before before_trans before_total).
Qed.
End FillIndexerExact.

(** *** The two walks of pandas *)

Lemma ltb_irrefl_total :
  (forall a, (a <? a) = false) /\
  (forall a b c, (a <? b) = true -> (b <? c) = true -> (a <? c) = true) /\
  (forall a b, a <> b -> (a <? b) = false -> (b <? a) = true).
Proof.
  repeat split; intros;
    repeat match goal with
           | H : (_ <? _) = true |- _ => apply Z.ltb_lt in H
           | H : (_ <? _) = false |- _ => apply Z.ltb_ge in H
           end;
    try (apply Z.ltb_lt; lia); apply Z.ltb_irrefl.
Qed.

Lemma gtb_irrefl_total :
  (forall a, (a >? a) = false) /\
  (forall a b c, (a >? b) = true -> (b >? c) = true -> (a >? c) = true) /\
  (forall a b, a <> b -> (a >? b) = false -> (b >? a) = true).
Proof.
  repeat split; intros; rewrite Z.gtb_ltb in *;
    repeat match goal with
           | H : (_ <? _) = true |- _ => apply Z.ltb_lt in H
           | H : (_ <? _) = false |- _ => apply Z.ltb_ge in H
           end;
    try (apply Z.ltb_lt; lia); apply Z.ltb_irrefl.
Qed.

Lemma monotonic_head_le (a : Z) (rest : list Z) :
  is_monotonic_increasing (a :: rest) = true -> Forall (fun b => a <= b) rest.
Proof.
  intro H. apply Forall_forall. intros b Hb.
  destruct (In_nth _ _ 0 Hb) as [n [Hn <-]].
  exact (monotonic_nth_le (a :: rest) H 0%nat (S n) ltac:(cbn; lia)).
Qed.

Lemma monotonic_walk_monotone (l : list Z) :
  is_monotonic_increasing l = true -> walk_monotone Z.ltb l.
Proof.
  induction l as [|a rest IH]; intro H; [exact I|]. split.
  - eapply Forall_impl; [|apply (monotonic_head_le _ _ H)].
    intros b Hb. apply Z.ltb_ge. exact Hb.
  - apply IH. exact (monotonic_tail _ _ H).
Qed.

Lemma increasing_walk_ordered (l : list Z) :
  is_unique l = true -> is_monotonic_increasing l = true ->
  walk_ordered Z.ltb l.
Proof.
  induction l as [|a rest IH]; intros Hu Hm; [exact I|].
  cbn [is_unique] in Hu. apply andb_true_iff in Hu. destruct Hu as [Hna Hu].
  split; [|exact (IH Hu (monotonic_tail _ _ Hm))].
  apply Forall_forall. intros b Hb.
  pose proof (monotonic_head_le _ _ Hm) as Hle.
  rewrite Forall_forall in Hle. specialize (Hle b Hb).
  apply Z.ltb_lt. enough (a <> b) by lia. intros ->.
  apply negb_true_iff in Hna.
  assert (Hex : existsb (Z.eqb b) rest = true)
    by (apply existsb_exists; exists b; split; [exact Hb | apply Z.eqb_refl]).
  congruence.
Qed.

Lemma walk_ordered_snoc (before : Z -> Z -> bool) (l : list Z) (a : Z) :
  walk_ordered before l -> Forall (fun b => before b a = true) l ->
  walk_ordered before (l ++ [a]).
Proof.
  induction l as [|x l IH]; intros Hord Hall; cbn.
  - split; [constructor | exact I].
  - destruct Hord as [Hx Hord]. inversion Hall; subst. split.
    + apply Forall_app. split; [exact Hx | now repeat constructor].
    + now apply IH.
Qed.

Lemma walk_monotone_snoc (before : Z -> Z -> bool) (l : list Z) (a : Z) :
  walk_monotone before l -> Forall (fun b => before a b = false) l ->
  walk_monotone before (l ++ [a]).
Proof.
  induction l as [|x l IH]; intros Hmon Hall; cbn.
  - split; [constructor | exact I].
  - destruct Hmon as [Hx Hmon]. inversion Hall; subst. split.
    + apply Forall_app. split; [exact Hx | now repeat constructor].
    + now apply IH.
Qed.

Lemma walk_ordered_rev (l : list Z) :
  walk_ordered Z.ltb l -> walk_ordered Z.gtb (rev l).
Proof.
  induction l as [|a l IH]; intro H; [exact I|].
  destruct H as [Ha H]. cbn [rev]. apply walk_ordered_snoc; [now apply IH|].
  apply Forall_rev. eapply Forall_impl; [|exact Ha].
  intros b Hb. cbn in Hb. now rewrite Z.gtb_ltb.
Qed.

Lemma walk_monotone_rev (l : list Z) :
  walk_monotone Z.ltb l -> walk_monotone Z.gtb (rev l).
Proof.
  induction l as [|a l IH]; intro H; [exact I|].
  destruct H as [Ha H]. cbn [rev]. apply walk_monotone_snoc; [now apply IH|].
  apply Forall_rev. eapply Forall_impl; [|exact Ha].
  intros b Hb. cbn in Hb. now rewrite Z.gtb_ltb.
Qed.

Lemma pad_exact (old new : list Z) (limit : nat) :
  is_unique old = true -> is_monotonic_increasing old = true ->
  is_monotonic_increasing new = true ->
  Forall2 (carries_own_label old) new (pad old new limit).
Proof.
  intros Hu Hm Hn. unfold pad.
  destruct ltb_irrefl_total as [Hi [Ht Htot]].
  eapply Forall2_impl;
    [|apply (fill_indexer_exact Z.ltb 1 limit Hi Ht Htot 0 old new);
      [now apply increasing_walk_ordered | now apply monotonic_walk_monotone]].
  intros x o H k Hk. rewrite (H k Hk). lia.
Qed.

Lemma backfill_exact (old new : list Z) (limit : nat) :
  is_unique old = true -> is_monotonic_increasing old = true ->
  is_monotonic_increasing new = true ->
  Forall2 (carries_own_label old) new (backfill old new limit).
Proof.
  intros Hu Hm Hn. unfold backfill.
  destruct gtb_irrefl_total as [Hi [Ht Htot]].
  rewrite <- (rev_involutive new) at 1. apply Forall2_rev.
  eapply Forall2_impl;
    [|apply (fill_indexer_exact Z.gtb (-1) limit Hi Ht Htot
               (Z.of_nat (List.length old) - 1) (rev old) (rev new));
      [apply walk_ordered_rev; now apply increasing_walk_ordered
      |apply walk_monotone_rev; now apply monotonic_walk_monotone]].
  intros x o H k Hk.
  assert (Hlt : (k < List.length old)%nat)
    by (apply nth_error_Some; congruence).
  rewrite (H (List.length old - S k)%nat).
  - lia.
  - rewrite nth_error_rev.
    destruct (Nat.ltb_spec (List.length old - S k) (List.length old)); [|lia].
    rewrite <- Hk. f_equal. lia.
Qed.

Lemma np_where_nearest_exact (old new : list Z) :
  forall ls rs,
    Forall2 (carries_own_label old) new ls ->
    Forall2 (carries_own_label old) new rs ->
    Forall2 (carries_own_label old) new (np_where_nearest old new ls rs).
Proof.
  induction new as [|x new IH]; intros ls rs Hl Hr;
    inversion Hl as [|? l ? ls' Hxl Hl']; subst;
    inversion Hr as [|? r ? rs' Hxr Hr']; subst; cbn; constructor.
  - destruct (nearest_choice_cases old x l r) as [->| ->]; assumption.
  - now apply IH.
Qed.

Lemma get_indexer_exact (old new indexer : list Z) (limit : nat) :
  get_indexer old new limit = Ok indexer ->
  Forall2 (carries_own_label old) new indexer.
Proof.
  unfold get_indexer. destruct (is_unique old) eqn:Hu; [|discriminate].
  cbn [negb]. destruct new as [|x new].
  - intro H. injection H as <-. constructor.
  - destruct old as [|a old].
    + intro H. injection H as <-.
      apply (Forall2_minus_one_where _ (x :: new)).
      intros y _ k Hk. destruct k; discriminate.
    + destruct (is_monotonic_increasing (a :: old)) eqn:Hm; [|discriminate].
      destruct (is_monotonic_increasing (x :: new)) eqn:Hn; [|discriminate].
      intro H. injection H as <-. unfold get_nearest_indexer.
      apply np_where_nearest_exact; [apply pad_exact | apply backfill_exact];
        assumption.
Qed.

(** ** Targets in the gap of a source label *)

Section FillOffers.
Variable before : Z -> Z -> bool.
Variable step : Z.
Variable lim : nat.
Hypothesis before_irrefl : forall a, before a a = false.
Hypothesis before_trans :
  forall a b c, before a b = true -> before b c = true -> before a c = true.
Hypothesis before_total :
  forall a b, a <> b -> before a b = false -> before b a = true.

Lemma fill_offer_first (i cur : Z) (f : nat) (x : Z) :
  fill_offer before lim i cur f [] x =
  if x =? cur then i else if (f <? lim)%nat then i else -1.
Proof.
  unfold fill_offer. cbn [filter List.length]. rewrite Nat.add_0_r.
  destruct (x =? cur), (f <? lim)%nat; reflexivity.
Qed.

(** How the offer to a later target changes with the target met first. *)
Lemma fill_offer_next (i cur : Z) (f : nat) (a : Z) (pre : list Z) (x : Z) :
  before a cur = false ->
  fill_offer before lim i cur f (a :: pre) x =
  fill_offer before lim i cur
    (if a =? cur then f else if (f <? lim)%nat then S f else f) pre x.
Proof.
  intro Ha. unfold fill_offer. cbn [filter].
  destruct (Z.eqb_spec a cur) as [->|Hne].
  - now rewrite before_irrefl.
  - rewrite (before_total _ _ Hne Ha). cbn [List.length].
    destruct (Nat.ltb_spec f lim).
    + now rewrite Nat.add_succ_r.
    + destruct (Nat.ltb_spec (f + S (List.length (filter (before cur) pre))) lim);
        [lia|].
      destruct (Nat.ltb_spec (f + List.length (filter (before cur) pre)) lim);
        [lia | reflexivity].
Qed.

Lemma fill_last_offers (i cur : Z) (new : list Z) :
  Forall (fun x => before x cur = false) new ->
  forall f pre x post,
    new = pre ++ x :: post ->
    nth_error (fill_last before lim i cur f new) (List.length pre) =
    Some (fill_offer before lim i cur f pre x).
Proof.
  induction new as [|a new IH]; intros Hge f pre x post Hsplit;
    [destruct pre; discriminate|].
  inversion Hge as [|? ? Ha Hge']; subst.
  cbn [fill_last].
  assert (Hafter : a <> cur -> before cur a = true)
    by (intro Hne; now apply before_total).
  destruct pre as [|a' pre]; cbn [app] in Hsplit.
  - injection Hsplit as -> ->.
    cbn [List.length nth_error]. rewrite fill_offer_first.
    destruct (Z.eqb_spec x cur) as [|Hne]; [reflexivity|].
    rewrite (Hafter Hne). cbn [andb]. destruct (f <? lim)%nat; reflexivity.
  - injection Hsplit as <- ->.
    cbn [List.length]. rewrite (fill_offer_next _ _ _ _ _ _ Ha).
    destruct (Z.eqb_spec a cur) as [|Hne];
      [exact (IH Hge' _ pre x post eq_refl)|].
    rewrite (Hafter Hne). cbn [andb].
    destruct (f <? lim)%nat; exact (IH Hge' _ pre x post eq_refl).
Qed.

Lemma fill_run_offers (i cur next : Z) (new : list Z) :
  Forall (fun x => before x cur = false) new ->
  forall f out rest,
    fill_run before lim i cur next f new = (out, rest) ->
    exists consumed,
      new = consumed ++ rest /\
      List.length out = List.length consumed /\
      Forall (fun x => before x next = true) consumed /\
      (forall pre x post,
         consumed = pre ++ x :: post ->
         nth_error out (List.length pre) =
         Some (fill_offer before lim i cur f pre x)) /\
      match rest with
      | [] => True
      | y :: _ => before y next = false
      end.
Proof.
  induction new as [|a new IH]; intros Hge f out rest H; cbn [fill_run] in H.
  - injection H as <- <-. exists []. repeat split; try constructor.
    intros pre x post Hs. destruct pre; discriminate.
  - inversion Hge as [|? ? Ha Hge']; subst.
    assert (Hcond : (a =? cur) || before cur a = true).
    { destruct (Z.eqb_spec a cur) as [|Hne]; [reflexivity|].
      cbn. now apply before_total. }
    rewrite Hcond in H. cbn [andb] in H.
    destruct (before a next) eqn:Hn.
    + assert (Hstep : forall f' o,
                 o = fill_offer before lim i cur f [] a ->
                 f' = (if a =? cur then f else if (f <? lim)%nat then S f else f) ->
                 (let (out0, rest0) := fill_run before lim i cur next f' new in
                  (o :: out0, rest0)) = (out, rest) ->
                 exists consumed,
                   a :: new = consumed ++ rest /\
                   List.length out = List.length consumed /\
                   Forall (fun x => before x next = true) consumed /\
                   (forall pre x post,
                      consumed = pre ++ x :: post ->
                      nth_error out (List.length pre) =
                      Some (fill_offer before lim i cur f pre x)) /\
                   match rest with
                   | [] => True
                   | y :: _ => before y next = false
                   end).
      { intros f' o Ho Hf'.
        destruct (fill_run before lim i cur next f' new) as [out0 rest0] eqn:E.
        intro H'. injection H' as <- <-.
        destruct (IH Hge' _ _ _ E) as [consumed [-> [Hlen [Hin [Hoff Hr]]]]].
        exists (a :: consumed). repeat split; try assumption.
        - cbn. now rewrite Hlen.
        - now constructor.
        - intros pre x post Hs. destruct pre as [|a' pre]; cbn [app] in Hs;
            injection Hs as <- ->; cbn [List.length nth_error].
          + now rewrite Ho.
          + rewrite (fill_offer_next _ _ _ _ _ _ Ha), <- Hf'.
            exact (Hoff pre x post eq_refl). }
      destruct (a =? cur) eqn:Eac.
      * apply (Hstep f i);
          [now rewrite fill_offer_first, Eac | reflexivity | exact H].
      * destruct (f <? lim)%nat eqn:Efl.
        -- apply (Hstep (S f) i);
             [now rewrite fill_offer_first, Eac, Efl | reflexivity | exact H].
        -- apply (Hstep f (-1));
             [now rewrite fill_offer_first, Eac, Efl | reflexivity | exact H].
    + injection H as <- <-. exists []. repeat split; try constructor; try assumption.
      intros pre x post Hs. destruct pre; discriminate.
Qed.

(** Where a target of a split list sits. *)
Lemma split_at_target (l1 l2 pre post : list Z) (x : Z) :
  l1 ++ l2 = pre ++ x :: post ->
  (exists post', l1 = pre ++ x :: post') \/
  (exists pre', pre = l1 ++ pre' /\ l2 = pre' ++ x :: post).
Proof.
  intro H. apply app_eq_app in H. destruct H as [l [[H1 H2]|[H1 H2]]].
  - destruct l as [|y l].
    + right. exists []. rewrite app_nil_r in H1. cbn in H2. subst.
      split; [now rewrite app_nil_r | reflexivity].
    + cbn in H2. injection H2 as <- ->. left. now exists l.
  - right. now exists l.
Qed.

Lemma filter_none_before (L : Z) (l : list Z) :
  Forall (fun y => before L y = false) l -> filter (before L) l = [].
Proof.
  induction 1 as [|y l Hy _ IH]; [reflexivity|]. cbn. now rewrite Hy.
Qed.

Lemma fill_offer_skip (i L : Z) (f : nat) (l pre : list Z) (x : Z) :
  Forall (fun y => before L y = false) l ->
  fill_offer before lim i L f (l ++ pre) x = fill_offer before lim i L f pre x.
Proof.
  intro H. unfold fill_offer. now rewrite filter_app, (filter_none_before _ _ H).
Qed.

(** A target in the gap of a label is not met before the first label. *)
Lemma gap_not_before_first (cur : Z) (old' : list Z) (m : nat) (L x : Z) :
  walk_ordered before (cur :: old') ->
  nth_error (cur :: old') m = Some L ->
  x = L \/ before L x = true ->
  before x cur = false.
Proof.
  intros Hord Hm Hx.
  pose proof (label_not_before_first before before_irrefl before_trans
                cur old' L m Hord Hm) as HL.
  destruct Hx as [->|Hx]; [exact HL|].
  destruct (before x cur) eqn:E; [|reflexivity].
  rewrite (before_trans _ _ _ Hx E) in HL. discriminate.
Qed.

(** Targets met before a label are not after any label of the walk. *)
Lemma before_first_not_after (cur : Z) (old' : list Z) (m : nat) (L : Z)
    (l : list Z) :
  walk_ordered before (cur :: old') ->
  nth_error (cur :: old') m = Some L ->
  Forall (fun y => before y cur = true) l ->
  Forall (fun y => before L y = false) l.
Proof.
  intros Hord Hm Hl. eapply Forall_impl; [|exact Hl].
  intros y Hy. cbn in Hy.
  destruct (before L y) eqn:E; [|reflexivity].
  pose proof (label_not_before_first before before_irrefl before_trans
                cur old' L m Hord Hm) as HL.
  rewrite (before_trans _ _ _ E Hy) in HL. discriminate.
Qed.

Lemma fill_walk_offers (old' : list Z) :
  forall i cur new,
    walk_ordered before (cur :: old') ->
    walk_monotone before new ->
    Forall (fun x => before x cur = false) new ->
    forall pre x post m L,
      new = pre ++ x :: post ->
      nth_error (cur :: old') m = Some L ->
      x = L \/ before L x = true ->
      (forall nx, nth_error old' m = Some nx -> before x nx = true) ->
      nth_error (fill_walk before step lim i cur old' new) (List.length pre) =
      Some (fill_offer before lim (i + step * Z.of_nat m) L 0 pre x).
Proof.
  induction old' as [|next old'' IH];
    intros i cur new Hord Hmon Hge pre x post m L Hsplit Hm HxL Hnext.
  - destruct m as [|[|m]]; cbn in Hm; try discriminate. injection Hm as <-.
    replace (i + step * Z.of_nat 0) with i by lia.
    destruct new as [|a new]; [destruct pre; discriminate|].
    cbn [fill_walk]. now apply (fill_last_offers i cur (a :: new) Hge 0%nat pre x post).
  - destruct new as [|a new]; [destruct pre; discriminate|].
    cbn [fill_walk].
    destruct (fill_run before lim i cur next 0 (a :: new)) as [out rest] eqn:E.
    destruct (fill_run_offers _ _ _ _ Hge _ _ _ E)
      as [consumed [Hnew [Hlen [Hin [Hoff Hrest]]]]].
    destruct Hord as [Hcur Hord'].
    rewrite Hnew in Hsplit, Hmon.
    destruct (split_at_target _ _ _ _ _ Hsplit) as [[post' Hc]|[pre' [Hp Hr]]].
    + (* the target is consumed by this run *)
      assert (Hxn : before x next = true).
      { rewrite Forall_forall in Hin. apply Hin. rewrite Hc.
        apply in_or_app. right. now left. }
      destruct m as [|m].
      * cbn in Hm. injection Hm as <-.
        replace (i + step * Z.of_nat 0) with i by lia.
        rewrite nth_error_app1.
        -- exact (Hoff _ _ _ Hc).
        -- rewrite Hlen, Hc, length_app. cbn. lia.
      * exfalso. cbn [nth_error] in Hm.
        pose proof (gap_not_before_first next old'' m L x Hord' Hm HxL) as Hno.
        congruence.
    + (* the target is left to the later labels *)
      assert (Hge' : Forall (fun y => before y next = false) rest).
      { destruct rest as [|y rest']; [constructor|].
        apply (monotone_tail_not_before before before_trans before_total);
          [|exact Hrest].
        now apply (walk_monotone_app_r before) in Hmon. }
      assert (Hxn : before x next = false).
      { rewrite Forall_forall in Hge'. apply Hge'. rewrite Hr.
        apply in_or_app. right. now left. }
      destruct m as [|m].
      * exfalso. rewrite (Hnext next eq_refl) in Hxn. discriminate.
      * cbn [nth_error] in Hm.
        rewrite Hp, length_app, nth_error_app2 by lia.
        replace (List.length out + List.length pre' - List.length out)%nat
          with (List.length pre') by lia.
        rewrite <- Hlen.
        replace (List.length out + List.length pre' - List.length out)%nat
          with (List.length pre') by lia.
        rewrite (IH (i + step) next rest Hord'
                   (walk_monotone_app_r before _ _ Hmon) Hge'
                   pre' x post m L Hr Hm HxL Hnext).
        f_equal. rewrite fill_offer_skip.
        -- f_equal. lia.
        -- eapply Forall_impl; [|exact Hin].
           intros y Hy. cbn in Hy.
           destruct (before L y) eqn:E'; [|reflexivity].
           pose proof (label_not_before_first before before_irrefl before_trans
                         next old'' L m Hord' Hm) as HL.
           rewrite (before_trans _ _ _ E' Hy) in HL. discriminate.
Qed.

Lemma fill_indexer_offers (start : Z) (old new : list Z) :
  walk_ordered before old ->
  walk_monotone before new ->
  forall pre x post,
    new = pre ++ x :: post ->
    ((forall t, In t old -> before x t = true) ->
     nth_error (fill_indexer before step lim start old new) (List.length pre) =
     Some (-1)) /\
    (forall m L,
       nth_error old m = Some L ->
       x = L \/ before L x = true ->
       (forall nx, nth_error old (S m) = Some nx -> before x nx = true) ->
       nth_error (fill_indexer before step lim start old new) (List.length pre) =
       Some (fill_offer before lim (start + step * Z.of_nat m) L 0 pre x)).
Proof.
  intros Hord Hmon pre x post Hsplit.
  assert (Hpos : (List.length pre < List.length new)%nat)
    by (rewrite Hsplit, length_app; cbn; lia).
  assert (Hin : In x new)
    by (rewrite Hsplit; apply in_or_app; right; now left).
  unfold fill_indexer. destruct old as [|cur old'].
  - split; [intros _; now apply nth_error_repeat|].
    intros m L Hm. destruct m; discriminate.
  - destruct new as [|a new]; [cbn in Hpos; lia|].
    destruct (before (last (a :: new) 0) cur) eqn:Hlast.
    + split; [intros _; now apply nth_error_repeat|].
      intros m L Hm HxL _. exfalso.
      pose proof (gap_not_before_first cur old' m L x Hord Hm HxL) as Hxc.
      pose proof (last_not_before before before_irrefl (a :: new) 0 x Hmon Hin)
        as Hlx.
      rewrite (not_before_trans before before_trans before_total _ _ _ Hxc Hlx)
        in Hlast.
      discriminate.
    + destruct (fill_skip before cur (a :: new)) as [out rest] eqn:E.
      destruct (fill_skip_exact before _ _ _ _ E)
        as [skipped [Hnew [-> [Hs Hr]]]].
      rewrite Hnew in Hsplit, Hmon.
      destruct (split_at_target _ _ _ _ _ Hsplit) as [[post' Hc]|[pre' [Hp Hrest]]].
      * (* the target is met before the first label *)
        assert (Hxc : before x cur = true).
        { rewrite Forall_forall in Hs. apply Hs. rewrite Hc.
          apply in_or_app. right. now left. }
        assert (Hlt : (List.length pre < List.length skipped)%nat)
          by (rewrite Hc, length_app; cbn; lia).
        split.
        -- intros _. rewrite nth_error_app1 by (now rewrite repeat_length).
           now apply nth_error_repeat.
        -- intros m L Hm HxL _. exfalso.
           pose proof (gap_not_before_first cur old' m L x Hord Hm HxL).
           congruence.
      * assert (Hge : Forall (fun y => before y cur = false) rest).
        { destruct rest as [|y rest']; [constructor|].
          apply (monotone_tail_not_before before before_trans before_total);
            [|exact Hr].
          now apply (walk_monotone_app_r before) in Hmon. }
        assert (Hxc : before x cur = false).
        { rewrite Forall_forall in Hge. apply Hge. rewrite Hrest.
          apply in_or_app. right. now left. }
        split.
        -- intro Hall. rewrite (Hall cur (or_introl eq_refl)) in Hxc. discriminate.
        -- intros m L Hm HxL Hnext.
           rewrite Hp, length_app, nth_error_app2 by (rewrite repeat_length; lia).
           rewrite repeat_length.
           replace (List.length skipped + List.length pre' - List.length skipped)%nat
             with (List.length pre') by lia.
           rewrite (fill_walk_offers old' start cur rest Hord
                      (walk_monotone_app_r before _ _ Hmon) Hge
                      pre' x post m L Hrest Hm HxL Hnext).
           f_equal. rewrite fill_offer_skip; [reflexivity|].
           exact (before_first_not_after cur old' m L skipped Hord Hm Hs).
Qed.
End FillOffers.

(** *** The candidates of the two fills *)

Lemma last_at_or_before (old : list Z) (x : Z) :
  (forall t, In t old -> x < t) \/
  exists k t,
    nth_error old k = Some t /\ t <= x /\
    forall nx, nth_error old (S k) = Some nx -> x < nx.
Proof.
  induction old as [|a rest IH]; [left; intros t []|].
  destruct IH as [Hall|[k [t [Hk [Ht Hn]]]]].
  - destruct (Z_le_gt_dec a x) as [Hle|Hgt].
    + right. exists 0%nat, a. repeat split; [assumption|].
      intros nx Hnx. apply Hall. destruct rest; [discriminate|].
      injection Hnx as <-. now left.
    + left. intros t [<-|Hin]; [lia | now apply Hall].
  - right. exists (S k), t. repeat split; assumption.
Qed.

Lemma first_at_or_after (old : list Z) (x : Z) :
  (forall t, In t old -> t < x) \/
  exists k t,
    nth_error old k = Some t /\ x <= t /\
    forall j px, k = S j -> nth_error old j = Some px -> px < x.
Proof.
  induction old as [|a rest IH]; [left; intros t []|].
  destruct (Z_le_gt_dec x a) as [Hle|Hgt].
  - right. exists 0%nat, a. repeat split; [assumption|].
    intros j px Hj. discriminate.
  - destruct IH as [Hall|[k [t [Hk [Ht Hp]]]]].
    + left. intros t [<-|Hin]; [lia | now apply Hall].
    + right. exists (S k), t. repeat split; try assumption.
      intros j px Hj Hpx. injection Hj as <-.
      destruct k as [|k]; cbn in Hpx.
      * injection Hpx as <-. lia.
      * exact (Hp k px eq_refl Hpx).
Qed.

Lemma pad_offers (old new : list Z) (limit : nat) (pre post : list Z) (x : Z) :
  is_unique old = true -> is_monotonic_increasing old = true ->
  is_monotonic_increasing new = true ->
  new = pre ++ x :: post ->
  exists l,
    nth_error (pad old new limit) (List.length pre) = Some l /\
    forward_candidate old pre limit x l.
Proof.
  intros Hu Hm Hn Hsplit. unfold pad.
  destruct ltb_irrefl_total as [Hi [Ht Htot]].
  destruct (fill_indexer_offers Z.ltb 1 limit Hi Ht Htot 0 old new
              (increasing_walk_ordered _ Hu Hm) (monotonic_walk_monotone _ Hn)
              pre x post Hsplit) as [Hnone Hsome].
  destruct (last_at_or_before old x) as [Hall|[k [t [Hk [Ht' Hnx]]]]].
  - exists (-1). split.
    + apply Hnone. intros t Hin. apply Z.ltb_lt. now apply Hall.
    + left. now split.
  - eexists. split.
    + apply (Hsome k t Hk).
      * destruct (Z.eq_dec x t); [now left | right; apply Z.ltb_lt; lia].
      * intros nx Hx. apply Z.ltb_lt. now apply Hnx.
    + right. exists k, t. repeat split; try assumption.
      unfold fill_offer. cbn [plus].
      replace (0 + 1 * Z.of_nat k) with (Z.of_nat k) by lia. reflexivity.
Qed.

Lemma backfill_offers (old new : list Z) (limit : nat) (pre post : list Z) (x : Z) :
  is_unique old = true -> is_monotonic_increasing old = true ->
  is_monotonic_increasing new = true ->
  new = pre ++ x :: post ->
  exists r,
    nth_error (backfill old new limit) (List.length pre) = Some r /\
    backward_candidate old post limit x r.
Proof.
  intros Hu Hm Hn Hsplit.
  pose proof (backfill_length old new limit) as Hlen.
  unfold backfill in *. rewrite length_rev in Hlen.
  destruct gtb_irrefl_total as [Hi [Ht Htot]].
  assert (Hrev : rev new = rev post ++ x :: rev pre).
  { rewrite Hsplit, rev_app_distr. cbn [rev]. now rewrite <- app_assoc. }
  destruct (fill_indexer_offers Z.gtb (-1) limit Hi Ht Htot
              (Z.of_nat (List.length old) - 1) (rev old) (rev new)
              (walk_ordered_rev _ (increasing_walk_ordered _ Hu Hm))
              (walk_monotone_rev _ (monotonic_walk_monotone _ Hn))
              (rev post) x (rev pre) Hrev) as [Hnone Hsome].
  rewrite length_rev in Hnone, Hsome.
  rewrite nth_error_rev, Hlen.
  assert (Hn' : List.length new = (List.length pre + S (List.length post))%nat)
    by (rewrite Hsplit, length_app; reflexivity).
  destruct (Nat.ltb_spec (List.length pre) (List.length new)); [|lia].
  replace (List.length new - S (List.length pre))%nat with (List.length post)
    by lia.
  destruct (first_at_or_after old x) as [Hall|[k [t [Hk [Ht' Hp]]]]].
  - exists (-1). split.
    + apply Hnone. intros t Hin. apply in_rev in Hin.
      rewrite Z.gtb_ltb. apply Z.ltb_lt. now apply Hall.
    + left. now split.
  - assert (Hkl : (k < List.length old)%nat)
      by (apply nth_error_Some; congruence).
    eexists. split.
    + apply (Hsome (List.length old - S k)%nat t).
      * rewrite nth_error_rev.
        destruct (Nat.ltb_spec (List.length old - S k) (List.length old)); [|lia].
        rewrite <- Hk. f_equal. lia.
      * destruct (Z.eq_dec x t); [now left|].
        right. rewrite Z.gtb_ltb. apply Z.ltb_lt. lia.
      * intros nx Hx. rewrite nth_error_rev in Hx.
        destruct (Nat.ltb_spec (S (List.length old - S k)) (List.length old));
          [|discriminate].
        destruct k as [|k]; [lia|].
        rewrite Z.gtb_ltb. apply Z.ltb_lt. apply (Hp k nx eq_refl).
        rewrite <- Hx. f_equal. lia.
    + right. exists k, t. repeat split; try assumption.
      unfold fill_offer. cbn [plus].
      replace (Z.of_nat (List.length old) - 1
               + -1 * Z.of_nat (List.length old - S k)) with (Z.of_nat k) by lia.
      rewrite filter_rev, length_rev.
      rewrite (filter_ext (Z.gtb t) (fun y => y <? t)); [reflexivity|].
      intro y. apply Z.gtb_ltb.
Qed.

Lemma nth_error_Some_len {A} (l : list A) (k : nat) (a : A) :
  nth_error l k = Some a -> (k < List.length l)%nat.
Proof. intro H. apply nth_error_Some. congruence. Qed.

Lemma forward_candidate_entry (old pre : list Z) (limit : nat) (x l : Z) :
  forward_candidate old pre limit x l -> pad_entry old x l.
Proof.
  intros [[-> _]|[k [t [Hk [Ht [Hn ->]]]]]]; [now left|].
  destruct (_ || _); [|now left]. right.
  rewrite Nat2Z.id. split.
  - apply nth_error_Some_len in Hk. lia.
  - split; [now rewrite (nth_error_nth _ _ 0 Hk) | exact Hn].
Qed.

Lemma backward_candidate_entry (old post : list Z) (limit : nat) (x r : Z) :
  backward_candidate old post limit x r -> backfill_entry old x r.
Proof.
  intros [[-> _]|[k [t [Hk [Ht [Hp ->]]]]]]; [now left|].
  destruct (_ || _); [|now left]. right.
  rewrite Nat2Z.id. split.
  - apply nth_error_Some_len in Hk. lia.
  - split; [now rewrite (nth_error_nth _ _ 0 Hk)|].
    intros px Hpos Hpx. destruct k as [|k]; [lia|].
    apply (Hp k px eq_refl). rewrite <- Hpx. f_equal. lia.
Qed.

Lemma np_where_nearest_nth (old new : list Z) :
  forall ls rs j x l r,
    nth_error new j = Some x -> nth_error ls j = Some l ->
    nth_error rs j = Some r ->
    nth_error (np_where_nearest old new ls rs) j =
    Some (nearest_choice old x l r).
Proof.
  induction new as [|a new IH]; intros [|l0 ls] [|r0 rs] [|j] x l r Hx Hl Hr;
    try discriminate; cbn in *.
  - now injection Hx as ->; injection Hl as ->; injection Hr as ->.
  - now apply IH.
Qed.

Lemma nth_error_middle (pre post : list Z) (x : Z) :
  nth_error (pre ++ x :: post) (List.length pre) = Some x.
Proof. rewrite nth_error_app2, Nat.sub_diag by lia. reflexivity. Qed.

(** Each entry of the indexer is the nearer of the two candidates. *)
Lemma get_indexer_candidates (old new indexer pre post : list Z) (x : Z) :
  get_indexer old new 3 = Ok indexer ->
  new = pre ++ x :: post ->
  (old = [] \/ is_monotonic_increasing old = true) /\
  exists l r,
    forward_candidate old pre 3 x l /\
    backward_candidate old post 3 x r /\
    nth_error indexer (List.length pre) = Some (nearer old x l r).
Proof.
  intros H Hsplit. unfold get_indexer in H.
  destruct (is_unique old) eqn:Hu; [|discriminate]. cbn [negb] in H.
  assert (Hpos : (List.length pre < List.length new)%nat)
    by (rewrite Hsplit, length_app; cbn; lia).
  destruct new as [|a new]; [cbn in Hpos; lia|].
  destruct old as [|b old].
  - injection H as <-. split; [now left|].
    exists (-1), (-1). repeat split.
    + left. split; [reflexivity | intros t []].
    + left. split; [reflexivity | intros t []].
    + exact (nth_error_repeat (-1) Hpos).
  - destruct (is_monotonic_increasing (b :: old)) eqn:Hm; [|discriminate].
    destruct (is_monotonic_increasing (a :: new)) eqn:Hn; [|discriminate].
    injection H as <-. split; [now right|].
    destruct (pad_offers _ _ 3 _ _ _ Hu Hm Hn Hsplit) as [l [Hl Hfc]].
    destruct (backfill_offers _ _ 3 _ _ _ Hu Hm Hn Hsplit) as [r [Hr Hbc]].
    exists l, r. repeat split; try assumption.
    unfold get_nearest_indexer.
    rewrite (np_where_nearest_nth _ _ _ _ _ x l r); [| |exact Hl|exact Hr].
    + f_equal. apply nearest_choice_nearer; [exact Hm| |].
      * exact (forward_candidate_entry _ _ _ _ _ Hfc).
      * exact (backward_candidate_entry _ _ _ _ _ Hbc).
    + rewrite Hsplit. apply nth_error_middle.
Qed.

(** *** What the nearer candidate selects *)

Lemma entry_in_range (old : list Z) (x o : Z) :
  pad_entry old x o \/ backfill_entry old x o ->
  o = -1 \/ 0 <= o < Z.of_nat (List.length old).
Proof. intros [[->|[H _]]|[->|[H _]]]; auto. Qed.

Lemma nearer_cases (old : list Z) (x l r : Z) :
  (nearer old x l r = l \/ nearer old x l r = r) /\
  (nearer old x l r = -1 <-> l = -1 /\ r = -1).
Proof.
  unfold nearer.
  destruct (Z.eqb_spec l (-1)), (Z.eqb_spec r (-1));
    try destruct (_ <? _); split; auto; split; intros; intuition congruence.
Qed.

Lemma sample_at_missing_iff (ds : RawDataset) (o : Z) :
  o = -1 \/ 0 <= o < Z.of_nat (List.length (wave ds)) ->
  (sample_at ds o = None <-> o = -1).
Proof.
  intros Ho. unfold sample_at. destruct (Z.eqb_spec o (-1)) as [->|Hne].
  - split; reflexivity.
  - destruct Ho as [|Ho]; [contradiction|].
    split; [|contradiction]. intro Hnone. exfalso.
    destruct (nth_error (wave ds) (Z.to_nat o)) as [s|] eqn:E.
    + rewrite (nth_error_nth _ _ None
                 (x := Some (waveHs s * feet_per_metre)%Q)) in Hnone;
        [discriminate|].
      now rewrite nth_error_map, E.
    + apply nth_error_None in E. lia.
Qed.

Lemma at_or_before_is_left (old : list Z) (x : Z) (k : nat) (tl : Z) :
  is_monotonic_increasing old = true ->
  nth_error old k = Some tl ->
  (forall nx, nth_error old (S k) = Some nx -> x < nx) ->
  forall t, In t old -> t <= x -> t <= tl.
Proof.
  intros Hm Hk Hn t Hin Ht.
  destruct (In_nth_error _ _ Hin) as [j Hj].
  pose proof (nth_error_Some_len _ _ _ Hj) as Hjl.
  rewrite <- (nth_error_nth _ _ 0 Hj), <- (nth_error_nth _ _ 0 Hk).
  destruct (Nat.le_gt_cases j k) as [Hle|Hgt].
  - apply (monotonic_nth_le old Hm). pose proof (nth_error_Some_len _ _ _ Hk). lia.
  - exfalso.
    destruct (nth_error old (S k)) as [nx|] eqn:E;
      [|apply nth_error_None in E; lia].
    specialize (Hn nx eq_refl).
    pose proof (monotonic_nth_le old Hm (S k) j ltac:(lia)) as Hle.
    rewrite (nth_error_nth _ _ 0 E), (nth_error_nth _ _ 0 Hj) in Hle. lia.
Qed.

Lemma at_or_after_is_right (old : list Z) (x : Z) (k : nat) (tr : Z) :
  is_monotonic_increasing old = true ->
  nth_error old k = Some tr ->
  (forall j px, k = S j -> nth_error old j = Some px -> px < x) ->
  forall t, In t old -> x <= t -> tr <= t.
Proof.
  intros Hm Hk Hp t Hin Ht.
  destruct (In_nth_error _ _ Hin) as [j Hj].
  pose proof (nth_error_Some_len _ _ _ Hj) as Hjl.
  pose proof (nth_error_Some_len _ _ _ Hk) as Hkl.
  rewrite <- (nth_error_nth _ _ 0 Hj), <- (nth_error_nth _ _ 0 Hk).
  destruct (Nat.le_gt_cases k j) as [Hle|Hgt].
  - apply (monotonic_nth_le old Hm). lia.
  - exfalso. destruct k as [|k]; [lia|].
    destruct (nth_error old k) as [px|] eqn:E;
      [|apply nth_error_None in E; lia].
    specialize (Hp k px eq_refl E).
    pose proof (monotonic_nth_le old Hm j k ltac:(lia)) as Hle.
    rewrite (nth_error_nth _ _ 0 E), (nth_error_nth _ _ 0 Hj) in Hle. lia.
Qed.

(** When neither fill withholds its candidate, the nearer candidate is the
    nearest of all source labels. *)
Lemma nearer_is_nearest (old pre post : list Z) (limit : nat) (x l r : Z) :
  old = [] \/ is_monotonic_increasing old = true ->
  forward_candidate old pre limit x l ->
  backward_candidate old post limit x r ->
  forward_open old x l -> backward_open old x r ->
  forall t, In t old ->
    Z.abs (nth (Z.to_nat (nearer old x l r)) old 0 - x) <= Z.abs (t - x).
Proof.
  intros [->|Hm] Hfc Hbc Hfo Hbo t Hin; [destruct Hin|].
  assert (Hleft : (l = -1 /\ forall t, In t old -> x < t) \/
                  exists k tl, l = Z.of_nat k /\ nth_error old k = Some tl /\
                               tl <= x /\ forall t, In t old -> t <= x -> t <= tl).
  { destruct Hfc as [[-> Hall]|[k [tl [Hk [Ht [Hn ->]]]]]].
    - left. split; [reflexivity|]. destruct Hfo as [Hl|Hall']; [contradiction | exact Hall'].
    - destruct (_ || _).
      + right. exists k, tl. repeat split; try assumption.
        now apply (at_or_before_is_left old x k tl).
      + left. split; [reflexivity|]. destruct Hfo as [Hl|Hall]; [contradiction | exact Hall]. }
  assert (Hright : (r = -1 /\ forall t, In t old -> t < x) \/
                   exists k tr, r = Z.of_nat k /\ nth_error old k = Some tr /\
                                x <= tr /\ forall t, In t old -> x <= t -> tr <= t).
  { destruct Hbc as [[-> Hall]|[k [tr [Hk [Ht [Hp ->]]]]]].
    - left. split; [reflexivity|]. destruct Hbo as [Hr|Hall']; [contradiction | exact Hall'].
    - destruct (_ || _).
      + right. exists k, tr. repeat split; try assumption.
        now apply (at_or_after_is_right old x k tr).
      + left. split; [reflexivity|]. destruct Hbo as [Hr|Hall]; [contradiction | exact Hall]. }
  unfold nearer.
  destruct Hleft as [[-> Hl]|[kl [tl [-> [Hkl [Htl Hl]]]]]];
    destruct Hright as [[-> Hr]|[kr [tr [-> [Hkr [Htr Hr]]]]]].
  - specialize (Hl t Hin). specialize (Hr t Hin). lia.
  - rewrite Z.eqb_refl, Nat2Z.id, (nth_error_nth _ _ 0 Hkr).
    specialize (Hl t Hin). specialize (Hr t Hin ltac:(lia)). lia.
  - destruct (Z.eqb_spec (Z.of_nat kl) (-1)); [lia|]. rewrite Z.eqb_refl.
    rewrite Nat2Z.id, (nth_error_nth _ _ 0 Hkl).
    specialize (Hr t Hin). specialize (Hl t Hin ltac:(lia)). lia.
  - destruct (Z.eqb_spec (Z.of_nat kl) (-1)); [lia|].
    destruct (Z.eqb_spec (Z.of_nat kr) (-1)); [lia|].
    rewrite !Nat2Z.id, (nth_error_nth _ _ 0 Hkl), (nth_error_nth _ _ 0 Hkr).
    destruct (Z.le_gt_cases t x) as [Hle|Hgt].
    + specialize (Hl t Hin Hle).
      destruct (Z.ltb_spec (Z.abs (tl - x)) (Z.abs (tr - x)));
        rewrite Nat2Z.id;
        [rewrite (nth_error_nth _ _ 0 Hkl) | rewrite (nth_error_nth _ _ 0 Hkr)]; lia.
    + specialize (Hr t Hin ltac:(lia)).
      destruct (Z.ltb_spec (Z.abs (tl - x)) (Z.abs (tr - x)));
        rewrite Nat2Z.id;
        [rewrite (nth_error_nth _ _ 0 Hkl) | rewrite (nth_error_nth _ _ 0 Hkr)]; lia.
Qed.

(** C4, as the code has it: the aligner has no tolerance.  A reindexed
    series lies on the axis; it is the series itself when the series is on
    the axis already.  Otherwise each position holds the value of the
    nearer of two candidates, a tie going to the later one: the last sample
    at or before the instant, which the forward fill offers when the instant
    is the sample's own or fewer than 3 earlier axis instants lie after the
    sample, and the first sample at or after the instant, which the backward
    fill offers when the instant is the sample's own or fewer than 3 later
    axis instants lie before the sample.  The position is missing exactly
    when neither candidate is offered, whatever the distances; and when
    neither fill withholds its candidate, the sample chosen is the nearest
    of all the series' samples.  A one-sample series aligned on a
    one-instant axis is matched at every distance. *)
Theorem align_nearest_without_tolerance (ds : RawDataset) (key : string)
    (axis : list Z) (aligned : DataFrame)
    (H : reindex (waveHs_frame ds key) axis 3 = Ok aligned) :
  index aligned = axis /\
  (map waveTime (wave ds) = axis -> aligned = waveHs_frame ds key) /\
  (map waveTime (wave ds) <> axis ->
   exists column,
     columns aligned = [(key, column)] /\
     forall pre x post,
       axis = pre ++ x :: post ->
       exists l r,
         forward_candidate (map waveTime (wave ds)) pre 3 x l /\
         backward_candidate (map waveTime (wave ds)) post 3 x r /\
         nth_error column (List.length pre) =
         Some (sample_at ds (nearer (map waveTime (wave ds)) x l r)) /\
         (sample_at ds (nearer (map waveTime (wave ds)) x l r) = None <->
          l = -1 /\ r = -1) /\
         (forward_open (map waveTime (wave ds)) x l ->
          backward_open (map waveTime (wave ds)) x r ->
          forall s, In s (wave ds) ->
            Z.abs (nth (Z.to_nat (nearer (map waveTime (wave ds)) x l r))
                     (map waveTime (wave ds)) 0 - x)
            <= Z.abs (waveTime s - x))) /\
  (forall t x v,
     reindex (waveHs_frame {| wave := [mkWave t v]; gps := [] |} key) [x] 3 =
     Ok {| index := [x]; columns := [(key, [Some (v * feet_per_metre)%Q])] |}).
Proof.
  destruct (reindex_waveHs_frame _ _ _ _ _ H)
    as [[Heq ->]|[Hne [indexer [Hix ->]]]].
  - repeat split.
    + exact Heq.
    + intro Hne. contradiction.
    + intros. apply single_sample_any_distance.
  - split; [reflexivity|]. split; [intro Heq; contradiction|].
    split; [|intros; apply single_sample_any_distance].
    intros _. eexists. split; [reflexivity|].
    intros pre x post Hsplit.
    destruct (get_indexer_candidates _ _ _ _ _ _ Hix Hsplit)
      as [Hord [l [r [Hfc [Hbc Ho]]]]].
    exists l, r. split; [exact Hfc|]. split; [exact Hbc|].
    split; [now rewrite nth_error_map, Ho|].
    split.
    + destruct (nearer_cases (map waveTime (wave ds)) x l r) as [Hlr Hnone].
      rewrite <- Hnone. apply sample_at_missing_iff.
      rewrite <- (length_map waveTime).
      destruct Hlr as [-> | ->]; apply (entry_in_range _ x).
      * left. exact (forward_candidate_entry _ _ _ _ _ Hfc).
      * right. exact (backward_candidate_entry _ _ _ _ _ Hbc).
    + intros Hfo Hbo s Hs.
      apply (nearer_is_nearest _ pre post 3 x l r Hord Hfc Hbc Hfo Hbo).
      now apply in_map.
Qed.

Lemma align_nearest_without_tolerance_witness :
  let ds := {| wave := [mkWave 0 (1 # 1); mkWave 21600 (2 # 1)]; gps := [] |} in
  let axis := [0; 3600; 7200; 10800; 14400; 18000; 21600; 25200] in
  let aligned :=
    {| index := axis;
       columns := [("B"%string, map (sample_at ds) [0; 0; 0; 1; 1; 1; 1; 1])] |} in
  reindex (waveHs_frame ds "B") axis 3 = Ok aligned /\
  index aligned = axis /\
  (map waveTime (wave ds) <> axis ->
   exists column,
     columns aligned = [("B"%string, column)] /\
     forall pre x post,
       axis = pre ++ x :: post ->
       exists l r,
         forward_candidate (map waveTime (wave ds)) pre 3 x l /\
         backward_candidate (map waveTime (wave ds)) post 3 x r /\
         nth_error column (List.length pre) =
         Some (sample_at ds (nearer (map waveTime (wave ds)) x l r)) /\
         (sample_at ds (nearer (map waveTime (wave ds)) x l r) = None <->
          l = -1 /\ r = -1) /\
         (forward_open (map waveTime (wave ds)) x l ->
          backward_open (map waveTime (wave ds)) x r ->
          forall s, In s (wave ds) ->
            Z.abs (nth (Z.to_nat (nearer (map waveTime (wave ds)) x l r))
                     (map waveTime (wave ds)) 0 - x)
            <= Z.abs (waveTime s - x))).
Proof.
  intros ds axis aligned.
  assert (H : reindex (waveHs_frame ds "B") axis 3 = Ok aligned)
    by (vm_compute; reflexivity).
  split; [exact H|].
  destruct (align_nearest_without_tolerance ds "B" axis aligned H)
    as [Hi [_ [Hn _]]].
  split; assumption.
Defined.

(** The limit withholds a candidate: at instant 4 the forward fill from the
    sample at 0 is spent on the instants 1, 2 and 3, so the sample at 100,
    96 away, is taken although the sample at 0 is 4 away. *)
Example limit_withholds_nearer_sample :
  reindex (waveHs_frame {| wave := [mkWave 0 (1 # 1); mkWave 100 (2 # 1)];
                           gps := [] |} "B") [1; 2; 3; 4; 98] 3 =
  Ok {| index := [1; 2; 3; 4; 98];
        columns := [("B"%string,
                     [Some ((1 # 1) * feet_per_metre)%Q;
                      Some ((1 # 1) * feet_per_metre)%Q;
                      Some ((1 # 1) * feet_per_metre)%Q;
                      Some ((2 # 1) * feet_per_metre)%Q;
                      Some ((2 # 1) * feet_per_metre)%Q])] |} /\
  forward_candidate [0; 100] [1; 2; 3] 3 4 (-1) /\
  backward_candidate [0; 100] [98] 3 4 1.
Proof.
  split; [vm_compute; reflexivity|]. split.
  - right. exists 0%nat, 0. repeat split; cbn; try lia.
    intros nx Hnx. injection Hnx as <-. lia.
  - right. exists 1%nat, 100. repeat split; cbn; try lia.
    intros j px Hj Hpx. injection Hj as <-. injection Hpx as <-. lia.
Qed.

(** C4, as the spec states it, fails: a lone sample 1000000 seconds away
    from the only axis instant is still matched under a tolerance of 1800
    seconds. *)
Lemma tolerance_not_applied : ~ missing_beyond_tolerance.
Proof.
  intro claim.
  specialize (claim {| wave := [mkWave 1000000 (2 # 1)]; gps := [] |} "B"%string
                [0] 1800
                {| index := [0];
                   columns := [("B"%string, [Some ((2 # 1) * feet_per_metre)%Q])] |}
                0%nat 0
                ("B"%string, [Some ((2 # 1) * feet_per_metre)%Q])).
  cbn [columns snd nth_error] in claim.
  assert (Hbad : Some (Some ((2 # 1) * feet_per_metre)%Q) = Some None);
    [|discriminate Hbad].
  apply claim.
  - lia.
  - apply single_sample_any_distance.
  - reflexivity.
  - intros s [<-|[]]. cbn. lia.
  - now left.
Qed.




(** ** The density frame *)

Lemma set_column_lengths (n : nat) (key : string) (arr : list (option Q))
    (cols : list (string * list (option Q))) :
  List.length arr = n ->
  Forall (fun c => List.length (snd c) = n) cols ->
  Forall (fun c => List.length (snd c) = n) (set_column key arr cols).
Proof.
  intros Harr. induction 1 as [|[k v] cols Hc Hcols IH]; cbn [set_column].
  - now repeat constructor.
  - destruct (String.eqb k key); constructor; cbn [snd] in *; auto.
Qed.

Lemma setitem_lengths (df aligned : DataFrame) (key : string) :
  column_lengths_agree df ->
  index aligned = index df ->
  column_lengths_agree aligned ->
  column_lengths_agree (setitem df key aligned).
Proof.
  unfold column_lengths_agree, setitem. cbn [index columns].
  intros Hdf Hix Hal. apply set_column_lengths; [|exact Hdf].
  destruct (columns aligned) as [|[k v] cols]; [apply repeat_length|].
  inversion Hal as [|? ? Hv _]; subst. cbn [snd] in Hv. now rewrite Hv, Hix.
Qed.

Lemma boolean_mask_length {A B} (mask : list bool) :
  forall (xs : list A) (ys : list B),
    List.length xs = List.length ys ->
    List.length (boolean_mask mask xs) = List.length (boolean_mask mask ys).
Proof.
  induction mask as [|b mask IH]; intros [|x xs] [|y ys] H; try discriminate;
    try reflexivity.
  cbn in *. destruct b; cbn; rewrite (IH xs ys) by lia; reflexivity.
Qed.

Lemma rows_after_lengths (df : DataFrame) (t : Z) :
  column_lengths_agree df -> column_lengths_agree (rows_after df t).
Proof.
  unfold column_lengths_agree, rows_after. cbn [index columns].
  intro H. apply Forall_map. eapply Forall_impl; [|exact H].
  intros c Hc. cbn [snd]. now apply boolean_mask_length.
Qed.

Lemma make_density_plots_loop_ok (env : Env) (items : buoy_lookup) :
  forall i vars w vars' w',
    make_density_plots_loop env i items vars w = (Ok vars', w') ->
    vars_ok vars ->
    requests w' = requests w ++ roster_urls items /\
    vars_ok vars' /\
    Forall (fun a => status_of a = Online)
      (answers env (List.length (requests w)) items) /\
    (vars <> None \/ items <> [] -> vars' <> None).
Proof.
  induction items as [|[key value] items IH]; intros i vars w vars' w' H Hok.
  - cbn in H. injection H as <- <-. rewrite app_nil_r.
    repeat split; try assumption; [constructor|]. now intros [H|H].
  - cbn [make_density_plots_loop] in H. rewrite bind_get_buoy_data in H.
    cbn [answers roster_urls map snd].
    destruct (open_dataset env (List.length (requests w)) (request_url value))
      as [ds|e]; cbn [fetched] in H;
      [|destruct (i =? 0)%nat; discriminate].
    assert (Hstep : forall vars1,
               make_density_plots_loop env (S i) items vars1
                 {| requests := requests w ++ [request_url value];
                    ticks := ticks w |} = (Ok vars', w') ->
               vars_ok vars1 -> vars1 <> None ->
               requests w' = requests w ++ request_url value :: roster_urls items /\
               vars_ok vars' /\
               Forall (fun a => status_of a = Online)
                 (Ok ds :: answers env (S (List.length (requests w))) items) /\
               (vars <> None \/ (key, value) :: items <> [] -> vars' <> None)).
    { intros vars1 H1 Hok1 Hsome.
      destruct (IH _ _ _ _ _ H1 Hok1) as [Hw [Hv [Hall Hn]]].
      cbn [requests] in Hw, Hall. rewrite length_snoc in Hall.
      rewrite app_snoc_assoc in Hw. repeat split; try assumption.
      - now constructor.
      - intros _. apply Hn. now left. }
    destruct (i =? 0)%nat.
    + apply (Hstep _ H); [|discriminate].
      split; [reflexivity | apply waveHs_frame_lengths].
    + destruct vars as [[df df_index]|]; [|discriminate].
      unfold bind at 1, lift in H.
      destruct (reindex (waveHs_frame ds key) df_index 3) as [aligned|e] eqn:R;
        [|discriminate].
      destruct Hok as [Hix Hdf].
      destruct (reindex_lengths _ _ _ _ R (waveHs_frame_lengths ds key))
        as [Hai Hal].
      apply (Hstep _ H); [|discriminate].
      split; [exact Hix|]. apply setitem_lengths; congruence.
Qed.

(** [make_density_plots] after its loop: the clock is read once, the frame
    is cut, and [joyplot] draws it or refuses it. *)
Lemma make_density_plots_unfold (env : Env) (buoy_lookup : buoy_lookup) (w : World) :
  make_density_plots env buoy_lookup w =
  match make_density_plots_loop env 0%nat buoy_lookup None w with
  | (Ok (Some (df, _)), w1) =>
      let df_recent := rows_after df (datetime_now env (ticks w1) - days 30) in
      let w2 := {| requests := requests w1; ticks := S (ticks w1) |} in
      match joyplot df_recent with
      | Ok _ => (Ok df_recent, w2)
      | Raise e => (Raise e, w2)
      end
  | (Ok None, w1) => (Raise UnboundLocalError, w1)
  | (Raise e, w1) => (Raise e, w1)
  end.
Proof.
  unfold make_density_plots. unfold bind at 1.
  destruct (make_density_plots_loop env 0 buoy_lookup None w) as [[vars|e] w1];
    [|reflexivity].
  destruct vars as [[df ix]|]; [|reflexivity].
  unfold bind, now, lift, ret. cbn [requests ticks].
  destruct (joyplot _); reflexivity.
Qed.

Lemma make_density_plots_ok (env : Env) (buoy_lookup : buoy_lookup) (w : World)
    (df : DataFrame) (w' : World) :
  make_density_plots env buoy_lookup w = (Ok df, w') ->
  requests w' = requests w ++ roster_urls buoy_lookup /\
  column_lengths_agree df /\
  Forall (fun a => status_of a = Online)
    (answers env (List.length (requests w)) buoy_lookup).
Proof.
  rewrite make_density_plots_unfold. intro H.
  destruct (make_density_plots_loop env 0 buoy_lookup None w)
    as [[vars|e] w1] eqn:L; [|discriminate].
  destruct (make_density_plots_loop_ok _ _ _ _ _ _ _ L I) as [Hw [Hv [Hall _]]].
  destruct vars as [[df0 ix]|]; [|discriminate].
  cbn zeta in H. destruct (joyplot _); [|discriminate].
  injection H as <- <-. cbn [requests].
  destruct Hv as [_ Hv]. repeat split; try assumption.
  now apply rows_after_lengths.
Qed.

Lemma map_repeat_minus_one (values : list (option Q)) (n : nat) :
  take values (repeat (-1) n) = repeat None n.
Proof. induction n; cbn; [reflexivity | now f_equal]. Qed.

Lemma reindex_empty_series (g : list GpsFix) (key : string) (axis : list Z) :
  reindex (waveHs_frame {| wave := []; gps := g |} key) axis 3 =
  Ok {| index := axis; columns := [(key, repeat None (List.length axis))] |}.
Proof.
  unfold reindex, waveHs_frame, get_indexer. cbn [wave map index columns fst snd].
  destruct axis as [|x axis]; [reflexivity|].
  cbn [index_equals is_unique negb]. now rewrite map_repeat_minus_one.
Qed.

(** C6, as the code has it: a series with strictly increasing timestamps
    reindexed on a non-decreasing axis always yields a frame on that axis
    whose column has exactly the axis's length; an empty series yields the
    all-missing column of the axis's length on any axis; and every column
    of the frame the density builder returns has the length of the frame's
    index. *)
Theorem aligned_series_keep_axis_length (env : Env) (buoy_lookup : buoy_lookup)
    (w : World) (ds : RawDataset) (key : string) (axis : list Z)
    (Hunique : is_unique (map waveTime (wave ds)) = true)
    (Hseries : is_monotonic_increasing (map waveTime (wave ds)) = true)
    (Haxis : is_monotonic_increasing axis = true) :
  (exists aligned,
     reindex (waveHs_frame ds key) axis 3 = Ok aligned /\
     index aligned = axis /\
     exists column,
       columns aligned = [(key, column)] /\
       List.length column = List.length axis) /\
  (forall g axis',
     reindex (waveHs_frame {| wave := []; gps := g |} key) axis' 3 =
     Ok {| index := axis'; columns := [(key, repeat None (List.length axis'))] |}) /\
  (forall df w',
     make_density_plots env buoy_lookup w = (Ok df, w') ->
     column_lengths_agree df).
Proof.
  split; [|split].
  - destruct (reindex_total (waveHs_frame ds key) axis 3 Hunique Hseries Haxis)
      as [aligned R].
    exists aligned. split; [exact R|].
    destruct (reindex_lengths _ _ _ _ R (waveHs_frame_lengths ds key)) as [Hi Hl].
    split; [exact Hi|].
    destruct (reindex_waveHs_frame _ _ _ _ _ R) as [[Heq ->]|[_ [ix [_ ->]]]].
    + eexists. split; [reflexivity|]. rewrite <- Heq. now rewrite !length_map.
    + eexists. split; [reflexivity|].
      unfold column_lengths_agree in Hl. cbn [columns index] in Hl.
      inversion Hl as [|? ? Hc _]; subst. exact Hc.
  - intros. apply reindex_empty_series.
  - intros df w' H. now destruct (make_density_plots_ok _ _ _ _ _ H) as [_ [? _]].
Qed.

(** C6, as the spec states it, fails: a series with a repeated timestamp
    is not aligned at all, pandas refuses it with ValueError. *)
Lemma repeated_timestamp_is_refused : ~ align_always_keeps_axis_length.
Proof.
  intro claim.
  destruct (claim {| wave := [mkWave 5 (1 # 1); mkWave 5 (2 # 1)]; gps := [] |}
              "B"%string [5; 6]) as [aligned [H _]].
  vm_compute in H. discriminate.
Qed.

(** ** Offline stations in the density builder *)

(** C1: the density builder has no branch for a failed fetch.  Whenever one
    of the answers to its pass over the roster is a failure, the builder
    raises and returns no frame at all; the spec has it record the station
    as Offline, leave it out of the matrix and carry on. *)
Theorem density_builder_aborts_on_offline_station (env : Env)
    (buoy_lookup : buoy_lookup) (w : World)
    (Hoff : Exists (fun a => status_of a = Offline)
              (answers env (List.length (requests w)) buoy_lookup)) :
  exists e w', make_density_plots env buoy_lookup w = (Raise e, w').
Proof.
  destruct (make_density_plots env buoy_lookup w) as [[df|e] w'] eqn:E;
    [|now exists e, w'].
  destruct (make_density_plots_ok _ _ _ _ _ E) as [_ [_ Hall]].
  apply Exists_exists in Hoff. destruct Hoff as [a [Hin Ha]].
  rewrite Forall_forall in Hall. specialize (Hall a Hin). congruence.
Qed.

Lemma density_builder_aborts_on_offline_station_witness :
  Exists (fun a => status_of a = Offline)
    (answers archive_without_B (List.length (requests fresh_world)) roster_AB) /\
  (exists e w', make_density_plots archive_without_B roster_AB fresh_world = (Raise e, w')) /\
  make_density_plots archive_without_B roster_AB fresh_world =
  (Raise TypeError,
   {| requests := [request_url "001"; request_url "002"]; ticks := 0 |}).
Proof.
  assert (H : Exists (fun a => status_of a = Offline)
                (answers archive_without_B (List.length (requests fresh_world))
                   roster_AB)).
  { apply Exists_cons_tl, Exists_cons_hd. reflexivity. }
  split; [exact H|]. split.
  - exact (density_builder_aborts_on_offline_station archive_without_B roster_AB
             fresh_world H).
  - vm_compute. reflexivity.
Defined.

(** When the fetch of the first roster station fails, the density builder
    raises TypeError right after that one request: no later station is
    fetched and no frame is returned. *)
Lemma first_offline_raises (env : Env) (key value : string) (rest : buoy_lookup)
    (w : World) :
  status_of (open_dataset env (List.length (requests w)) (request_url value))
  = Offline ->
  make_density_plots env ((key, value) :: rest) w =
  (Raise TypeError,
   {| requests := requests w ++ [request_url value]; ticks := ticks w |}).
Proof.
  intro Hfirst.
  unfold make_density_plots. unfold bind at 1.
  cbn [make_density_plots_loop]. rewrite bind_get_buoy_data.
  destruct (open_dataset env (List.length (requests w)) (request_url value));
    [discriminate | reflexivity].
Qed.

Lemma make_density_plots_loop_axis (env : Env) (items : buoy_lookup) :
  forall i df df_index w vars' w',
    i <> 0%nat ->
    make_density_plots_loop env i items (Some (df, df_index)) w = (Ok vars', w') ->
    ticks w' = ticks w /\
    exists df', vars' = Some (df', df_index) /\ index df' = index df.
Proof.
  induction items as [|[key value] items IH]; intros i df ix w vars' w' Hi H.
  - cbn in H. injection H as <- <-. split; [reflexivity|]. now exists df.
  - cbn [make_density_plots_loop] in H. rewrite bind_get_buoy_data in H.
    destruct (Nat.eqb_spec i 0) as [|_]; [contradiction|].
    destruct (fetched _) as [ds|]; [|discriminate].
    unfold bind at 1, lift in H.
    destruct (reindex (waveHs_frame ds key) ix 3) as [aligned|e]; [|discriminate].
    apply IH in H; [|discriminate].
    destruct H as [Ht [df' [-> Hix]]]. split; [exact Ht|]. now exists df'.
Qed.

(** C2: the reference axis is never deferred.  When the fetch of the first
    roster station fails, the density builder raises TypeError right after
    that one request, whatever the later stations would have answered: no
    later station is fetched, nothing is buffered and no frame is returned,
    where the spec has the axis taken from the first station that is
    Online. *)
Theorem density_builder_aborts_when_first_offline (env : Env)
    (key value : string) (rest : buoy_lookup) (w : World)
    (Hfirst : status_of (open_dataset env (List.length (requests w))
                           (request_url value)) = Offline) :
  make_density_plots env ((key, value) :: rest) w =
  (Raise TypeError,
   {| requests := requests w ++ [request_url value]; ticks := ticks w |}) /\
  forall df w', make_density_plots env ((key, value) :: rest) w <> (Ok df, w').
Proof.
  rewrite (first_offline_raises env key value rest w Hfirst).
  split; [reflexivity | discriminate].
Qed.

Lemma density_builder_aborts_when_first_offline_witness :
  status_of (open_dataset (archive_failing_at 0) 0 (request_url "001")) = Offline /\
  status_of (open_dataset (archive_failing_at 0) 1 (request_url "002")) = Online /\
  make_density_plots (archive_failing_at 0) roster_AB fresh_world =
  (Raise TypeError, {| requests := [request_url "001"]; ticks := 0 |}).
Proof.
  split; [reflexivity|]. split; [reflexivity|].
  exact (proj1 (density_builder_aborts_when_first_offline (archive_failing_at 0)
                  "A" "001" [("B", "002")%string] fresh_world eq_refl)).
Defined.

(** ** Three independent passes over the roster *)

Lemma get_station_locations_loop_ok (env : Env) (items : buoy_lookup) :
  forall station_name lats lons w names' lats' lons' w',
    get_station_locations_loop env items station_name lats lons w =
    (Ok (names', lats', lons'), w') ->
    requests w' = requests w ++ roster_urls items /\
    names' = station_name ++ map fst items /\
    exists la lo,
      lats' = lats ++ la /\ lons' = lons ++ lo /\
      map coordinate_status la =
      map status_of (answers env (List.length (requests w)) items) /\
      map coordinate_status lo =
      map status_of (answers env (List.length (requests w)) items).
Proof.
  induction items as [|[key value] items IH];
    intros names lats lons w names' lats' lons' w' H.
  - cbn in H. injection H as <- <- <- <-. rewrite !app_nil_r.
    repeat split. exists [], []. now rewrite !app_nil_r.
  - cbn [get_station_locations_loop] in H. rewrite bind_get_buoy_data in H.
    cbn [answers roster_urls map fst snd].
    destruct (open_dataset env (List.length (requests w)) (request_url value))
      as [ds|e]; cbn [fetched] in H.
    + unfold bind at 1, lift in H.
      destruct (isel_last (gps ds)) as [g|e] eqn:G; [|discriminate].
      unfold bind at 1 in H.
      apply IH in H. destruct H as [Hw [-> [la [lo [-> [-> [Hla Hlo]]]]]]].
      cbn [requests] in Hw, Hla, Hlo. rewrite length_snoc in Hla, Hlo.
      rewrite !app_snoc_assoc in *. repeat split; try assumption.
      exists (Some (gpsLatitude g) :: la), (Some (gpsLongitude g) :: lo).
      rewrite ?app_snoc_assoc. cbn [map coordinate_status status_of].
      rewrite Hla, Hlo. auto.
    + apply IH in H. destruct H as [Hw [-> [la [lo [-> [-> [Hla Hlo]]]]]]].
      cbn [requests] in Hw, Hla, Hlo. rewrite length_snoc in Hla, Hlo.
      rewrite !app_snoc_assoc in *. repeat split; try assumption.
      exists (None :: la), (None :: lo).
      rewrite ?app_snoc_assoc. cbn [map coordinate_status status_of].
      rewrite Hla, Hlo. auto.
Qed.

Lemma roster_urls_length (items : buoy_lookup) :
  List.length (roster_urls items) = List.length items.
Proof. apply length_map. Qed.

(** C10: in a run that completes, the three builders send one request per
    roster entry each, three per station in all, and each builder classifies
    a station by the answer to its own request: the panels by the first
    pass, the map coordinates by the second, and the density frame requires
    every answer of the third to be a dataset.  Nothing is shared, and in
    the run on the archive whose third request fails, station A is Online in
    its panel and Offline on the map. *)
Theorem builders_fetch_independently (env : Env) (buoy_lookup : buoy_lookup)
    (w : World) (panels : list Panel) (station_name : list string)
    (lats lons : list (option Q)) (df : DataFrame) (w' : World)
    (Hrun : main env buoy_lookup w =
            (Ok (panels, (station_name, lats, lons), df), w')) :
  requests w' =
  requests w ++ roster_urls buoy_lookup ++ roster_urls buoy_lookup
             ++ roster_urls buoy_lookup /\
  List.length (requests w') =
  (List.length (requests w) + 3 * List.length buoy_lookup)%nat /\
  map panel_status panels =
  map status_of (answers env (List.length (requests w)) buoy_lookup) /\
  map coordinate_status lats =
  map status_of
    (answers env (List.length (requests w) + List.length buoy_lookup) buoy_lookup) /\
  Forall (fun a => status_of a = Online)
    (answers env (List.length (requests w) + List.length buoy_lookup
                  + List.length buoy_lookup) buoy_lookup) /\
  (exists panels0 names0 lats0 lons0 df0 w0,
     main (archive_failing_at 2) roster_AB fresh_world =
     (Ok (panels0, (names0, lats0, lons0), df0), w0) /\
     map panel_key panels0 = names0 /\
     nth_error names0 0 = Some "A"%string /\
     nth_error (map panel_status panels0) 0 = Some Online /\
     nth_error (map coordinate_status lats0) 0 = Some Offline).
Proof.
  unfold main, make_buoy_map, get_station_locations in Hrun.
  unfold bind at 1 in Hrun.
  destruct (make_timeseries_plots env buoy_lookup w)
    as [[panels1|e1] w1] eqn:E1; [|discriminate].
  apply make_timeseries_plots_ok in E1. destruct E1 as [_ E1].
  unfold bind at 1 in Hrun.
  destruct (get_station_locations_loop env buoy_lookup [] [] [] w1)
    as [[[[names1 lats1] lons1]|e2] w2] eqn:E2; [|discriminate].
  unfold bind at 1 in Hrun.
  destruct (make_density_plots env buoy_lookup w2) as [[df1|e3] w3] eqn:E3;
    [|discriminate].
  unfold ret in Hrun. injection Hrun as <- <- <- <- <- <-.
  apply make_timeseries_plots_loop_ok in E1.
  destruct E1 as [Hw1 [drawn [-> [_ Hs1]]]].
  apply get_station_locations_loop_ok in E2.
  destruct E2 as [Hw2 [_ [la [lo [-> [_ [Hs2 _]]]]]]].
  destruct (make_density_plots_ok _ _ _ _ _ E3) as [Hw3 [_ Hs3]].
  assert (Hl1 : List.length (requests w1) =
                (List.length (requests w) + List.length buoy_lookup)%nat)
    by (rewrite Hw1, length_app, roster_urls_length; reflexivity).
  assert (Hl2 : List.length (requests w2) =
                (List.length (requests w) + List.length buoy_lookup
                 + List.length buoy_lookup)%nat)
    by (rewrite Hw2, length_app, roster_urls_length, Hl1; reflexivity).
  rewrite Hl1 in Hs2. rewrite Hl2 in Hs3. cbn [app] in *.
  repeat split; try assumption.
  - rewrite Hw3, Hw2, Hw1, <- !app_assoc. reflexivity.
  - rewrite Hw3, length_app, roster_urls_length, Hl2. lia.
  - do 6 eexists. split; [vm_compute; reflexivity|].
    repeat split; reflexivity.
Qed.

(** ** The scenario archives are well formed *)

Lemma archive_failing_at_has_fix (k : nat) :
  every_dataset_has_fix (archive_failing_at k).
Proof.
  intros n url ds H. cbn in H.
  destruct (n =? k)%nat; [discriminate|]. injection H as <-.
  unfold dataset_for. destruct (String.eqb url _); discriminate.
Qed.

Lemma station_position_from_last_fix_witness :
  every_dataset_has_fix (archive_failing_at 1) /\
  exists station_name lats lons w',
    get_station_locations (archive_failing_at 1) roster_AB fresh_world =
    (Ok (station_name, lats, lons), w') /\
    station_name = ["A"; "B"]%string /\
    lats = [Some (41 # 1); None] /\
    lons = [Some (-125 # 1); None].
Proof.
  split; [apply archive_failing_at_has_fix|].
  destruct (station_position_from_last_fix (archive_failing_at 1) roster_AB
              fresh_world (archive_failing_at_has_fix 1))
    as [station_name [lats [lons [w' [Hrun _]]]]].
  exists station_name, lats, lons, w'. split; [exact Hrun|].
  vm_compute in Hrun. injection Hrun as <- <- <- _. repeat split.
Defined.

Lemma aligned_series_keep_axis_length_witness :
  is_unique (map waveTime (wave dataset_B)) = true /\
  is_monotonic_increasing (map waveTime (wave dataset_B)) = true /\
  is_monotonic_increasing (map waveTime (wave dataset_A)) = true /\
  (exists aligned,
     reindex (waveHs_frame dataset_B "B") (map waveTime (wave dataset_A)) 3 =
     Ok aligned /\
     index aligned = map waveTime (wave dataset_A) /\
     exists column,
       columns aligned = [("B"%string, column)] /\
       List.length column = List.length (map waveTime (wave dataset_A))) /\
  (forall g axis',
     reindex (waveHs_frame {| wave := []; gps := g |} "B") axis' 3 =
     Ok {| index := axis';
           columns := [("B"%string, repeat None (List.length axis'))] |}) /\
  (forall df w',
     make_density_plots archive_all_online roster_AB fresh_world = (Ok df, w') ->
     column_lengths_agree df).
Proof.
  repeat (split; [reflexivity|]).
  exact (aligned_series_keep_axis_length archive_all_online roster_AB
           fresh_world dataset_B "B" (map waveTime (wave dataset_A))
           eq_refl eq_refl eq_refl).
Defined.

Lemma builders_fetch_independently_witness :
  exists panels station_name lats lons df w',
    main (archive_failing_at 2) roster_AB fresh_world =
    (Ok (panels, (station_name, lats, lons), df), w') /\
    List.length (requests w') = 6%nat /\
    map panel_status panels = [Online; Online] /\
    map coordinate_status lats = [Offline; Online].
Proof.
  let v := eval vm_compute in (main (archive_failing_at 2) roster_AB fresh_world) in
  match v with
  | (Ok (?p, (?n, ?la, ?lo), ?d), ?w1) =>
      exists p, n, la, lo, d, w1;
      assert (Hrun : main (archive_failing_at 2) roster_AB fresh_world =
                     (Ok (p, (n, la, lo), d), w1)) by (vm_compute; reflexivity);
      destruct (builders_fetch_independently _ _ _ _ _ _ _ _ _ Hrun)
        as [_ [H2 [H3 [H4 _]]]];
      split; [exact Hrun | split; [exact H2 | split; [exact H3 | exact H4]]]
  end.
Defined.

(** ** The scenarios of the specification, run on the code *)

(** Roster [{A: "001", B: "002"}] with B unavailable: the panels and the
    map mark B offline. *)
Example scenario_offline_B_panels_and_map :
  (exists panels w',
     make_timeseries_plots archive_without_B roster_AB fresh_world = (Ok panels, w') /\
     map panel_status panels = [Online; Offline]) /\
  (exists names lons w',
     get_station_locations archive_without_B roster_AB fresh_world =
     (Ok (names, [Some (41 # 1); None], lons), w')).
Proof.
  split; [do 2 eexists | do 3 eexists]; vm_compute; eauto.
Qed.

(** A second station sampled every 6 hours on an hourly axis: with limit 3
    on each side and no tolerance, every hourly position is filled. *)
Example scenario_six_hourly_on_hourly_axis :
  get_indexer [0; 21600; 43200]
    [0; 3600; 7200; 10800; 14400; 18000; 21600; 25200; 28800; 32400; 36000;
     39600; 43200] 3 =
  Ok [0; 0; 0; 1; 1; 1; 1; 1; 1; 2; 2; 2; 2].
Proof. vm_compute. reflexivity. Qed.

(** All stations online: the density frame has one column per station on
    the first station's index. *)
Example scenario_all_online_density :
  exists df w',
    make_density_plots archive_all_online roster_AB fresh_world = (Ok df, w') /\
    map fst (columns df) = ["A"; "B"]%string /\
    requests w' = [request_url "001"; request_url "002"].
Proof. do 2 eexists. vm_compute. eauto. Qed.

(** Outside the ordering the data model promises, pandas refuses the
    reindex: a repeated source timestamp, or an axis that is not in time
    order. *)
Example reindex_refuses_unordered_input :
  reindex (waveHs_frame {| wave := [mkWave 5 (1 # 1); mkWave 5 (2 # 1)]; gps := [] |} "B")
    [5; 6] 3 = Raise ValueError /\
  reindex (waveHs_frame dataset_B "B") [2000; 1000] 3 = Raise ValueError.
Proof. split; vm_compute; reflexivity. Qed.

(** A period maximum of exactly zero is falsy, so [plot_buoy] returns a pair
    and the caller's three-way unpacking raises. *)
Example zero_maximum_breaks_unpacking :
  let env := {| open_dataset := fun _ _ => Ok {| wave := [mkWave 2900 (0 # 1)];
                                                 gps := [] |};
                datetime_now := fun _ => 3000 |} in
  fst (make_timeseries_plots env roster_AB fresh_world) = Raise ValueError.
Proof. vm_compute. reflexivity. Qed.

(** The script's own roster on an archive that answers every request: eight
    panels in roster order and twenty-four requests. *)
Example script_roster_run :
  exists panels coords df w',
    main archive_all_online the_buoy_lookup fresh_world =
    (Ok (panels, coords, df), w') /\
    map panel_station panels = the_buoy_lookup /\
    List.length (requests w') = 24%nat.
Proof. do 4 eexists. vm_compute. eauto. Qed.

(** * Further properties *)

(** ** Samples whose timestamp is on the axis *)

Lemma is_unique_NoDup (l : list Z) : is_unique l = true -> NoDup l.
Proof.
  induction l as [|a l IH]; intro H; [constructor|].
  cbn in H. apply andb_true_iff in H. destruct H as [Ha Hu].
  constructor; [|now apply IH].
  intro Hin. apply negb_true_iff in Ha.
  assert (existsb (Z.eqb a) l = true)
    by (apply existsb_exists; exists a; split; [exact Hin | apply Z.eqb_refl]).
  congruence.
Qed.

Lemma Forall2_nth_error {A B} (R : A -> B -> Prop) (l1 : list A) (l2 : list B) :
  Forall2 R l1 l2 ->
  forall j x, nth_error l1 j = Some x ->
    exists o, nth_error l2 j = Some o /\ R x o.
Proof.
  induction 1 as [|a b l1 l2 Hab _ IH]; intros j x Hj; [destruct j; discriminate|].
  destruct j as [|j]; cbn in *.
  - injection Hj as <-. now exists b.
  - now apply IH.
Qed.

Lemma sample_at_own_position (ds : RawDataset) (k : nat) (s : WaveSample) :
  nth_error (wave ds) k = Some s ->
  sample_at ds (Z.of_nat k) = Some (waveHs s * feet_per_metre)%Q.
Proof.
  intro Hk. unfold sample_at.
  destruct (Z.eqb_spec (Z.of_nat k) (-1)); [lia|].
  rewrite Nat2Z.id.
  apply nth_error_nth. now rewrite nth_error_map, Hk.
Qed.

(** X1: a sample whose timestamp is an instant of the axis is carried over
    to that instant unchanged (in feet): for a series with strictly
    increasing timestamps and a non-decreasing axis the reindex returns, and
    at every axis position that equals the timestamp of a sample the column
    holds that sample's height times 3.28084, never a neighbour's value and
    never a missing one. *)
Theorem sample_on_axis_is_kept (ds : RawDataset) (key : string) (axis : list Z)
    (Hunique : is_unique (map waveTime (wave ds)) = true)
    (Hseries : is_monotonic_increasing (map waveTime (wave ds)) = true)
    (Haxis : is_monotonic_increasing axis = true) :
  exists column,
    reindex (waveHs_frame ds key) axis 3 =
    Ok {| index := axis; columns := [(key, column)] |} /\
    forall j k s,
      nth_error axis j = Some (waveTime s) ->
      nth_error (wave ds) k = Some s ->
      nth_error column j = Some (Some (waveHs s * feet_per_metre)%Q).
Proof.
  destruct (reindex_total (waveHs_frame ds key) axis 3 Hunique Hseries Haxis)
    as [aligned R].
  destruct (reindex_waveHs_frame _ _ _ _ _ R)
    as [[Heq ->]|[_ [indexer [Hix ->]]]].
  - eexists. split; [rewrite R, <- Heq; reflexivity|].
    intros j k s Hj Hk. rewrite <- Heq in Hj.
    assert (Hk' : nth_error (map waveTime (wave ds)) k = Some (waveTime s))
      by (now rewrite nth_error_map, Hk).
    assert (j = k) as ->.
    { apply (proj1 (NoDup_nth_error _) (is_unique_NoDup _ Hunique)).
      - apply nth_error_Some. congruence.
      - congruence. }
    now rewrite nth_error_map, Hk.
  - eexists. split; [exact R|].
    intros j k s Hj Hk.
    destruct (Forall2_nth_error _ _ _ (get_indexer_exact _ _ _ _ Hix) _ _ Hj)
      as [o [Ho Hown]].
    rewrite (Hown k) in Ho by (now rewrite nth_error_map, Hk).
    rewrite nth_error_map, Ho. cbn [option_map].
    now rewrite (sample_at_own_position ds k s Hk).
Qed.

Lemma sample_on_axis_is_kept_witness :
  exists column,
    reindex (waveHs_frame dataset_B "B") [1000; 1500; 2000; 2500] 3 =
    Ok {| index := [1000; 1500; 2000; 2500]; columns := [("B"%string, column)] |} /\
    nth_error column 1 = Some (Some ((3 # 1) * feet_per_metre)%Q) /\
    nth_error column 3 = Some (Some ((1 # 2) * feet_per_metre)%Q).
Proof.
  destruct (sample_on_axis_is_kept dataset_B "B" [1000; 1500; 2000; 2500]
              eq_refl eq_refl eq_refl) as [column [R H]].
  exists column. split; [exact R|]. split.
  - exact (H 1%nat 0%nat (mkWave 1500 (3 # 1)) eq_refl eq_refl).
  - exact (H 3%nat 1%nat (mkWave 2500 (1 # 2)) eq_refl eq_refl).
Defined.

(** ** plot_buoy: when it raises and what it draws *)

(** X2: on a dataset whose wave times are in non-decreasing order, and with
    clock readings that [datetime64] can hold, [plot_buoy] raises exactly
    when it is asked for the maximum (a truthy [max_hs]) and no wave sample
    lies in the 10-day interval cut by its first two clock readings; the
    exception is then ValueError, raised after those two readings and
    before anything of the 1-day window is read. *)
Theorem plot_buoy_raises_iff (env : Env) (ds : RawDataset) (ax : Axes)
    (max_hs : PyVal) (w : World)
    (Hord : is_monotonic_increasing (map waveTime (wave ds)) = true)
    (Hclock : clock_in_range env) :
  ((exists e w', plot_buoy env ds ax max_hs w = (Raise e, w')) <->
   (truthy max_hs = true /\ wave (trend_window env (ticks w) ds) = [])) /\
  (forall e w',
     plot_buoy env ds ax max_hs w = (Raise e, w') ->
     e = ValueError /\
     w' = {| requests := requests w; ticks := S (S (ticks w)) |}).
Proof.
  unfold plot_buoy, trend_window, bind, now, lift, ret.
  cbn [requests ticks tz_localize tz_convert to_pandas_waveTime index_tz].
  destruct (truthy max_hs) eqn:Hflag.
  - destruct (wave (sel_waveTime ds _ _)) as [|s l] eqn:Hw; cbn [map np_max].
    + split.
      * split; [intros _; now split | intros _; now do 2 eexists].
      * intros e w' H. injection H as <- <-. now split.
    + cbn [truthy]. split.
      * split; [intros [e [w' H]] | intros [_ H]; discriminate].
        destruct (negb _); discriminate.
      * intros e w' H. destruct (negb _); discriminate.
  - rewrite Hflag. split.
    + split; [intros [e [w' H]]; discriminate | intros [H _]; discriminate].
    + intros e w' H. discriminate.
Qed.

Lemma archive_all_online_clock : clock_in_range archive_all_online.
Proof. intro c. cbn. unfold datetime64_min, datetime64_max, days. lia. Qed.

Lemma plot_buoy_raises_iff_witness :
  is_monotonic_increasing (map waveTime (wave dataset_A)) = true /\
  clock_in_range archive_all_online /\
  ((exists e w',
      plot_buoy archive_all_online dataset_A [] (PyBool true) fresh_world
      = (Raise e, w')) <->
   (truthy (PyBool true) = true /\
    wave (trend_window archive_all_online (ticks fresh_world) dataset_A) = [])) /\
  (forall e w',
     plot_buoy archive_all_online dataset_A [] (PyBool true) fresh_world
     = (Raise e, w') ->
     e = ValueError /\
     w' = {| requests := requests fresh_world;
             ticks := S (S (ticks fresh_world)) |}).
Proof.
  split; [reflexivity|]. split; [exact archive_all_online_clock|].
  exact (plot_buoy_raises_iff archive_all_online dataset_A []
           (PyBool true) fresh_world eq_refl archive_all_online_clock).
Defined.






(** X4: a 10-day maximum of exactly zero is falsy, so [plot_buoy] hands back
    a pair and the three-way unpacking in [make_timeseries_plots] raises
    ValueError: when that happens at the first station of a roster of two
    or more (its wave times in order, the clock within range), the builder
    stops after that station's request and four clock readings, and no
    panel is returned. *)
Theorem zero_maximum_aborts_panels (env : Env) (key value : string)
    (rest : buoy_lookup) (w : World) (ds : RawDataset) (m : Q)
    (Hrest : rest <> [])
    (Hclock : clock_in_range env)
    (Hfirst : open_dataset env (List.length (requests w)) (request_url value)
              = Ok ds)
    (Hord : is_monotonic_increasing (map waveTime (wave ds)) = true)
    (Hmax : period_maximum env (ticks w) ds = Ok m)
    (Hzero : (m == 0)%Q) :
  make_timeseries_plots env ((key, value) :: rest) w =
  (Raise ValueError,
   {| requests := requests w ++ [request_url value];
      ticks := S (S (S (S (ticks w)))) |}).
Proof.
  destruct rest as [|item rest]; [contradiction|].
  unfold make_timeseries_plots. unfold bind at 1, lift.
  cbn [List.length plt_subplots make_timeseries_plots_loop].
  rewrite bind_get_buoy_data, Hfirst. cbn [fetched].
  unfold bind at 1, lift. cbn [subscript Nat.ltb Nat.leb].
  unfold bind at 1. rewrite plot_buoy_run. cbn [ticks requests].
  rewrite Hmax. cbn zeta.
  apply Qeq_bool_iff in Hzero. rewrite Hzero. reflexivity.
Qed.

Lemma zero_maximum_aborts_panels_witness :
  let env := {| open_dataset := fun _ _ => Ok {| wave := [mkWave 2900 (0 # 1)];
                                                 gps := [] |};
                datetime_now := fun _ => 3000 |} in
  make_timeseries_plots env roster_AB fresh_world =
  (Raise ValueError, {| requests := [request_url "001"]; ticks := 4 |}).
Proof.
  intro env.
  apply (zero_maximum_aborts_panels env "A" "001" [("B", "002")%string]
           fresh_world {| wave := [mkWave 2900 (0 # 1)]; gps := [] |}
           ((0 # 1) / feet_per_metre_inv)%Q).
  - discriminate.
  - intro c. cbn. unfold datetime64_min, datetime64_max, days. lia.
  - reflexivity.
  - reflexivity.
  - vm_compute. reflexivity.
  - vm_compute. reflexivity.
Defined.




(** ** The shape of the density frame *)

Lemma set_column_fresh (key : string) (arr : list (option Q))
    (cols : list (string * list (option Q))) :
  ~ In key (map fst cols) -> set_column key arr cols = cols ++ [(key, arr)].
Proof.
  induction cols as [|[k v] cols IH]; intro H; [reflexivity|].
  cbn [set_column]. destruct (String.eqb_spec k key) as [->|_].
  - exfalso. apply H. now left.
  - cbn. f_equal. apply IH. intro Hin. apply H. now right.
Qed.

Lemma make_density_plots_loop_no_tick (env : Env) (items : buoy_lookup) :
  forall i vars w,
    ticks (snd (make_density_plots_loop env i items vars w)) = ticks w.
Proof.
  induction items as [|[key value] items IH]; intros i vars w; [reflexivity|].
  cbn [make_density_plots_loop]. rewrite bind_get_buoy_data.
  destruct (fetched _) as [ds|]; destruct (i =? 0)%nat; try reflexivity.
  - now rewrite IH.
  - destruct vars as [[df ix]|]; [|reflexivity].
    unfold bind at 1, lift.
    destruct (reindex _ ix 3); [now rewrite IH | reflexivity].
Qed.

Lemma make_density_plots_loop_columns (env : Env) (items : buoy_lookup) :
  forall i df df_index w vars' w',
    i <> 0%nat ->
    make_density_plots_loop env i items (Some (df, df_index)) w = (Ok vars', w') ->
    NoDup (map fst (columns df) ++ map fst items) ->
    exists df' added,
      vars' = Some (df', df_index) /\
      index df' = index df /\
      columns df' = columns df ++ added /\
      map fst added = map fst items.
Proof.
  induction items as [|[key value] items IH]; intros i df ix w vars' w' Hi H Hnd.
  - cbn in H. injection H as <- <-. exists df, []. now rewrite app_nil_r.
  - cbn [make_density_plots_loop] in H. rewrite bind_get_buoy_data in H.
    destruct (Nat.eqb_spec i 0) as [|_]; [contradiction|].
    destruct (fetched _) as [ds|]; [|discriminate].
    unfold bind at 1, lift in H.
    destruct (reindex (waveHs_frame ds key) ix 3) as [aligned|e]; [|discriminate].
    cbn [map fst] in Hnd.
    assert (Hfresh : ~ In key (map fst (columns df))).
    { apply NoDup_remove_2 in Hnd. intro Hin. apply Hnd.
      apply in_or_app. now left. }
    apply IH in H; [|discriminate|].
    + destruct H as [df' [added [-> [Hix [Hcols Hnames]]]]].
      exists df'. eexists. split; [reflexivity|]. split; [exact Hix|].
      rewrite Hcols. unfold setitem. cbn [columns].
      rewrite set_column_fresh by exact Hfresh.
      rewrite <- app_assoc. split; [reflexivity|]. cbn. now rewrite Hnames.
    + unfold setitem. cbn [columns]. rewrite set_column_fresh by exact Hfresh.
      rewrite map_app. cbn [map fst]. rewrite <- app_assoc. cbn [app].
      apply NoDup_remove_1 in Hnd as Hnd1.
      apply NoDup_remove_2 in Hnd as Hnd2.
      clear - Hnd Hfresh.
      rewrite <- (app_nil_l (key :: map fst items)).
      replace (map fst (columns df) ++ [] ++ key :: map fst items)
        with (map fst (columns df) ++ key :: map fst items) by reflexivity.
      exact Hnd.
Qed.

Lemma boolean_mask_map {A B} (f : A -> bool) (g : A -> B) (l : list A) :
  boolean_mask (map f l) (map g l) = map g (filter f l).
Proof.
  induction l as [|x l IH]; [reflexivity|].
  cbn [map boolean_mask filter]. destruct (f x); cbn [map]; now rewrite IH.
Qed.

(** What the loop of the density builder leaves in [df]. *)
Lemma make_density_plots_loop_shape (env : Env) (key value : string)
    (rest : buoy_lookup) (w : World) (vars : option (DataFrame * list Z))
    (w1 : World) :
  make_density_plots_loop env 0%nat ((key, value) :: rest) None w = (Ok vars, w1) ->
  exists ds df0,
    open_dataset env (List.length (requests w)) (request_url value) = Ok ds /\
    vars = Some (df0, map waveTime (wave ds)) /\
    ticks w1 = ticks w /\
    index df0 = map waveTime (wave ds) /\
    column_lengths_agree df0 /\
    (NoDup (map fst ((key, value) :: rest)) ->
     exists added,
       columns df0 =
       (key, map (fun s => Some (waveHs s * feet_per_metre)%Q) (wave ds)) :: added /\
       map fst added = map fst rest).
Proof.
  intro L. cbn [make_density_plots_loop] in L. rewrite bind_get_buoy_data in L.
  destruct (open_dataset env (List.length (requests w)) (request_url value))
    as [ds|e]; [|discriminate].
  cbn [fetched Nat.eqb] in L.
  pose proof (make_density_plots_loop_no_tick env rest 1
                (Some (waveHs_frame ds key, index (waveHs_frame ds key)))
                {| requests := requests w ++ [request_url value];
                   ticks := ticks w |}) as Htick.
  rewrite L in Htick. cbn [snd ticks] in Htick.
  pose proof (make_density_plots_loop_ok _ _ _ _ _ _ _ L
                (conj eq_refl (waveHs_frame_lengths ds key)))
    as [_ [Hok _]].
  assert (H1 : 1%nat <> 0%nat) by discriminate.
  pose proof (make_density_plots_loop_axis _ _ _ _ _ _ _ _ H1 L)
    as [_ [df0 [-> Hix]]].
  exists ds, df0. destruct Hok as [_ Hlen].
  repeat split; try assumption.
  intro Hnd.
  destruct (make_density_plots_loop_columns _ _ _ _ _ _ _ _ H1 L Hnd)
    as [df1 [added [E [_ [Hc Hn]]]]].
  injection E as <-. exists added. now split.
Qed.

(** What a returned density frame is made of. *)
Lemma make_density_plots_shape (env : Env) (key value : string)
    (rest : buoy_lookup) (w : World) (df : DataFrame) (w' : World) :
  make_density_plots env ((key, value) :: rest) w = (Ok df, w') ->
  exists ds df0,
    open_dataset env (List.length (requests w)) (request_url value) = Ok ds /\
    ticks w' = S (ticks w) /\
    df = rows_after df0 (datetime_now env (ticks w) - days 30) /\
    index df0 = map waveTime (wave ds) /\
    column_lengths_agree df0 /\
    (NoDup (map fst ((key, value) :: rest)) ->
     exists added,
       columns df0 =
       (key, map (fun s => Some (waveHs s * feet_per_metre)%Q) (wave ds)) :: added /\
       map fst added = map fst rest) /\
    joyplot df = Ok tt.
Proof.
  rewrite make_density_plots_unfold. intro Hrun.
  destruct (make_density_plots_loop env 0 ((key, value) :: rest) None w)
    as [[vars|e] w1] eqn:L; [|discriminate].
  destruct (make_density_plots_loop_shape _ _ _ _ _ _ _ L)
    as [ds [df0 [Hds [-> [Ht [Hix [Hlen Hcols]]]]]]].
  cbn zeta in Hrun.
  destruct (joyplot _) as [[]|e] eqn:J; [|discriminate].
  injection Hrun as <- <-. exists ds, df0. cbn [ticks]. rewrite Ht in *.
  repeat split; assumption.
Qed.

(** X8: for a roster with distinct display names, the frame the density
    builder returns has exactly one column per roster entry, named after the
    entries in roster order. *)
Theorem density_columns_follow_roster (env : Env) (buoy_lookup : buoy_lookup)
    (w : World) (df : DataFrame) (w' : World)
    (Hrun : make_density_plots env buoy_lookup w = (Ok df, w'))
    (Hnames : NoDup (map fst buoy_lookup)) :
  map fst (columns df) = map fst buoy_lookup.
Proof.
  destruct buoy_lookup as [|[key value] rest]; [discriminate|].
  destruct (make_density_plots_shape _ _ _ _ _ _ _ Hrun)
    as [ds [df0 [_ [_ [-> [_ [_ [Hcols _]]]]]]]].
  destruct (Hcols Hnames) as [added [Hc Hn]].
  unfold rows_after. cbn [columns]. rewrite Hc, map_map. cbn [map fst].
  f_equal. rewrite <- Hn. apply map_ext. reflexivity.
Qed.

Lemma density_columns_follow_roster_witness :
  exists df w',
    make_density_plots archive_all_online roster_AB fresh_world = (Ok df, w') /\
    NoDup (map fst roster_AB) /\
    map fst (columns df) = map fst roster_AB.
Proof.
  let v := eval vm_compute in
             (make_density_plots archive_all_online roster_AB fresh_world) in
  match v with
  | (Ok ?d, ?w1) =>
      exists d, w1;
      assert (Hrun : make_density_plots archive_all_online roster_AB fresh_world
                     = (Ok d, w1)) by (vm_compute; reflexivity);
      assert (Hnd : NoDup (map fst roster_AB))
        by (repeat constructor; cbn; intuition discriminate);
      split; [exact Hrun | split; [exact Hnd|]];
      exact (density_columns_follow_roster _ _ _ _ _ Hrun Hnd)
  end.
Defined.

(** X9: the rows of a returned density frame are exactly the reference
    station's samples later than today minus 30 days, today being the one
    clock reading the builder takes, after all fetches: the index holds
    their times and, for a roster with distinct names, the first column is
    the reference station's and holds their heights times 3.28084 with
    nothing missing. *)
Theorem density_rows_are_recent_reference_samples (env : Env)
    (key value : string) (rest : buoy_lookup) (w : World) (df : DataFrame)
    (w' : World)
    (Hrun : make_density_plots env ((key, value) :: rest) w = (Ok df, w'))
    (Hnames : NoDup (map fst ((key, value) :: rest))) :
  exists ds others,
    open_dataset env (List.length (requests w)) (request_url value) = Ok ds /\
    ticks w' = S (ticks w) /\
    index df =
    map waveTime (samples_after ds (datetime_now env (ticks w) - days 30)) /\
    columns df =
    (key, map (fun s => Some (waveHs s * feet_per_metre)%Q)
            (samples_after ds (datetime_now env (ticks w) - days 30))) :: others.
Proof.
  destruct (make_density_plots_shape _ _ _ _ _ _ _ Hrun)
    as [ds [df0 [Hds [Ht [-> [Hix [_ [Hcols _]]]]]]]].
  destruct (Hcols Hnames) as [added [Hc _]].
  exists ds. eexists. repeat split; try assumption.
  - unfold rows_after, samples_after. cbn [index]. rewrite Hix.
    rewrite map_map. apply (boolean_mask_map (fun s => waveTime s >? _) waveTime).
  - unfold rows_after, samples_after. cbn [columns]. rewrite Hc, Hix.
    cbn [map fst snd]. rewrite map_map.
    rewrite (boolean_mask_map (fun s => waveTime s >? _)). reflexivity.
Qed.

Lemma density_rows_are_recent_reference_samples_witness :
  exists df w' ds others,
    make_density_plots archive_all_online roster_AB fresh_world = (Ok df, w') /\
    open_dataset archive_all_online 0 (request_url "001") = Ok ds /\
    index df = map waveTime (samples_after ds (3000 - days 30)) /\
    columns df =
    ("A"%string, map (fun s => Some (waveHs s * feet_per_metre)%Q)
                   (samples_after ds (3000 - days 30))) :: others.
Proof.
  let v := eval vm_compute in
             (make_density_plots archive_all_online roster_AB fresh_world) in
  match v with
  | (Ok ?d, ?w1) =>
      assert (Hrun : make_density_plots archive_all_online
                       (("A", "001") :: [("B", "002")])%string fresh_world
                     = (Ok d, w1)) by (vm_compute; reflexivity);
      assert (Hnd : NoDup (map fst ((("A", "001") :: [("B", "002")])%string)))
        by (repeat constructor; cbn; intuition discriminate);
      destruct (density_rows_are_recent_reference_samples _ _ _ _ _ _ _ Hrun Hnd)
        as [ds [others [H1 [_ [H3 H4]]]]];
      exists d, w1, ds, others; repeat split; assumption
  end.
Defined.

(** ** When the builders fail *)

Lemma make_density_plots_loop_total_online (env : Env)
    (Hord : every_dataset_time_ordered env) (items : buoy_lookup) :
  forall i vars w,
    Forall (fun a => status_of a = Online)
      (answers env (List.length (requests w)) items) ->
    (i = 0%nat \/
     exists df df_index,
       vars = Some (df, df_index) /\ is_monotonic_increasing df_index = true) ->
    exists vars' w', make_density_plots_loop env i items vars w = (Ok vars', w').
Proof.
  induction items as [|[key value] items IH]; intros i vars w Hall Hinv.
  - do 2 eexists. reflexivity.
  - cbn [make_density_plots_loop]. rewrite bind_get_buoy_data.
    cbn [answers] in Hall. inversion Hall as [|? ? Hhead Htail]; subst.
    destruct (open_dataset env (List.length (requests w)) (request_url value))
      as [ds|e] eqn:E; [|discriminate].
    destruct (Hord _ _ _ E) as [Hu Hm]. cbn [fetched].
    assert (Htail' : Forall (fun a => status_of a = Online)
                       (answers env
                          (List.length
                             (requests {| requests := requests w ++ [request_url value];
                                          ticks := ticks w |})) items))
      by (cbn [requests]; now rewrite length_snoc).
    destruct (Nat.eqb_spec i 0) as [->|Hi].
    + apply IH; [exact Htail'|]. right. do 2 eexists.
      split; [reflexivity | exact Hm].
    + destruct Hinv as [Hi0|[df [df_index [-> Hix]]]]; [contradiction|].
      unfold bind at 1, lift.
      destruct (reindex_total (waveHs_frame ds key) df_index 3 Hu Hm Hix)
        as [aligned ->].
      apply IH; [exact Htail'|]. right. do 2 eexists.
      split; [reflexivity | exact Hix].
Qed.

Lemma no_numbers_empty (c : string * list (option Q)) :
  snd c = [] -> no_numbers c = true.
Proof. unfold no_numbers. now intros ->. Qed.

Lemma remove_na_some (h : WaveSample -> Q) (l : list WaveSample) :
  remove_na (map (fun s => Some (h s)) l) = map h l.
Proof. induction l as [|s l IH]; cbn; [reflexivity | now rewrite IH]. Qed.

(** A frame without rows has no number to draw. *)
Lemma joyplot_rowless (df : DataFrame) :
  column_lengths_agree df -> index df = [] -> joyplot df = Raise ValueError.
Proof.
  unfold column_lengths_agree, joyplot. intros Hlen Hix. rewrite Hix in Hlen.
  assert (Hall : forallb no_numbers (columns df) = true).
  { apply forallb_forall. intros c Hc. apply no_numbers_empty.
    rewrite Forall_forall in Hlen. specialize (Hlen c Hc).
    now apply length_zero_iff_nil. }
  now rewrite Hall.
Qed.

(** The rows the builder keeps of the frame its loop has built. *)
Lemma rows_after_reference (ds : RawDataset) (df0 : DataFrame) (t : Z)
    (key : string) (added : list (string * list (option Q))) :
  index df0 = map waveTime (wave ds) ->
  index (rows_after df0 t) = map waveTime (samples_after ds t) /\
  (columns df0 =
   (key, map (fun s => Some (waveHs s * feet_per_metre)%Q) (wave ds)) :: added ->
   exists others,
     columns (rows_after df0 t) =
     (key, map (fun s => Some (waveHs s * feet_per_metre)%Q) (samples_after ds t))
       :: others).
Proof.
  intro Hix. unfold rows_after, samples_after. cbn [index columns].
  rewrite Hix, map_map. split.
  - apply (boolean_mask_map (fun s => waveTime s >? t) waveTime).
  - intros ->. cbn [map fst snd]. eexists.
    rewrite (boolean_mask_map (fun s => waveTime s >? t)). reflexivity.
Qed.

(** A frame the density builder returns has rows: the reference station has
    a sample later than the cutoff. *)
Lemma returned_frame_has_rows (env : Env) (key value : string)
    (rest : buoy_lookup) (w : World) (df : DataFrame) (w' : World)
    (ds : RawDataset) :
  make_density_plots env ((key, value) :: rest) w = (Ok df, w') ->
  open_dataset env (List.length (requests w)) (request_url value) = Ok ds ->
  samples_after ds (datetime_now env (ticks w) - days 30) <> [].
Proof.
  intros Hrun Hfirst Hstale.
  destruct (make_density_plots_shape _ _ _ _ _ _ _ Hrun)
    as [ds' [df0 [Hds [_ [-> [Hix [Hlen [_ Hjoy]]]]]]]].
  rewrite Hfirst in Hds. injection Hds as <-.
  rewrite joyplot_rowless in Hjoy; [discriminate | |].
  - now apply rows_after_lengths.
  - rewrite (proj1 (rows_after_reference ds df0 _ key [] Hix)), Hstale.
    reflexivity.
Qed.

(** X10: a reference station without a recent sample stops the density
    figure.  When the dataset of the first roster station has no wave
    sample later than today minus 30 days (in particular when it has none
    at all), the density builder never returns a frame; and when the other
    fetches succeed on time-ordered data and the clock is within range,
    what stops it is [joyplot], which is handed a frame without rows and
    raises ValueError after the builder has fetched every station and read
    the clock. *)
Theorem stale_reference_station_aborts_density (env : Env) (key value : string)
    (rest : buoy_lookup) (w : World) (ds : RawDataset)
    (Hfirst : open_dataset env (List.length (requests w)) (request_url value)
              = Ok ds)
    (Hstale : samples_after ds (datetime_now env (ticks w) - days 30) = []) :
  (exists e w', make_density_plots env ((key, value) :: rest) w = (Raise e, w')) /\
  (every_dataset_time_ordered env ->
   clock_in_range env ->
   Forall (fun a => status_of a = Online)
     (answers env (S (List.length (requests w))) rest) ->
   make_density_plots env ((key, value) :: rest) w =
   (Raise ValueError,
    {| requests := requests w ++ roster_urls ((key, value) :: rest);
       ticks := S (ticks w) |})).
Proof.
  split.
  - destruct (make_density_plots env ((key, value) :: rest) w) as [[df|e] w'] eqn:E;
      [|now exists e, w'].
    exfalso. exact (returned_frame_has_rows _ _ _ _ _ _ _ _ E Hfirst Hstale).
  - intros Hord _ Hall.
    assert (Hall' : Forall (fun a => status_of a = Online)
                      (answers env (List.length (requests w)) ((key, value) :: rest))).
    { cbn [answers]. constructor; [now rewrite Hfirst | exact Hall]. }
    destruct (make_density_plots_loop_total_online env Hord ((key, value) :: rest)
                0%nat None w Hall' (or_introl eq_refl)) as [vars [w1 L]].
    rewrite make_density_plots_unfold, L.
    destruct (make_density_plots_loop_ok _ _ _ _ _ _ _ L I) as [Hw _].
    destruct (make_density_plots_loop_shape _ _ _ _ _ _ _ L)
      as [ds' [df0 [Hds [-> [Ht [Hix [Hlen _]]]]]]].
    rewrite Hfirst in Hds. injection Hds as <-.
    cbn zeta. rewrite joyplot_rowless.
    + rewrite Hw, Ht. reflexivity.
    + now apply rows_after_lengths.
    + rewrite (proj1 (rows_after_reference ds df0 _ key [] Hix)), Ht, Hstale.
      reflexivity.
Qed.

Lemma stale_reference_station_aborts_density_witness :
  let env := {| open_dataset := fun k url =>
                  if (k =? 0)%nat then Ok {| wave := []; gps := [] |}
                  else Ok dataset_B;
                datetime_now := fun _ => 3000 |} in
  make_density_plots env roster_AB fresh_world =
  (Raise ValueError,
   {| requests := [request_url "001"; request_url "002"]; ticks := 1 |}).
Proof.
  intro env.
  apply (stale_reference_station_aborts_density env "A" "001"
           [("B", "002")%string] fresh_world {| wave := []; gps := [] |}
           eq_refl eq_refl).
  - intros k url ds H. cbn in H.
    destruct (k =? 0)%nat; injection H as <-; split; reflexivity.
  - intro c. cbn. unfold datetime64_min, datetime64_max, days. lia.
  - repeat constructor.
Defined.

(** X11: for a roster with distinct names, on an archive whose datasets have
    strictly increasing wave times and with the clock within range, the
    density builder returns a frame exactly when the roster is not empty, every fetch of its pass succeeds
    and the first station has a sample later than today minus 30 days;
    an empty roster, a single failed fetch or a stale first station makes
    it raise. *)
Theorem density_builder_returns_iff (env : Env) (buoy_lookup : buoy_lookup)
    (w : World) (Hord : every_dataset_time_ordered env)
    (Hclock : clock_in_range env)
    (Hnames : NoDup (map fst buoy_lookup)) :
  (exists df w', make_density_plots env buoy_lookup w = (Ok df, w')) <->
  (exists key value rest ds,
     buoy_lookup = (key, value) :: rest /\
     open_dataset env (List.length (requests w)) (request_url value) = Ok ds /\
     samples_after ds (datetime_now env (ticks w) - days 30) <> [] /\
     Forall (fun a => status_of a = Online)
       (answers env (List.length (requests w)) buoy_lookup)).
Proof.
  split.
  - intros [df [w' H]].
    destruct buoy_lookup as [|[key value] rest]; [discriminate|].
    destruct (make_density_plots_shape _ _ _ _ _ _ _ H) as [ds [_ [Hds _]]].
    exists key, value, rest, ds. repeat split.
    + exact Hds.
    + exact (returned_frame_has_rows _ _ _ _ _ _ _ _ H Hds).
    + now destruct (make_density_plots_ok _ _ _ _ _ H) as [_ [_ Hall]].
  - intros [key [value [rest [ds [-> [Hds [Hrows Hall]]]]]]].
    destruct (make_density_plots_loop_total_online env Hord ((key, value) :: rest)
                0%nat None w Hall (or_introl eq_refl)) as [vars [w1 L]].
    rewrite make_density_plots_unfold, L.
    destruct (make_density_plots_loop_shape _ _ _ _ _ _ _ L)
      as [ds' [df0 [Hds' [-> [Ht [Hix [_ Hcols]]]]]]].
    rewrite Hds in Hds'. injection Hds' as <-.
    destruct (Hcols Hnames) as [added [Hc _]].
    destruct (proj2 (rows_after_reference ds df0
                       (datetime_now env (ticks w1) - days 30) key added Hix) Hc)
      as [others Hrecent].
    cbn zeta. unfold joyplot. rewrite Hrecent. cbn [forallb].
    unfold no_numbers at 1. cbn [snd]. rewrite remove_na_some, Ht.
    destruct (samples_after ds (datetime_now env (ticks w) - days 30));
      [contradiction|].
    cbn [map andb]. now do 2 eexists.
Qed.

Lemma archive_all_online_time_ordered :
  every_dataset_time_ordered archive_all_online.
Proof.
  intros k url ds H. cbn in H. injection H as <-. unfold dataset_for.
  destruct (String.eqb url _); split; reflexivity.
Qed.

Lemma roster_AB_distinct : NoDup (map fst roster_AB).
Proof.
  cbn. constructor; [|constructor; [|constructor]]; cbn; intuition discriminate.
Qed.

Lemma density_builder_returns_iff_witness :
  every_dataset_time_ordered archive_all_online /\
  clock_in_range archive_all_online /\
  NoDup (map fst roster_AB) /\
  ((exists df w',
      make_density_plots archive_all_online roster_AB fresh_world = (Ok df, w')) <->
   (exists key value rest ds,
      roster_AB = (key, value) :: rest /\
      open_dataset archive_all_online (List.length (requests fresh_world))
        (request_url value) = Ok ds /\
      samples_after ds (datetime_now archive_all_online (ticks fresh_world)
                        - days 30) <> [] /\
      Forall (fun a => status_of a = Online)
        (answers archive_all_online (List.length (requests fresh_world))
           roster_AB))).
Proof.
  split; [exact archive_all_online_time_ordered|].
  split; [exact archive_all_online_clock|].
  split; [exact roster_AB_distinct|].
  exact (density_builder_returns_iff archive_all_online roster_AB fresh_world
           archive_all_online_time_ordered archive_all_online_clock
           roster_AB_distinct).
Defined.

Lemma isel_last_empty_iff (fixes : list GpsFix) :
  (exists g, isel_last fixes = Ok g) \/ (fixes = [] /\ isel_last fixes = Raise IndexError).
Proof.
  destruct fixes as [|a l]; [now right|].
  left. destruct (isel_last_some (a :: l) ltac:(discriminate)) as [? [g [_ H]]].
  now exists g.
Qed.

Lemma get_station_locations_loop_outcome (env : Env) (items : buoy_lookup) :
  forall station_name lats lons w,
    (Exists lacks_gps_fix (answers env (List.length (requests w)) items) /\
     exists w', get_station_locations_loop env items station_name lats lons w
                = (Raise IndexError, w')) \/
    (~ Exists lacks_gps_fix (answers env (List.length (requests w)) items) /\
     exists r w', get_station_locations_loop env items station_name lats lons w
                  = (Ok r, w')).
Proof.
  induction items as [|[key value] items IH]; intros names lats lons w.
  - right. split; [intro H; inversion H | now do 2 eexists].
  - cbn [get_station_locations_loop answers]. rewrite bind_get_buoy_data.
    assert (Hnext : forall names' lats' lons',
               (Exists lacks_gps_fix
                  (answers env (S (List.length (requests w))) items) /\
                exists w', get_station_locations_loop env items names' lats' lons'
                             {| requests := requests w ++ [request_url value];
                                ticks := ticks w |} = (Raise IndexError, w')) \/
               (~ Exists lacks_gps_fix
                    (answers env (S (List.length (requests w))) items) /\
                exists r w', get_station_locations_loop env items names' lats' lons'
                               {| requests := requests w ++ [request_url value];
                                  ticks := ticks w |} = (Ok r, w'))).
    { intros names' lats' lons'.
      specialize (IH names' lats' lons'
                    {| requests := requests w ++ [request_url value];
                       ticks := ticks w |}).
      cbn [requests] in IH. now rewrite length_snoc in IH. }
    destruct (open_dataset env (List.length (requests w)) (request_url value))
      as [ds|e] eqn:E; cbn [fetched].
    + unfold bind at 1, lift.
      destruct (isel_last_empty_iff (gps ds)) as [[g Hg]|[Hempty Hg]]; rewrite Hg.
      * unfold bind at 1.
        assert (Hhead : ~ lacks_gps_fix (Ok ds)).
        { intros [ds' [Heq Hgps]]. injection Heq as <-.
          rewrite Hgps in Hg. discriminate. }
        destruct (Hnext (names ++ [key]) (lats ++ [Some (gpsLatitude g)])
                    (lons ++ [Some (gpsLongitude g)])) as [[Hex Hr]|[Hnex Hr]].
        -- left. split; [now apply Exists_cons_tl | exact Hr].
        -- right. split; [|exact Hr].
           intro H. inversion H; subst; contradiction.
      * left. split; [|now eexists].
        apply Exists_cons_hd. now exists ds.
    + assert (Hhead : ~ lacks_gps_fix (Raise e))
        by (intros [ds' [Heq _]]; discriminate).
      destruct (Hnext (names ++ [key]) (lats ++ [None]) (lons ++ [None]))
        as [[Hex Hr]|[Hnex Hr]].
      * left. split; [now apply Exists_cons_tl | exact Hr].
      * right. split; [|exact Hr].
        intro H. inversion H; subst; contradiction.
Qed.

(** X12: the position builder raises exactly when one of the datasets it
    fetches has an empty GPS axis, and the exception is then IndexError; a
    failed fetch never makes it raise. *)
Theorem station_locations_raise_iff (env : Env) (buoy_lookup : buoy_lookup)
    (w : World) :
  ((exists e w', get_station_locations env buoy_lookup w = (Raise e, w')) <->
   Exists lacks_gps_fix (answers env (List.length (requests w)) buoy_lookup)) /\
  (forall e w', get_station_locations env buoy_lookup w = (Raise e, w') ->
                e = IndexError).
Proof.
  unfold get_station_locations.
  destruct (get_station_locations_loop_outcome env buoy_lookup [] [] [] w)
    as [[Hex [w1 Hr]]|[Hnex [r [w1 Hr]]]]; rewrite Hr.
  - split.
    + split; [intros _; exact Hex | intros _; now do 2 eexists].
    + intros e w' H. now injection H as <- _.
  - split.
    + split; [intros [e [w' H]]; discriminate | intro; contradiction].
    + intros e w' H. discriminate.
Qed.

(** ** An archive that is down *)

Lemma archive_down_fetch (env : Env) (Hdown : archive_down env) (k : nat)
    (url : string) :
  fetched (open_dataset env k url) = None.
Proof. destruct (Hdown k url) as [e ->]. reflexivity. Qed.

Lemma make_timeseries_plots_loop_down (env : Env) (Hdown : archive_down env)
    (nrows : nat) (items : buoy_lookup) :
  forall i ax w,
    (i + List.length items <= nrows)%nat ->
    make_timeseries_plots_loop env (AxesArray nrows) i items ax w =
    (Ok (ax ++ map placeholder items),
     {| requests := requests w ++ roster_urls items; ticks := ticks w |}).
Proof.
  induction items as [|[key value] items IH]; intros i ax w Hi.
  - cbn. unfold ret. rewrite !app_nil_r. destruct w; reflexivity.
  - cbn [make_timeseries_plots_loop]. rewrite bind_get_buoy_data.
    unfold bind at 1, lift. cbn [subscript List.length] in *.
    destruct (Nat.ltb_spec i nrows); [|lia].
    rewrite (archive_down_fetch env Hdown). rewrite IH by lia.
    cbn [requests ticks map roster_urls placeholder fst snd].
    now rewrite !app_snoc_assoc.
Qed.

Lemma get_station_locations_loop_down (env : Env) (Hdown : archive_down env)
    (items : buoy_lookup) :
  forall station_name lats lons w,
    get_station_locations_loop env items station_name lats lons w =
    (Ok (station_name ++ map fst items,
         lats ++ repeat None (List.length items),
         lons ++ repeat None (List.length items)),
     {| requests := requests w ++ roster_urls items; ticks := ticks w |}).
Proof.
  induction items as [|[key value] items IH]; intros names lats lons w.
  - cbn. unfold ret. rewrite !app_nil_r. destruct w; reflexivity.
  - cbn [get_station_locations_loop]. rewrite bind_get_buoy_data.
    rewrite (archive_down_fetch env Hdown). rewrite IH.
    cbn [requests ticks map roster_urls fst snd List.length repeat].
    now rewrite !app_snoc_assoc.
Qed.

(** X13: when the archive fails every request and the roster has at least
    two stations, the time-series builder still returns one placeholder
    panel per roster entry, in roster order, and the position builder
    returns every name with both coordinates missing, neither reading the
    clock; the density builder then raises, so the script as a whole ends
    in TypeError. *)
Theorem archive_down_run (env : Env) (buoy_lookup : buoy_lookup) (w : World)
    (Hdown : archive_down env)
    (Hsize : (2 <= List.length buoy_lookup)%nat) :
  make_timeseries_plots env buoy_lookup w =
  (Ok (map placeholder buoy_lookup),
   {| requests := requests w ++ roster_urls buoy_lookup; ticks := ticks w |}) /\
  get_station_locations env buoy_lookup w =
  (Ok (map fst buoy_lookup,
       repeat None (List.length buoy_lookup),
       repeat None (List.length buoy_lookup)),
   {| requests := requests w ++ roster_urls buoy_lookup; ticks := ticks w |}) /\
  exists w', main env buoy_lookup w = (Raise TypeError, w').
Proof.
  assert (Hts : make_timeseries_plots env buoy_lookup w =
                (Ok (map placeholder buoy_lookup),
                 {| requests := requests w ++ roster_urls buoy_lookup;
                    ticks := ticks w |})).
  { unfold make_timeseries_plots. unfold bind at 1, lift.
    destruct buoy_lookup as [|a [|b rest]]; cbn [List.length] in Hsize; try lia.
    cbn [List.length plt_subplots].
    rewrite (make_timeseries_plots_loop_down env Hdown _ _ 0%nat [])
      by (cbn [List.length]; lia).
    reflexivity. }
  assert (Hloc := fun w0 =>
            get_station_locations_loop_down env Hdown buoy_lookup [] [] [] w0).
  cbn [app] in Hloc.
  split; [exact Hts|]. split; [apply Hloc|].
  unfold main, make_buoy_map, get_station_locations.
  unfold bind at 1. rewrite Hts.
  unfold bind at 1. rewrite Hloc.
  unfold bind at 1.
  destruct buoy_lookup as [|[key value] rest]; [cbn in Hsize; lia|].
  rewrite first_offline_raises; [now eexists|].
  match goal with
  | |- status_of (open_dataset env ?k ?u) = _ =>
      destruct (Hdown k u) as [e ->]
  end.
  reflexivity.
Qed.

Lemma archive_down_run_witness :
  let env := {| open_dataset := fun _ _ => Raise OSError;
                datetime_now := fun _ => 3000 |} in
  archive_down env /\
  (2 <= List.length roster_AB)%nat /\
  make_timeseries_plots env roster_AB fresh_world =
  (Ok [StationOffline "A" "001"; StationOffline "B" "002"],
   {| requests := [request_url "001"; request_url "002"]; ticks := 0 |}) /\
  get_station_locations env roster_AB fresh_world =
  (Ok (["A"; "B"]%string, [None; None], [None; None]),
   {| requests := [request_url "001"; request_url "002"]; ticks := 0 |}) /\
  exists w', main env roster_AB fresh_world = (Raise TypeError, w').
Proof.
  intro env.
  assert (Hdown : archive_down env) by (intros k url; now exists OSError).
  assert (Hsize : (2 <= List.length roster_AB)%nat) by (cbn; lia).
  split; [exact Hdown|]. split; [exact Hsize|].
  exact (archive_down_run env roster_AB fresh_world Hdown Hsize).
Defined.

(** X19: whenever the time-series builder returns, the roster had at
    least two stations and the panels are one per roster entry, in roster
    order, each carrying the entry's name and id and the status of the
    entry's own fetch: an Offline station takes its place in the figure and
    shifts no other. *)
Theorem returned_panels_cover_roster (env : Env) (buoy_lookup : buoy_lookup)
    (w : World) (panels : list Panel) (w' : World)
    (Hrun : make_timeseries_plots env buoy_lookup w = (Ok panels, w')) :
  (2 <= List.length buoy_lookup)%nat /\
  map panel_station panels = buoy_lookup /\
  map panel_status panels =
  map status_of (answers env (List.length (requests w)) buoy_lookup).
Proof.
  apply make_timeseries_plots_ok in Hrun. destruct Hrun as [Hsize Hrun].
  split; [exact Hsize|].
  apply make_timeseries_plots_loop_ok in Hrun.
  destruct Hrun as [_ [drawn [-> H]]]. exact H.
Qed.

Lemma returned_panels_cover_roster_witness :
  exists panels w',
    make_timeseries_plots (archive_failing_at 1) roster_AB fresh_world =
    (Ok panels, w') /\
    (2 <= List.length roster_AB)%nat /\
    map panel_station panels = roster_AB /\
    map panel_status panels = [Online; Offline].
Proof.
  let v := eval vm_compute in
             (make_timeseries_plots (archive_failing_at 1) roster_AB fresh_world) in
  match v with
  | (Ok ?p, ?w1) =>
      exists p, w1;
      assert (Hrun : make_timeseries_plots (archive_failing_at 1) roster_AB
                       fresh_world = (Ok p, w1)) by (vm_compute; reflexivity);
      split; [exact Hrun|];
      exact (returned_panels_cover_roster _ _ _ _ _ Hrun)
  end.
Defined.

(** ** Urls and request order *)

Lemma append_inv_head (s a b : string) :
  (s ++ a)%string = (s ++ b)%string -> a = b.
Proof.
  induction s as [|c s IH]; cbn; intro H; [exact H|].
  injection H as H. now apply IH.
Qed.

Lemma append_length (a b : string) :
  String.length (a ++ b) = (String.length a + String.length b)%nat.
Proof. induction a as [|c a IH]; cbn; [reflexivity | now rewrite IH]. Qed.

Lemma append_inv_tail (s : string) :
  forall a b, (a ++ s)%string = (b ++ s)%string -> a = b.
Proof.
  induction a as [|c a IH]; intros [|c' b] H; cbn in H.
  - reflexivity.
  - apply (f_equal String.length) in H. cbn in H. rewrite append_length in H. lia.
  - apply (f_equal String.length) in H. cbn in H. rewrite append_length in H. lia.
  - injection H as -> H. f_equal. now apply IH.
Qed.

(** X14: two station ids are fetched from the same url only if they are the
    same id. *)
Theorem request_url_injective (a b : string)
    (H : request_url a = request_url b) : a = b.
Proof.
  unfold request_url in H. apply append_inv_head in H.
  now apply append_inv_tail in H.
Qed.

Lemma request_url_injective_witness : "029"%string = "029"%string.
Proof. exact (request_url_injective "029" "029" eq_refl). Defined.

Lemma firstn_cons_app {A} (l : list A) (x : A) (r : list A) (k : nat) :
  (l ++ [x]) ++ firstn k r = l ++ firstn (S k) (x :: r).
Proof. cbn. now rewrite <- app_assoc. Qed.

Lemma make_timeseries_plots_loop_requests (env : Env) (axs : Subplots)
    (items : buoy_lookup) :
  forall i ax w, exists k,
    requests (snd (make_timeseries_plots_loop env axs i items ax w)) =
    requests w ++ firstn k (roster_urls items).
Proof.
  induction items as [|[key value] items IH]; intros i ax w.
  - exists 0%nat. cbn. now rewrite app_nil_r.
  - cbn [make_timeseries_plots_loop roster_urls map snd].
    rewrite bind_get_buoy_data.
    unfold bind at 1, lift.
    destruct (subscript axs i) as [[]|e0]; [|now exists 1%nat].
    destruct (fetched _) as [ds|].
    + unfold bind at 1.
      pose proof (plot_buoy_requests env ds [] (PyBool true)
                    {| requests := requests w ++ [request_url value];
                       ticks := ticks w |}) as Hreq.
      destruct (plot_buoy env ds [] (PyBool true) _) as [[r|e] w1];
        cbn [snd requests] in Hreq.
      * destruct r as [? ?|ax_current lm max_hs].
        -- exists 1%nat. cbn [raise snd]. rewrite Hreq. cbn. reflexivity.
        -- destruct (IH (S i) (ax ++ [StationOnline i key value ax_current max_hs]) w1)
             as [k Hk].
           exists (S k). rewrite Hk, Hreq. apply firstn_cons_app.
      * exists 1%nat. cbn [snd]. rewrite Hreq. reflexivity.
    + destruct (IH (S i) (ax ++ [StationOffline key value])
                  {| requests := requests w ++ [request_url value];
                     ticks := ticks w |}) as [k Hk].
      exists (S k). rewrite Hk. cbn [requests]. apply firstn_cons_app.
Qed.

Lemma get_station_locations_loop_requests (env : Env) (items : buoy_lookup) :
  forall station_name lats lons w, exists k,
    requests (snd (get_station_locations_loop env items station_name lats lons w)) =
    requests w ++ firstn k (roster_urls items).
Proof.
  induction items as [|[key value] items IH]; intros names lats lons w.
  - exists 0%nat. cbn. now rewrite app_nil_r.
  - cbn [get_station_locations_loop roster_urls map snd].
    rewrite bind_get_buoy_data.
    destruct (fetched _) as [ds|].
    + unfold bind at 1, lift.
      destruct (isel_last (gps ds)) as [g|e].
      * unfold bind at 1.
        destruct (IH (names ++ [key]) (lats ++ [Some (gpsLatitude g)])
                    (lons ++ [Some (gpsLongitude g)])
                    {| requests := requests w ++ [request_url value];
                       ticks := ticks w |}) as [k Hk].
        exists (S k). rewrite Hk. cbn [requests]. apply firstn_cons_app.
      * exists 1%nat. reflexivity.
    + destruct (IH (names ++ [key]) (lats ++ [None]) (lons ++ [None])
                  {| requests := requests w ++ [request_url value];
                     ticks := ticks w |}) as [k Hk].
      exists (S k). rewrite Hk. cbn [requests]. apply firstn_cons_app.
Qed.

Lemma make_density_plots_loop_requests (env : Env) (items : buoy_lookup) :
  forall i vars w, exists k,
    requests (snd (make_density_plots_loop env i items vars w)) =
    requests w ++ firstn k (roster_urls items).
Proof.
  induction items as [|[key value] items IH]; intros i vars w.
  - exists 0%nat. cbn. now rewrite app_nil_r.
  - cbn [make_density_plots_loop roster_urls map snd].
    rewrite bind_get_buoy_data.
    assert (Hgo : forall vars1, exists k,
               requests (snd (make_density_plots_loop env (S i) items vars1
                                {| requests := requests w ++ [request_url value];
                                   ticks := ticks w |})) =
               requests w ++ firstn k (request_url value :: roster_urls items)).
    { intro vars1.
      destruct (IH (S i) vars1 {| requests := requests w ++ [request_url value];
                                  ticks := ticks w |}) as [k Hk].
      exists (S k). rewrite Hk. cbn [requests]. apply firstn_cons_app. }
    assert (Hstop : exists k,
               requests w ++ [request_url value] =
               requests w ++ firstn k (request_url value :: roster_urls items))
      by (now exists 1%nat).
    destruct (fetched _) as [ds|]; destruct (i =? 0)%nat;
      try exact Hstop; try apply Hgo.
    destruct vars as [[df ix]|]; [|exact Hstop].
    unfold bind at 1, lift.
    destruct (reindex _ ix 3); [apply Hgo | exact Hstop].
Qed.

(** X15: whatever the archive answers and however a builder ends, by
    returning or by raising, the requests it has sent are a prefix of the
    roster's urls in roster order: no station is requested twice or out of
    order, and nothing else is requested. *)
Theorem builders_request_a_roster_prefix (env : Env) (buoy_lookup : buoy_lookup)
    (w : World) :
  (exists k, requests (snd (make_timeseries_plots env buoy_lookup w)) =
             requests w ++ firstn k (roster_urls buoy_lookup)) /\
  (exists k, requests (snd (get_station_locations env buoy_lookup w)) =
             requests w ++ firstn k (roster_urls buoy_lookup)) /\
  (exists k, requests (snd (make_density_plots env buoy_lookup w)) =
             requests w ++ firstn k (roster_urls buoy_lookup)).
Proof.
  split; [|split].
  - unfold make_timeseries_plots. unfold bind at 1, lift.
    destruct (plt_subplots (List.length buoy_lookup)) as [axs|e].
    + apply make_timeseries_plots_loop_requests.
    + exists 0%nat. cbn. now rewrite app_nil_r.
  - apply get_station_locations_loop_requests.
  - rewrite make_density_plots_unfold.
    destruct (make_density_plots_loop_requests env buoy_lookup 0 None w) as [k Hk].
    exists k.
    destruct (make_density_plots_loop env 0 buoy_lookup None w) as [[vars|e] w1];
      cbn [snd] in *; [|exact Hk].
    destruct vars as [[df ix]|]; [|exact Hk].
    cbn zeta. destruct (joyplot _); exact Hk.
Qed.

(** ** Colours *)

Lemma make_timeseries_plots_loop_cmap (env : Env) (axs : Subplots)
    (items : buoy_lookup) :
  forall i ax w panels w',
    make_timeseries_plots_loop env axs i items ax w = (Ok panels, w') ->
    exists drawn,
      panels = ax ++ drawn /\
      forall j c, nth_error (map panel_cmap drawn) j = Some (Some c) ->
                  c = (i + j)%nat.
Proof.
  induction items as [|[key value] items IH]; intros i ax w panels w' H.
  - cbn in H. injection H as <- <-. exists []. split; [now rewrite app_nil_r|].
    intros j c Hj. destruct j; discriminate.
  - cbn [make_timeseries_plots_loop] in H. rewrite bind_get_buoy_data in H.
    unfold bind at 1, lift in H.
    destruct (subscript axs i) as [[]|e0]; [|discriminate].
    destruct (fetched _) as [ds|].
    + unfold bind at 1 in H.
      destruct (plot_buoy env ds [] (PyBool true) _) as [[r|e] w1];
        [|discriminate].
      destruct r as [? ?|ax_current lm max_hs]; [discriminate|].
      apply IH in H. destruct H as [drawn [-> Hc]].
      exists (StationOnline i key value ax_current max_hs :: drawn).
      split; [now rewrite app_snoc_assoc|].
      intros [|j] c Hj; cbn in Hj.
      * injection Hj as <-. lia.
      * rewrite (Hc j c Hj). lia.
    + apply IH in H. destruct H as [drawn [-> Hc]].
      exists (StationOffline key value :: drawn).
      split; [now rewrite app_snoc_assoc|].
      intros [|j] c Hj; cbn in Hj; [discriminate|].
      rewrite (Hc j c Hj). lia.
Qed.

Lemma coords_query_unique (names : list string) :
  forall (lats lons : list (option Q)) i key,
    NoDup names ->
    List.length lats = List.length names ->
    List.length lons = List.length names ->
    nth_error names i = Some key ->
    exists lat lon,
      nth_error lats i = Some lat /\ nth_error lons i = Some lon /\
      coords_query names lats lons key = [(lat, lon)].
Proof.
  induction names as [|name names IH]; intros lats lons i key Hnd Hla Hlo Hi;
    [destruct i; discriminate|].
  destruct lats as [|lat lats]; [discriminate|].
  destruct lons as [|lon lons]; [discriminate|].
  inversion Hnd as [|? ? Hnotin Hnd']; subst.
  cbn [coords_query]. destruct i as [|i]; cbn in Hi.
  - injection Hi as ->. rewrite String.eqb_refl.
    exists lat, lon. repeat split. f_equal.
    clear - Hnotin. revert lats lons.
    induction names as [|n names IH]; intros lats lons; [reflexivity|].
    destruct lats, lons; try reflexivity. cbn [coords_query].
    destruct (String.eqb_spec n key) as [->|_].
    + exfalso. apply Hnotin. now left.
    + apply IH. intro H. apply Hnotin. now right.
  - destruct (String.eqb_spec name key) as [->|_].
    + exfalso. apply Hnotin. eapply nth_error_In. exact Hi.
    + cbn in Hla, Hlo.
      destruct (IH lats lons i key Hnd' ltac:(lia) ltac:(lia) Hi)
        as [la [lo [H1 [H2 H3]]]].
      exists la, lo. now repeat split.
Qed.

Lemma make_buoy_map_loop_spec (names : list string) (lats lons : list (option Q))
    (Hnd : NoDup names)
    (Hla : List.length lats = List.length names)
    (Hlo : List.length lons = List.length names) (items : buoy_lookup) :
  forall i,
    (forall j key, nth_error (map fst items) j = Some key ->
                   nth_error names (i + j) = Some key) ->
    forall j, (j < List.length items)%nat ->
      exists lat lon,
        nth_error lats (i + j) = Some lat /\
        nth_error lons (i + j) = Some lon /\
        nth_error (make_buoy_map_loop (names, lats, lons) i items) j =
        Some {| scatter_points := [(lat, lon)]; scatter_cmap := (i + j)%nat |}.
Proof.
  induction items as [|[key value] items IH]; intros i Hnames j Hj;
    [cbn in Hj; lia|].
  cbn [make_buoy_map_loop]. destruct j as [|j].
  - rewrite Nat.add_0_r.
    specialize (Hnames 0%nat key eq_refl). rewrite Nat.add_0_r in Hnames.
    destruct (coords_query_unique names lats lons i key Hnd Hla Hlo Hnames)
      as [lat [lon [H1 [H2 H3]]]].
    exists lat, lon. cbn [nth_error]. rewrite H3. now repeat split.
  - replace (i + S j)%nat with (S i + j)%nat by lia. cbn [nth_error].
    apply IH; [|cbn in Hj; lia].
    intros j' key' Hj'. replace (S i + j')%nat with (i + S j')%nat by lia.
    now apply Hnames.
Qed.

(** X16: marker and label colours are coordinated by roster position.  In
    the panels the time-series builder returns, the j-th panel draws its
    station label with colour index j whenever it uses the colour map (an
    Offline station uses a fixed colour and shifts nothing); and on the map,
    for a roster with distinct names, the j-th scatter call draws exactly
    one point, station j's own latitude and longitude, with colour index
    j. *)
Theorem colours_follow_roster_position (env : Env) (buoy_lookup : buoy_lookup)
    (w w0 : World) (panels : list Panel) (w' : World)
    (scatters : list Scatter) (w0' : World)
    (Hpanels : make_timeseries_plots env buoy_lookup w = (Ok panels, w'))
    (Hmap : make_buoy_map_scatter env buoy_lookup w0 = (Ok scatters, w0'))
    (Hnames : NoDup (map fst buoy_lookup)) :
  (forall j c, nth_error (map panel_cmap panels) j = Some (Some c) -> c = j) /\
  exists station_name lats lons,
    get_station_locations env buoy_lookup w0 = (Ok (station_name, lats, lons), w0') /\
    forall j, (j < List.length buoy_lookup)%nat ->
      exists lat lon,
        nth_error lats j = Some lat /\ nth_error lons j = Some lon /\
        nth_error scatters j =
        Some {| scatter_points := [(lat, lon)]; scatter_cmap := j |}.
Proof.
  split.
  - apply make_timeseries_plots_ok in Hpanels. destruct Hpanels as [_ Hpanels].
    apply make_timeseries_plots_loop_cmap in Hpanels.
    destruct Hpanels as [drawn [-> Hc]]. exact Hc.
  - unfold make_buoy_map_scatter, bind in Hmap.
    destruct (get_station_locations env buoy_lookup w0)
      as [[[[names lats] lons]|e] w1] eqn:E; [|discriminate].
    unfold ret in Hmap. injection Hmap as <- <-.
    exists names, lats, lons. split; [reflexivity|].
    unfold get_station_locations in E.
    apply get_station_locations_loop_ok in E.
    destruct E as [_ [Hn [la [lo [Hla [Hlo [Hsa Hso]]]]]]].
    cbn [app] in Hn, Hla, Hlo. subst names lats lons.
    assert (Hlen : forall l : list (option Q),
               map coordinate_status l =
               map status_of (answers env (List.length (requests w0)) buoy_lookup) ->
               List.length l = List.length (map fst buoy_lookup)).
    { intros l Hl. apply (f_equal (@List.length _)) in Hl.
      rewrite !length_map, answers_length in Hl. now rewrite length_map. }
    intros j Hj.
    exact (make_buoy_map_loop_spec (map fst buoy_lookup) la lo Hnames
             (Hlen la Hsa) (Hlen lo Hso) buoy_lookup 0%nat
             (fun j' key' H => H) j Hj).
Qed.

Lemma colours_follow_roster_position_witness :
  exists panels w' scatters w0',
    make_timeseries_plots (archive_failing_at 0) roster_AB fresh_world
    = (Ok panels, w') /\
    make_buoy_map_scatter (archive_failing_at 0) roster_AB fresh_world
    = (Ok scatters, w0') /\
    (forall j c, nth_error (map panel_cmap panels) j = Some (Some c) -> c = j) /\
    map scatter_cmap scatters = [0%nat; 1%nat].
Proof.
  let p := eval vm_compute in
             (make_timeseries_plots (archive_failing_at 0) roster_AB fresh_world) in
  let s := eval vm_compute in
             (make_buoy_map_scatter (archive_failing_at 0) roster_AB fresh_world) in
  match p with
  | (Ok ?ps, ?w1) =>
      match s with
      | (Ok ?ss, ?w2) =>
          exists ps, w1, ss, w2;
          assert (Hp : make_timeseries_plots (archive_failing_at 0) roster_AB
                         fresh_world = (Ok ps, w1)) by (vm_compute; reflexivity);
          assert (Hs : make_buoy_map_scatter (archive_failing_at 0) roster_AB
                         fresh_world = (Ok ss, w2)) by (vm_compute; reflexivity);
          destruct (colours_follow_roster_position _ _ _ _ _ _ _ _ Hp Hs
                      roster_AB_distinct) as [Hc _];
          split; [exact Hp | split; [exact Hs | split; [exact Hc | reflexivity]]]
      end
  end.
Defined.

(** ** Decoration of one panel *)

(** X17: [format_axis] is idempotent and overrides the ticks an earlier
    [set_yticks] left behind, so the placeholder of an offline station does
    not end as its branch leaves it: the y ticks
    cleared there are set back to 5, 10, 15 by the [format_axis] that ends
    every iteration, and the 'cdip <id>' caption is drawn twice; an online
    station gets the caption once, its lines, the limits 0..20 and the same
    ticks.  The host axes end without y ticks and without visible spines in
    both cases. *)
Theorem panel_decoration (i : nat) (key value : string) (host : AxesState)
    (drawn : Axes) (ax : AxesState) (right : bool) :
  format_axis (format_axis ax right) right = format_axis ax right /\
  format_axis (set_yticks ax []) true = format_axis ax true /\
  (let (ax_current, host') := draw_panel i key value host None in
   yticks ax_current = Some [5; 10; 15] /\
   texts ax_current =
   [name_label key (Hex "#2F5596"); cdip_label value; offline_label;
    cdip_label value] /\
   lines ax_current = [] /\
   host' = format_axis host false) /\
  (let (ax_current, host') := draw_panel i key value host (Some drawn) in
   yticks ax_current = Some [5; 10; 15] /\
   texts ax_current = [name_label key (Dark2 i); cdip_label value] /\
   lines ax_current = drawn /\
   ylim ax_current = Some (0, 20) /\
   host' = format_axis host false) /\
  (yticks (format_axis host false) = Some [] /\
   spine_top (format_axis host false) = false /\
   spine_bottom (format_axis host false) = false /\
   spine_left (format_axis host false) = false /\
   spine_right (format_axis host false) = false).
Proof.
  repeat split; try reflexivity.
  - destruct right; reflexivity.
Qed.

(** ** The coordinate table *)

(** X18: whenever the position builder returns, its three lists have one
    entry per roster entry, so the coordinate table of [make_buoy_map] is
    built from columns of equal length; the names are the roster's in roster
    order, and a station's latitude is missing exactly when its longitude
    is. *)
Theorem station_locations_table_is_rectangular (env : Env)
    (buoy_lookup : buoy_lookup) (w : World) (station_name : list string)
    (lats lons : list (option Q)) (w' : World)
    (Hrun : get_station_locations env buoy_lookup w =
            (Ok (station_name, lats, lons), w')) :
  station_name = map fst buoy_lookup /\
  List.length lats = List.length buoy_lookup /\
  List.length lons = List.length buoy_lookup /\
  map coordinate_status lats = map coordinate_status lons.
Proof.
  unfold get_station_locations in Hrun.
  apply get_station_locations_loop_ok in Hrun.
  destruct Hrun as [_ [Hn [la [lo [Hla [Hlo [Hsa Hso]]]]]]].
  cbn [app] in Hn, Hla, Hlo. subst station_name lats lons.
  split; [reflexivity|].
  assert (Hlen : forall l : list (option Q),
             map coordinate_status l =
             map status_of (answers env (List.length (requests w)) buoy_lookup) ->
             List.length l = List.length buoy_lookup).
  { intros l Hl. apply (f_equal (@List.length _)) in Hl.
    now rewrite !length_map, answers_length in Hl. }
  split; [exact (Hlen la Hsa)|]. split; [exact (Hlen lo Hso)|]. congruence.
Qed.

Lemma station_locations_table_is_rectangular_witness :
  exists station_name lats lons w',
    get_station_locations (archive_failing_at 1) roster_AB fresh_world =
    (Ok (station_name, lats, lons), w') /\
    station_name = map fst roster_AB /\
    List.length lats = 2%nat /\ List.length lons = 2%nat.
Proof.
  let v := eval vm_compute in
             (get_station_locations (archive_failing_at 1) roster_AB fresh_world) in
  match v with
  | (Ok (?n, ?la, ?lo), ?w1) =>
      exists n, la, lo, w1;
      assert (Hrun : get_station_locations (archive_failing_at 1) roster_AB
                       fresh_world = (Ok (n, la, lo), w1))
        by (vm_compute; reflexivity);
      destruct (station_locations_table_is_rectangular _ _ _ _ _ _ _ Hrun)
        as [H1 [H2 [H3 _]]];
      split; [exact Hrun | split; [exact H1 | split; [exact H2 | exact H3]]]
  end.
Defined.
